(** * The background enrichment pipeline of [bookmarks/threads.py]

    A shallow embedding of the work queue ([UniqueQueue]), the [process]
    decorator, the thread controller's [put] and the specialised workers
    ([InfoWorker], [ThumbnailWorker], [TaskFolderWorker]), followed by the
    properties of the specification that concern them.

    Python objects live in a store indexed by their identity.  A weak
    reference is the identity of its referent: [weakref.ref(x)] called twice
    on the same object gives the same reference.  The records ([DataDict]) are
    Python dictionaries and are modelled as finite maps from keys to
    dynamically typed values, so that a missing key or a value of the wrong
    type raises, as it does in Python.

    The worker runs next to other threads (the user interface owns the
    records and may drop or alter them at any time).  Every dereference
    [ref()] of a weak reference and every [time.sleep] is a point where the
    other threads may have run: the state carries the list of the
    interferences still to come, one entry per such point. *)

From stdpp Require Import base option list gmap strings.
From Stdlib Require Import ZArith Lia Ascii DecimalString.

Open Scope Z_scope.

(** ** Python values *)

(** The identity of an object, and of an image. *)
Abbreviation Ref := nat.
Abbreviation Image := nat.

Inductive ItemType := FileItem | SequenceItem.

(** The groups of the regular-expression match stored under [SequenceRole];
    the code reads [group(1)], [group(3)] and [group(4)]. *)
Record SeqMatch := { group1 : string; group3 : string; group4 : string }.

(** A [scandir] entry: its name and what [entry.stat()] returns (the
    modification time in whole seconds). *)
Record DirEntry := { entry_name : string; st_mtime : Z; st_size : Z }.

Inductive Key :=
| DisplayRole | EditRole | StatusTipRole | ToolTipRole | SizeHintRole
| FlagsRole | ParentPathRole | DescriptionRole | TodoCountRole
| FileDetailsRole | SequenceRole | FramesRole | TypeRole | EntryRole
| FileInfoLoaded | FileThumbnailLoaded | StartpathRole | EndpathRole
| ThumbnailRole | DefaultThumbnailRole | ThumbnailPathRole
| SortBySizeRole | SortByLastModifiedRole
| Idx (n : nat).

Inductive Value :=
| VNone
| VBool (b : bool)
| VInt (z : Z)
| VStr (s : string)
| VStrs (l : list string)
| VItemType (t : ItemType)
| VMatch (m : SeqMatch)
| VEntries (l : list DirEntry)
| VImage (i : Image)
| VSize (height : Z)
| VDict (r : Ref).

Global Instance ItemType_eq_dec : EqDecision ItemType.
Proof. solve_decision. Defined.
Global Instance SeqMatch_eq_dec : EqDecision SeqMatch.
Proof. solve_decision. Defined.
Global Instance DirEntry_eq_dec : EqDecision DirEntry.
Proof. solve_decision. Defined.
Global Instance Key_eq_dec : EqDecision Key.
Proof. solve_decision. Defined.
Global Instance Value_eq_dec : EqDecision Value.
Proof. solve_decision. Defined.

Definition Key_code (k : Key) : nat :=
  match k with
  | DisplayRole => 0 | EditRole => 1 | StatusTipRole => 2 | ToolTipRole => 3
  | SizeHintRole => 4 | FlagsRole => 5 | ParentPathRole => 6
  | DescriptionRole => 7 | TodoCountRole => 8 | FileDetailsRole => 9
  | SequenceRole => 10 | FramesRole => 11 | TypeRole => 12 | EntryRole => 13
  | FileInfoLoaded => 14 | FileThumbnailLoaded => 15 | StartpathRole => 16
  | EndpathRole => 17 | ThumbnailRole => 18 | DefaultThumbnailRole => 19
  | ThumbnailPathRole => 20 | SortBySizeRole => 21
  | SortByLastModifiedRole => 22
  | Idx n => 23 + n
  end%nat.

Definition Key_decode (c : nat) : Key :=
  match c with
  | 0 => DisplayRole | 1 => EditRole | 2 => StatusTipRole | 3 => ToolTipRole
  | 4 => SizeHintRole | 5 => FlagsRole | 6 => ParentPathRole
  | 7 => DescriptionRole | 8 => TodoCountRole | 9 => FileDetailsRole
  | 10 => SequenceRole | 11 => FramesRole | 12 => TypeRole | 13 => EntryRole
  | 14 => FileInfoLoaded | 15 => FileThumbnailLoaded | 16 => StartpathRole
  | 17 => EndpathRole | 18 => ThumbnailRole | 19 => DefaultThumbnailRole
  | 20 => ThumbnailPathRole | 21 => SortBySizeRole
  | 22 => SortByLastModifiedRole
  | _ => Idx (c - 23)
  end%nat.

Lemma Key_decode_code (k : Key) : Key_decode (Key_code k) = k.
Proof.
  destruct k; try reflexivity.
  unfold Key_code.
  replace (23 + n)%nat with (S (S (S (S (S (S (S (S (S (S (S (S (S (S (S (S
    (S (S (S (S (S (S (S n))))))))))))))))))))))) by lia.
  cbn [Key_decode]. f_equal. lia.
Qed.

Global Instance Key_countable : Countable Key :=
  inj_countable' Key_code Key_decode Key_decode_code.

(** A record of the listing, and the store of the records. *)
Abbreviation DataDict := (gmap Key Value).
Abbreviation Heap := (gmap Ref (gmap Key Value)).

(** ** Exceptions and outcomes *)

Inductive exn :=
| QueueEmpty          (* Queue.Empty *)
| TypeError
| KeyError
| ValueError
| IndexError
| AttributeError
| UnboundLocalError
| GeneratorError.     (* anything the thumbnail generator raises *)

Global Instance exn_eq_dec : EqDecision exn.
Proof. solve_decision. Defined.

(** What running a piece of a Python function body gives: it falls through
    with a value, executes a [return], or raises. *)
Inductive Res (R A : Type) :=
| Val (a : A)
| Ret (r : R)
| Exc (e : exn).
Arguments Val {R A} a.
Arguments Ret {R A} r.
Arguments Exc {R A} e.

(** ** The work queue

    [collections.deque] as a list whose head is the left end. *)

Record UniqueQueue := {
  queue : list Ref;
  unfinished_tasks : Z
}.

Module Deque.
Definition append (x : Ref) (d : list Ref) : list Ref := d ++ [x].
Definition appendleft (x : Ref) (d : list Ref) : list Ref := x :: d.
(** [pop] removes the rightmost element; [None] stands for the
    [IndexError] of an empty deque. *)
Fixpoint pop (d : list Ref) : option (Ref * list Ref) :=
  match d with
  | [] => None
  | [x] => Some (x, [])
  | x :: rest =>
      match pop rest with
      | Some (y, rest') => Some (y, x :: rest')
      | None => None
      end
  end.
End Deque.

Module Queue.
(** [UniqueQueue._init] *)
Definition _init : UniqueQueue := {| queue := []; unfinished_tasks := 0 |}.

(** [UniqueQueue._put] *)
Definition _put (item : Ref) (force : bool) (q : UniqueQueue) : UniqueQueue :=
  if force
  then {| queue := Deque.append item (queue q);
          unfinished_tasks := unfinished_tasks q |}
  else {| queue := Deque.appendleft item (queue q);
          unfinished_tasks := unfinished_tasks q |}.

(** [UniqueQueue._get] *)
Definition _get (q : UniqueQueue) : option (Ref * UniqueQueue) :=
  match Deque.pop (queue q) with
  | Some (x, d) => Some (x, {| queue := d; unfinished_tasks := unfinished_tasks q |})
  | None => None
  end.

Definition _qsize (q : UniqueQueue) : nat := length (queue q).

(** [UniqueQueue.put].  The workers build their queue with
    [UniqueQueue()], so [maxsize] is 0 and the waiting branches are
    skipped. *)
Definition put (item : Ref) (force : bool) (q : UniqueQueue) : UniqueQueue :=
  let q' := _put item force q in
  {| queue := queue q'; unfinished_tasks := unfinished_tasks q' + 1 |}.

(** [Queue.get(False)]: [inl] is the [Queue.Empty] exception. *)
Definition get (q : UniqueQueue) : exn + (Ref * UniqueQueue) :=
  if Nat.eqb (_qsize q) 0 then inl QueueEmpty
  else match _get q with
       | Some res => inr res
       | None => inl IndexError
       end.

(** [Queue.task_done] *)
Definition task_done (q : UniqueQueue) : exn + UniqueQueue :=
  let unfinished := unfinished_tasks q - 1 in
  if unfinished <? 0 then inl ValueError
  else inr {| queue := queue q; unfinished_tasks := unfinished |}.

(** The order in which repeated [get]s hand out the queued items. *)
Fixpoint drain_fuel (n : nat) (q : UniqueQueue) : list Ref :=
  match n with
  | O => []
  | S n' =>
      match get q with
      | inr (x, q') => x :: drain_fuel n' q'
      | inl _ => []
      end
  end.
Definition drain (q : UniqueQueue) : list Ref := drain_fuel (_qsize q) q.

(** A submission sequence: each item with its [force] flag. *)
Definition submit (ops : list (Ref * bool)) (q : UniqueQueue) : UniqueQueue :=
  fold_left (fun acc op => put (fst op) (snd op) acc) ops q.

Definition forced (ops : list (Ref * bool)) : list Ref :=
  map fst (filter (fun op => snd op = true) ops).
Definition normal (ops : list (Ref * bool)) : list Ref :=
  map fst (filter (fun op => snd op = false) ops).
End Queue.

(** ** The state a worker runs in *)

(** What another thread may do to the store between two accesses of the
    worker: the owning collection drops a record, or somebody writes one of
    its fields.  A dropped record never comes back.  The other threads are
    given more freedom than they have: they may drop a record while the
    worker still holds it in a local variable (Python would keep it until
    the variable goes).  What is proved for every interference therefore
    holds for the real ones. *)
Inductive EnvAct :=
| Discard (r : Ref)
| Store (r : Ref) (k : Key) (v : Value).

(** What the worker does that others can observe. *)
Inductive Event :=
| DataReady (r : Ref)                       (* self.dataReady.emit(ref) *)
| SetItem (r : Ref) (k : Key) (v : Value)   (* ref()[k] = v *)
| MakeThumbnail (source dest : string)      (* oiio_make_thumbnail(source, dest, _) *)
| LogError (msg : string).                  (* common.Log.error(msg) *)

Global Instance Event_eq_dec : EqDecision Event.
Proof. solve_decision. Defined.

Record State := {
  interrupt : bool;            (* worker.interrupt *)
  data_queue : UniqueQueue;    (* worker.data_queue *)
  heap : Heap;
  env : list (list EnvAct);
  trace : list Event
}.

Definition set_interrupt (b : bool) (s : State) : State :=
  {| interrupt := b; data_queue := data_queue s; heap := heap s;
     env := env s; trace := trace s |}.
Definition set_data_queue (q : UniqueQueue) (s : State) : State :=
  {| interrupt := interrupt s; data_queue := q; heap := heap s;
     env := env s; trace := trace s |}.
Definition set_heap (h : Heap) (s : State) : State :=
  {| interrupt := interrupt s; data_queue := data_queue s; heap := h;
     env := env s; trace := trace s |}.
Definition set_env (e : list (list EnvAct)) (s : State) : State :=
  {| interrupt := interrupt s; data_queue := data_queue s; heap := heap s;
     env := e; trace := trace s |}.
Definition emit (ev : Event) (s : State) : State :=
  {| interrupt := interrupt s; data_queue := data_queue s; heap := heap s;
     env := env s; trace := trace s ++ [ev] |}.

Definition env_act (a : EnvAct) (h : Heap) : Heap :=
  match a with
  | Discard r => delete r h
  | Store r k v => alter (fun d => <[k := v]> d) r h
  end.

Definition env_acts (acts : list EnvAct) (h : Heap) : Heap :=
  fold_left (fun acc a => env_act a acc) acts h.

(** ** The monad of function bodies

    [Py Σ R A]: a piece of the body of a function whose [return] values have
    type [R], running on a state [Σ]. *)
Definition Py (Σ R A : Type) : Type := Σ -> Res R A * Σ.

Definition ret {Σ R A} (a : A) : Py Σ R A := fun s => (Val a, s).
Definition bind {Σ R A B} (m : Py Σ R A) (f : A -> Py Σ R B) : Py Σ R B := fun s =>
  match m s with
  | (Val a, s') => f a s'
  | (Ret r, s') => (Ret r, s')
  | (Exc e, s') => (Exc e, s')
  end.

Notation "'let*' x ':=' m 'in' k" := (bind m (fun x => k))
  (at level 10, x pattern, m at level 100, k at level 200, only parsing).
Notation "m ';;' k" := (bind m (fun _ => k))
  (at level 100, k at level 200, only parsing, right associativity).

Definition return_ {Σ R A} (r : R) : Py Σ R A := fun s => (Ret r, s).
Definition raise {Σ R A} (e : exn) : Py Σ R A := fun s => (Exc e, s).
Definition gets {Σ R A} (f : Σ -> A) : Py Σ R A := fun s => (Val (f s), s).
Definition modify {Σ R} (f : Σ -> Σ) : Py Σ R unit := fun s => (Val tt, f s).

(** [if c: return r] *)
Definition return_if {Σ R} (c : bool) (r : R) : Py Σ R unit :=
  if c then return_ r else ret tt.

(** Calling a function: its [return] value, or the given value when the body
    falls off its end, is the value of the call; exceptions propagate. *)
Definition call {Σ R R'} (fall : R) (body : Py Σ R unit) : Py Σ R' R := fun s =>
  match body s with
  | (Val _, s') => (Val fall, s')
  | (Ret r, s') => (Val r, s')
  | (Exc e, s') => (Exc e, s')
  end.

(** [try: body  except: handler  finally: final].  A handler that does not
    catch an exception raises it again.  A [return] or an exception of the
    [finally] block replaces the outcome of what came before. *)
Definition try_except_finally {Σ R A}
    (body : Py Σ R A) (handler : exn -> Py Σ R A) (final : Py Σ R unit)
  : Py Σ R A := fun s =>
  let '(r1, s1) := body s in
  let '(r2, s2) := match r1 with
                   | Exc e => handler e s1
                   | _ => (r1, s1)
                   end in
  let '(r3, s3) := final s2 in
  match r3 with
  | Val _ => (r2, s3)
  | Ret r => (Ret r, s3)
  | Exc e => (Exc e, s3)
  end.

(** [try: body  except: handler] *)
Definition try_except {Σ R A}
    (body : Py Σ R A) (handler : exn -> Py Σ R A) : Py Σ R A :=
  try_except_finally body handler (ret tt).

(** The local variables of a function that its [finally] block reads: the
    body runs on the state paired with them. *)
Definition lift {Σ L R A} (m : Py Σ R A) : Py (Σ * L) R A := fun sl =>
  let '(r, s') := m (fst sl) in (r, (s', snd sl)).

Definition with_locals {Σ L R A} (init : L) (m : Py (Σ * L) R A) : Py Σ R A :=
  fun s => let '(r, sl) := m (s, init) in (r, fst sl).

(** ** Truth values and casts *)

(** [bool(v)].  A dictionary is true when it is not empty. *)
Definition truthy (h : Heap) (v : Value) : bool :=
  match v with
  | VNone => false
  | VBool b => b
  | VInt z => negb (z =? 0)
  | VStr s => negb (bool_decide (s = ""%string))
  | VStrs l => negb (bool_decide (l = []))
  | VEntries l => negb (bool_decide (l = []))
  | VDict r => match h !! r with
               | Some d => negb (bool_decide (d = ∅))
               | None => false
               end
  | VItemType _ | VMatch _ | VImage _ | VSize _ => true
  end.

Definition as_int {Σ R} (v : Value) : Py Σ R Z :=
  match v with
  | VInt z => ret z
  | VBool b => ret (if b then 1 else 0)
  | _ => raise TypeError
  end.

Definition as_str {Σ R} (v : Value) : Py Σ R string :=
  match v with VStr s => ret s | _ => raise AttributeError end.

Definition as_strs {Σ R} (v : Value) : Py Σ R (list string) :=
  match v with VStrs l => ret l | _ => raise TypeError end.

Definition as_entries {Σ R} (v : Value) : Py Σ R (list DirEntry) :=
  match v with
  | VEntries l => ret l
  | VNone => ret []
  | _ => raise TypeError
  end.

Definition as_match {Σ R} (v : Value) : Py Σ R SeqMatch :=
  match v with VMatch m => ret m | _ => raise AttributeError end.

Definition as_height {Σ R} (v : Value) : Py Σ R Z :=
  match v with VSize h => ret h | _ => raise AttributeError end.

(** ** Weak references *)

(** One step of the other threads. *)
Definition tick {R} : Py State R unit := fun s =>
  match env s with
  | [] => (Val tt, s)
  | acts :: rest => (Val tt, set_env rest (set_heap (env_acts acts (heap s)) s))
  end.

(** [ref()]: the record, or [None] once it has been dropped. *)
Definition deref {R} (r : Ref) : Py State R (option DataDict) :=
  tick;; gets (fun s => heap s !! r).

(** [bool(ref())]: the referent is there and is not an empty dictionary. *)
Definition ref_true {R} (r : Ref) : Py State R bool :=
  let* o := deref r in
  ret (match o with
        | Some d => negb (bool_decide (d = ∅))
        | None => false
        end).

(** [ref()[k]] *)
Definition getitem {R} (r : Ref) (k : Key) : Py State R Value :=
  let* o := deref r in
  match o with
  | None => raise TypeError
  | Some d => match d !! k with
              | Some v => ret v
              | None => raise KeyError
              end
  end.

(** [ref()[k] = v] *)
Definition setitem {R} (r : Ref) (k : Key) (v : Value) : Py State R unit :=
  let* o := deref r in
  match o with
  | None => raise TypeError
  | Some d =>
      modify (fun s => emit (SetItem r k v) (set_heap (<[r := <[k := v]> d]> (heap s)) s))
  end.

(** [if not ref(): return v] *)
Definition return_unless_ref {R} (r : Ref) (v : R) : Py State R unit :=
  let* b := ref_true r in return_if (negb b) v.

(** [if not ref() or self.interrupt: return v] *)
Definition return_unless_ref_or_interrupt {R} (r : Ref) (v : R) : Py State R unit :=
  let* b := ref_true r in
  if negb b then return_ v
  else let* i := gets interrupt in return_if i v.

Definition emit_dataReady {R} (r : Ref) : Py State R unit :=
  modify (emit (DataReady r)).
Definition log_error {R} (msg : string) : Py State R unit :=
  modify (emit (LogError msg)).

(** ** Python string helpers *)

Module PyStr.
(** [int(s)] for a decimal literal with an optional sign; [None] is
    Python's [ValueError].  (Surrounding blanks, which [int] strips, are
    not modelled: the frame strings come from a digit group.) *)
Definition int (s : string) : option Z :=
  match s with
  | String "+"%char rest =>
      match rest with
      | String "-"%char _ => None
      | _ => Z.of_int <$> NilZero.int_of_string rest
      end
  | _ => Z.of_int <$> NilZero.int_of_string s
  end.

(** [unicode(n)] *)
Definition unicode (n : Z) : string := NilZero.string_of_int (Z.to_int n).

Fixpoint zeros (n : nat) : string :=
  match n with O => "" | S n' => String "0"%char (zeros n') end.

(** [s.zfill(width)] *)
Definition zfill (width : nat) (s : string) : string :=
  let fill := zeros (width - String.length s) in
  match s with
  | String "-"%char rest => String "-"%char (fill +:+ rest)
  | String "+"%char rest => String "+"%char (fill +:+ rest)
  | _ => fill +:+ s
  end.

(** [s.split(sep)[-1]]: what follows the last separator. *)
Fixpoint split_last_aux (sep : ascii) (s acc : string) : string :=
  match s with
  | EmptyString => acc
  | String c rest =>
      if Ascii.eqb c sep then split_last_aux sep rest ""
      else split_last_aux sep rest (acc +:+ String c "")
  end.
Definition split_last (sep : ascii) (s : string) : string :=
  split_last_aux sep s "".

Definition lower_ascii (c : ascii) : ascii :=
  let n := nat_of_ascii c in
  if (Nat.leb 65 n && Nat.leb n 90)%bool then ascii_of_nat (n + 32) else c.
(** [s.lower()] on ASCII letters. *)
Fixpoint lower (s : string) : string :=
  match s with
  | EmptyString => EmptyString
  | String c rest => String (lower_ascii c) (lower rest)
  end.

(** [s.startswith(u'.')] *)
Definition startswith_dot (s : string) : bool :=
  match s with
  | String "."%char _ => true
  | _ => false
  end.

Definition contains (x : string) (l : list string) : bool :=
  bool_decide (x ∈ l).
End PyStr.

(** [min(l)] and [max(l)]; [None] is the [ValueError] of an empty list. *)
Definition py_min (l : list Z) : option Z :=
  match l with [] => None | x :: rest => Some (fold_left Z.min rest x) end.
Definition py_max (l : list Z) : option Z :=
  match l with [] => None | x :: rest => Some (fold_left Z.max rest x) end.

(** ** Collaborators outside this module

    The sidecar store, the image cache and thumbnail generator, the file
    system and the helpers of [bookmarks.common] are imported by
    [threads.py]; they are taken as given. *)

(** The object [bookmark_db.get_db] returns. *)
Record DB := {
  db_value : string -> string -> Value;     (* db.value(k, field) *)
  db_thumbnail_path : string -> string      (* db.thumbnail_path(k) *)
}.

(** An entry of the decoded notes: [json.loads(base64.b64decode(v))] maps
    [note_key] to it.  [note_text] and [note_checked] are what
    [v[k][u'text']] and [v[k][u'checked']] give; [None] when the access
    raises (the entry has no such key, or is not a dictionary). *)
Record Note := {
  note_key : string;
  note_text : option Value;
  note_checked : option Value
}.

Inductive GenResult := GenOk | GenFail | GenRaise.

Record Extern := {
  DataDict_eq : DataDict -> DataDict -> bool;          (* DataDict.__eq__ *)
  get_db : string -> string -> string -> option DB;    (* bookmark_db.get_db *)
  decode_notes : string -> option (list Note);
      (* json.loads(base64.b64decode(v)): the entries in the order [for k in v]
         visits them; None when decoding raises or the value is not iterable *)
  proxy_path : DataDict -> string;                     (* common.proxy_path *)
  get_ranges : list Z -> nat -> string;                (* common.get_ranges *)
  mtime_toString : Z -> string -> string;  (* common.qlast_modified(t).toString(fmt) *)
  byte_to_string : Value -> string;                    (* common.byte_to_string *)
  is_collapsed : string -> bool;                       (* common.is_collapsed *)
  get_sequence_startpath : string -> string;
  walk : string -> list string;     (* names of the entries common.walk yields *)
  MarkedAsArchived : Z;                                (* common.MarkedAsArchived *)
  THUMBNAIL_IMAGE_SIZE : Z;
  file_exists : string -> bool;                        (* QFileInfo(p).exists() *)
  file_size : string -> Z;                             (* QFileInfo(p).size() *)
  ImageCache_get : string -> Z -> option Image;        (* images.ImageCache.get *)
  oiio_make_thumbnail : string -> string -> Z -> GenResult;
  oiio_extensions : list string   (* get_extensions(OpenImageIOFilter) *)
}.

(** Qt's item flags. *)
Definition ItemIsEditable : Z := 2.
Definition ItemIsDragEnabled : Z := 4.

(** [pow(1024, 3) * 2] *)
Definition size_ceiling : Z := 1024 ^ 3 * 2.

(** ** The [process] decorator and the base worker *)

Definition queue_get {R} : Py State R Ref :=
  let* g := gets (fun s => Queue.get (data_queue s)) in
  match g with
  | inl e => raise e
  | inr (ref, q) => modify (set_data_queue q);; ret ref
  end.

Definition queue_task_done {R} : Py State R unit :=
  let* t := gets (fun s => Queue.task_done (data_queue s)) in
  match t with
  | inl e => raise e
  | inr q => modify (set_data_queue q)
  end.

(** The body of [func_wrapper]; [func] is the decorated [process_data]. *)
Definition process (func : Ref -> Py State (option Ref) unit) : Py State unit unit :=
  try_except_finally
    (let* ref := queue_get in
     let* result := call None (func ref) in
     match result with
     | None => return_ tt
     | Some res => emit_dataReady res;; queue_task_done
     end)
    (fun e => match e with
              | QueueEmpty => return_ tt
              | _ => log_error "Failed whilst processing data"
              end)
    (modify (set_interrupt false)).

(** One activation ([dataRequested] emitted): a call of the decorated
    [process_data]. *)
Definition activate (func : Ref -> Py State (option Ref) unit) (s : State)
  : Res unit unit * State :=
  call tt (process func) s.

Module BaseWorker.
(** [BaseWorker.process_data] *)
Definition process_data (ref : Ref) : Py State (option Ref) unit :=
  let* i := gets interrupt in
  if i then return_ None else return_ (Some ref).

(** [while True: self.data_queue.get(False)], unrolled once more than
    there are items queued. *)
Fixpoint get_all (n : nat) : Py State unit unit :=
  queue_get;;
  match n with
  | O => ret tt
  | S n' => get_all n'
  end.

(** [BaseWorker.reset_queue] *)
Definition reset_queue : Py State unit unit :=
  modify (set_interrupt true);;
  try_except
    (let* n := gets (fun s => Queue._qsize (data_queue s)) in get_all n)
    (fun e => match e with
              | QueueEmpty => return_ tt
              | _ => log_error "Error resetting the queue"
              end).
End BaseWorker.

(** ** The thread controller *)

Inductive PyArg :=
| AWeakref (r : Ref)    (* a [weakref.ref] *)
| AOther.               (* anything else *)

Module BaseThread.
(** [a == b] on weak references: the referents are compared when both are
    there, the references themselves otherwise. *)
Definition weakref_eq (X : Extern) (h : Heap) (a b : Ref) : bool :=
  match h !! a, h !! b with
  | Some da, Some db => DataDict_eq X da db
  | _, _ => bool_decide (a = b)
  end.

(** [ref in deque]: identity is tried before [==] on every element. *)
Definition contains (X : Extern) (h : Heap) (ref : Ref) (d : list Ref) : bool :=
  existsb (fun x => bool_decide (x = ref) || weakref_eq X h x ref) d.

(** [BaseThread.put] *)
Definition put (X : Extern) (ref : PyArg) (force : bool) : Py State unit unit :=
  match ref with
  | AOther => raise TypeError
  | AWeakref ref =>
      modify (set_interrupt false);;
      if force then
        modify (fun s => set_data_queue (Queue.put ref false (data_queue s)) s)
      else
        let* present := gets (fun s => contains X (heap s) ref (queue (data_queue s))) in
        if negb present then
          modify (fun s => set_data_queue (Queue.put ref false (data_queue s)) s)
        else ret tt
  end.

(** Submissions in a row. *)
Definition puts (X : Extern) (ops : list (Ref * bool)) (s : State) : State :=
  fold_left (fun acc op => snd (call (R':=unit) tt (put X (AWeakref (fst op)) (snd op)) acc)) ops s.
End BaseThread.

(** ** The metadata worker *)

Module InfoWorker.
Section WithExtern.
Variable X : Extern.

(** [l[i]] on a tuple of strings. *)
Definition index (l : list string) (i : nat) : Py State (option Ref) string :=
  match l !! i with
  | Some x => ret x
  | None => raise IndexError
  end.

(** [v[k][u'text'] and not v[k][u'checked']] for one entry; [None] when it
    raises.  The second access is made only when the text is true. *)
Definition note_open (h : Heap) (n : Note) : option bool :=
  match note_text n with
  | None => None
  | Some text =>
      if truthy h text then
        match note_checked n with
        | None => None
        | Some checked => Some (negb (truthy h checked))
        end
      else Some false
  end.

(** [[k for k in v if v[k][u'text'] and not v[k][u'checked']]]: the length
    of the list, or [None] when the condition raises, and the value [k] has
    afterwards.  The comprehension's variable is the function's own [k]
    (Python 2): it names the last entry visited, which is the one at which
    the condition raised if it did. *)
Fixpoint count_open (h : Heap) (notes : list Note) (k : string) (count : Z)
  : option Z * string :=
  match notes with
  | [] => (Some count, k)
  | n :: rest =>
      match note_open h n with
      | None => (None, note_key n)
      | Some b => count_open h rest (note_key n) (if b then count + 1 else count)
      end
  end.

(** The notes block: the count and the value [k] has afterwards.  Whatever
    is raised inside the [try] is logged and leaves the count at 0. *)
Definition count_notes (db : DB) (k : string) : Py State (option Ref) (Z * string) :=
  let v := db_value db k "notes" in
  let* h := gets heap in
  if truthy h v then
    match v with
    | VStr s =>
        match decode_notes X s with
        | Some notes =>
            match count_open h notes k 0 with
            | (Some count, k') => ret (count, k')
            | (None, k') => log_error "Could not read notes";; ret (0, k')
            end
        | None => log_error "Could not read notes";; ret (0, k)
        end
    | _ => log_error "Could not read notes";; ret (0, k)
    end
  else ret (0, k).

(** [ref()[k] += z] *)
Definition iadd_item (r : Ref) (k : Key) (z : Z) : Py State (option Ref) unit :=
  let* o := deref r in
  match o with
  | None => raise TypeError
  | Some d =>
      match d !! k with
      | None => raise KeyError
      | Some v =>
          let* old := as_int v in
          modify (fun s => emit (SetItem r k (VInt (old + z)))
                             (set_heap (<[r := <[k := VInt (old + z)]> d]> (heap s)) s))
      end
  end.

(** [for entry in er: ...] of the sequence branch; gives the final
    [mtime]. *)
Fixpoint sum_entries (r : Ref) (er : list DirEntry) (mtime : Z)
  : Py State (option Ref) Z :=
  match er with
  | [] => ret mtime
  | entry :: rest =>
      let mtime := if st_mtime entry >? mtime then st_mtime entry else mtime in
      return_unless_ref r None;;
      iadd_item r SortBySizeRole (st_size entry);;
      sum_entries r rest mtime
  end.

(** [[int(f) for f in frs]] *)
Fixpoint int_frames (frs : list string) : Py State (option Ref) (list Z) :=
  match frs with
  | [] => ret []
  | f :: rest =>
      match PyStr.int f with
      | None => raise ValueError
      | Some z => let* zs := int_frames rest in ret (z :: zs)
      end
  end.

Definition date_string (mtime : Z) : string :=
  mtime_toString X mtime "dd" +:+ "/" +:+
  mtime_toString X mtime "MM" +:+ "/" +:+
  mtime_toString X mtime "yyyy" +:+ " " +:+
  mtime_toString X mtime "hh" +:+ ":" +:+
  mtime_toString X mtime "mm" +:+ ";".

(** The branch [if ref()[common.TypeRole] == common.SequenceItem]. *)
Definition sequence_item (db : DB) (r : Ref) : Py State (option Ref) unit :=
  return_unless_ref r None;;
  let* frs := bind (getitem r FramesRole) as_strs in
  let* intframes := int_frames frs in
  let* first := index frs 0 in
  let padding := String.length first in
  let rangestring := get_ranges X intframes padding in
  return_unless_ref r None;;
  let* seq := bind (getitem r SequenceRole) as_match in
  let* lo := match py_min intframes with Some z => ret z | None => raise ValueError end in
  let startpath :=
    group1 seq +:+ PyStr.zfill padding (PyStr.unicode lo) +:+
    group3 seq +:+ "." +:+ group4 seq in
  let* hi := match py_max intframes with Some z => ret z | None => raise ValueError end in
  let endpath :=
    group1 seq +:+ PyStr.zfill padding (PyStr.unicode hi) +:+
    group3 seq +:+ "." +:+ group4 seq in
  let seqpath :=
    group1 seq +:+ "[" +:+ rangestring +:+ "]" +:+
    group3 seq +:+ "." +:+ group4 seq in
  let thumb_k :=
    group1 seq +:+ "[0]" +:+ group3 seq +:+ "." +:+ group4 seq in
  let seqname := PyStr.split_last "/" seqpath in
  return_unless_ref r None;;
  setitem r StartpathRole (VStr startpath);;
  return_unless_ref r None;;
  setitem r EndpathRole (VStr endpath);;
  return_unless_ref r None;;
  setitem r StatusTipRole (VStr seqpath);;
  return_unless_ref r None;;
  setitem r ToolTipRole (VStr seqpath);;
  return_unless_ref r None;;
  setitem r DisplayRole (VStr seqname);;
  return_unless_ref r None;;
  setitem r EditRole (VStr seqname);;
  return_unless_ref r None;;
  setitem r ThumbnailPathRole (VStr (db_thumbnail_path db thumb_k));;
  return_unless_ref r None;;
  let* erv := getitem r EntryRole in
  let* h := gets heap in
  if truthy h erv then
    let* er := as_entries erv in
    let* mtime := sum_entries r er 0 in
    return_unless_ref r None;;
    setitem r SortByLastModifiedRole (VInt mtime);;
    return_unless_ref r None;;
    let* size := getitem r SortBySizeRole in
    let info_string :=
      PyStr.unicode (Z.of_nat (length intframes)) +:+ "f;" +:+
      date_string mtime +:+ byte_to_string X size in
    return_unless_ref r None;;
    setitem r FileDetailsRole (VStr info_string)
  else ret tt.

(** The branch [if ref()[common.TypeRole] == common.FileItem]. *)
Definition file_item (db : DB) (r : Ref) : Py State (option Ref) unit :=
  return_unless_ref r None;;
  let* erv := getitem r EntryRole in
  let* h := gets heap in
  (if truthy h erv then
     let* er := as_entries erv in
     let* entry := match er with e :: _ => ret e | [] => raise IndexError end in
     let mtime := st_mtime entry in
     setitem r SortByLastModifiedRole (VInt mtime);;
     setitem r SortBySizeRole (VInt (st_size entry));;
     let* size := getitem r SortBySizeRole in
     let info_string := date_string mtime +:+ byte_to_string X size in
     return_unless_ref r None;;
     setitem r FileDetailsRole (VStr info_string)
   else ret tt);;
  return_unless_ref r None;;
  let* tip := bind (getitem r StatusTipRole) as_str in
  setitem r ThumbnailPathRole (VStr (db_thumbnail_path db tip)).

(** [InfoWorker.process_file_information] *)
Definition process_file_information (r : Ref) : Py State (option Ref) unit :=
  return_unless_ref r None;;
  let* loaded := getitem r FileInfoLoaded in
  let* h := gets heap in
  return_if (truthy h loaded) (Some r);;
  return_unless_ref r None;;
  let* pp := bind (getitem r ParentPathRole) as_strs in
  let* server := index pp 0 in
  let* job := index pp 1 in
  let* root := index pp 2 in
  match get_db X server job root with
  | None => return_ None
  | Some db =>
      return_unless_ref r None;;
      let* o := deref r in
      let* k := match o with
                | Some d => ret (proxy_path X d)
                | None => raise TypeError
                end in
      let v := db_value db k "description" in
      let* h := gets heap in
      (if truthy h v then
         return_unless_ref r None;;
         setitem r DescriptionRole v
       else ret tt);;
      let* (count, k) := count_notes db k in
      return_unless_ref r None;;
      setitem r TodoCountRole (VInt count);;
      return_unless_ref r None;;
      let* flags := bind (getitem r FlagsRole) as_int in
      let flags := Z.lor (Z.lor flags ItemIsEditable) ItemIsDragEnabled in
      let v := db_value db k "flags" in
      let* h := gets heap in
      let* flags := (if truthy h v
                     then let* z := as_int v in ret (Z.lor flags z)
                     else ret flags) in
      return_unless_ref r None;;
      setitem r FlagsRole (VInt flags);;
      return_unless_ref r None;;
      let* t := getitem r TypeRole in
      (if bool_decide (t = VItemType SequenceItem)
       then sequence_item db r else ret tt);;
      return_unless_ref r None;;
      let* t := getitem r TypeRole in
      (if bool_decide (t = VItemType FileItem)
       then file_item db r else ret tt);;
      return_unless_ref r None;;
      setitem r FileInfoLoaded (VBool true);;
      return_unless_ref r None;;
      return_ (Some r)
  end.

(** [InfoWorker.process_data].  The result of
    [process_file_information] is bound to [ref] and then called: calling
    [None] raises. *)
Definition process_data (r : Ref) : Py State (option Ref) unit :=
  return_unless_ref_or_interrupt r None;;
  let* ref := call None (process_file_information r) in
  match ref with
  | None => raise TypeError
  | Some ref =>
      return_unless_ref ref None;;
      return_ (Some ref)
  end.
End WithExtern.
End InfoWorker.

(** ** The thumbnail worker *)

Module ThumbnailWorker.
Section WithExtern.
Variable X : Extern.

(** Which of the local variables [source] and [dest] of
    [process_thumbnail] have been assigned. *)
Record Locals := { source_bound : bool; dest_bound : bool }.

Definition bind_source : Py (State * Locals) (option bool) unit :=
  modify (fun sl => (fst sl, {| source_bound := true; dest_bound := dest_bound (snd sl) |})).
Definition bind_dest : Py (State * Locals) (option bool) unit :=
  modify (fun sl => (fst sl, {| source_bound := source_bound (snd sl); dest_bound := true |})).

(** [cache.invalidate(source, force=True)]: reading a local variable that
    was never assigned raises. *)
Definition invalidate (bound : Locals -> bool) : Py (State * Locals) (option bool) unit :=
  let* b := gets (fun sl => bound (snd sl)) in
  if b then ret tt else raise UnboundLocalError.

Definition generate (source dest : string) : Py State (option bool) bool :=
  modify (emit (MakeThumbnail source dest));;
  match oiio_make_thumbnail X source dest (THUMBNAIL_IMAGE_SIZE X) with
  | GenOk => ret true
  | GenFail => ret false
  | GenRaise => raise GeneratorError
  end.

Definition image_value (i : option Image) : Value :=
  match i with Some i => VImage i | None => VNone end.

(** [ThumbnailWorker.process_thumbnail]; the value is [None] when the body
    falls off its end. *)
Definition process_thumbnail (r : Ref) : Py State (option bool) unit :=
  with_locals {| source_bound := false; dest_bound := false |}
    (try_except_finally
       (lift (return_unless_ref r (Some false));;
        let* source := lift (getitem r StatusTipRole) in
        bind_source;;
        let* source := lift (as_str source) in
        let source := if is_collapsed X source
                      then get_sequence_startpath X source else source in
        lift (return_unless_ref r (Some false));;
        let* dest := lift (getitem r ThumbnailPathRole) in
        bind_dest;;
        return_if (size_ceiling <=? file_size X source) (Some false);;
        let* dest := lift (as_str dest) in
        let* made := lift (generate source dest) in
        return_if (negb made) (Some false);;
        lift (return_unless_ref r (Some false));;
        let* path := lift (bind (getitem r ThumbnailPathRole) as_str) in
        let* height := lift (bind (getitem r SizeHintRole) as_height) in
        let image := ImageCache_get X path height in
        lift (return_unless_ref r (Some false));;
        lift (setitem r ThumbnailRole (image_value image));;
        lift (return_unless_ref r (Some false));;
        return_ (Some true))
       (fun _ =>
          let* alive := lift (ref_true r) in
          (if alive then
             let* default := lift (getitem r DefaultThumbnailRole) in
             lift (setitem r ThumbnailRole default)
           else ret tt);;
          lift (log_error "Failed to generate thumbnail"))
       (let* alive := lift (ref_true r) in
        (if alive then lift (setitem r FileThumbnailLoaded (VBool true))
         else ret tt);;
        invalidate source_bound;;
        invalidate dest_bound)).

(** [while ref() and not ref()[common.FileInfoLoaded]: ...]; [k] is
    [21 - n], so that [n > 20] reads [k = 0]. *)
Fixpoint wait_for_info (k : nat) (r : Ref) : Py State (option Ref) unit :=
  let* alive := ref_true r in
  if negb alive then ret tt
  else
    let* loaded := getitem r FileInfoLoaded in
    let* h := gets heap in
    if truthy h loaded then ret tt
    else
      match k with
      | O => return_ None
      | S k' =>
          return_unless_ref_or_interrupt r None;;
          tick;;                            (* time.sleep(0.1) *)
          wait_for_info k' r
      end.

(** [ThumbnailWorker.process_data] *)
Definition process_data (r : Ref) : Py State (option Ref) unit :=
  return_unless_ref_or_interrupt r None;;
  let* flags := bind (getitem r FlagsRole) as_int in
  return_if (negb (Z.land flags (MarkedAsArchived X) =? 0)) None;;
  wait_for_info 21 r;;
  return_unless_ref_or_interrupt r None;;
  let* loaded := getitem r FileThumbnailLoaded in
  let* h := gets heap in
  return_if (truthy h loaded) None;;
  return_unless_ref_or_interrupt r None;;
  let* thumbnail_path := getitem r ThumbnailPathRole in
  return_unless_ref_or_interrupt r None;;
  let* height := bind (getitem r SizeHintRole) as_height in
  return_unless_ref_or_interrupt r None;;
  let* tip := bind (getitem r StatusTipRole) as_str in
  let ext := PyStr.lower (PyStr.split_last "." tip) in
  let* thumbnail_path := as_str thumbnail_path in
  if file_exists X thumbnail_path then
    match ImageCache_get X thumbnail_path height with
    | None => return_ None
    | Some image =>
        return_unless_ref_or_interrupt r None;;
        setitem r ThumbnailRole (VImage image);;
        return_unless_ref_or_interrupt r None;;
        setitem r FileThumbnailLoaded (VBool true);;
        return_unless_ref_or_interrupt r None;;
        return_ (Some r)
    end
  else
    return_if (negb (PyStr.contains (PyStr.lower ext) (oiio_extensions X))) None;;
    return_unless_ref_or_interrupt r None;;
    setitem r FileThumbnailLoaded (VBool false);;
    let* made := call None (process_thumbnail r) in
    return_if (negb (bool_decide (made = Some true))) None;;
    return_unless_ref_or_interrupt r None;;
    setitem r FileThumbnailLoaded (VBool true);;
    return_unless_ref_or_interrupt r None;;
    return_ (Some r).
End WithExtern.
End ThumbnailWorker.

(** ** The folder-count worker *)

Module TaskFolderWorker.
Section WithExtern.
Variable X : Extern.

(** [[weakref.ref(f) for f in vals]]: only dictionaries can be weakly
    referenced. *)
Fixpoint weakrefs (vals : list Value) : Py State (option Ref) (list Ref) :=
  match vals with
  | [] => ret []
  | VDict r :: rest => let* rs := weakrefs rest in ret (r :: rs)
  | _ :: _ => raise TypeError
  end.

(** [if not ref() or not _ref() or self.interrupt: return None] *)
Definition return_unless_both (r _r : Ref) : Py State (option Ref) unit :=
  let* a := ref_true r in
  if negb a then return_ None
  else
    let* b := ref_true _r in
    if negb b then return_ None
    else let* i := gets interrupt in return_if i None.

(** [for entry in common.walk(...)]: the value of [count] when the loop
    ends, by exhaustion or by [break]. *)
Fixpoint count_entries (r _r : Ref) (entries : list string) (count : Z)
  : Py State (option Ref) Z :=
  match entries with
  | [] => ret count
  | name :: rest =>
      return_unless_both r _r;;
      if PyStr.startswith_dot name then count_entries r _r rest count
      else
        let count := count + 1 in
        if count >? 999 then ret count
        else count_entries r _r rest count
  end.

(** The body of [for _ref in ...]. *)
Definition count_folder (r _r : Ref) : Py State (option Ref) unit :=
  return_unless_ref_or_interrupt r None;;
  let* path := bind (getitem _r StatusTipRole) as_str in
  let* count := count_entries r _r (walk X path) 0 in
  return_unless_both r _r;;
  setitem _r TodoCountRole (VInt count);;
  return_unless_both r _r;;
  emit_dataReady _r.

Fixpoint for_each (r : Ref) (refs : list Ref) : Py State (option Ref) unit :=
  match refs with
  | [] => ret tt
  | _r :: rest => count_folder r _r;; for_each r rest
  end.

(** [ref().values()].  The order in which a Python dictionary hands out its
    values is not known to the model: the order of the list stands for it,
    and the properties below are stated for any order. *)
Definition values (r : Ref) : Py State (option Ref) (list Value) :=
  let* o := deref r in
  match o with
  | None => raise AttributeError
  | Some d => ret (snd <$> map_to_list d)
  end.

(** [TaskFolderWorker.process_data] *)
Definition process_data (r : Ref) : Py State (option Ref) unit :=
  return_unless_ref_or_interrupt r None;;
  let* vals := values r in
  let* refs := weakrefs vals in
  for_each r refs;;
  return_ None.
End WithExtern.
End TaskFolderWorker.

(** ** The bulk metadata worker

    Its step runs on the state of the worker paired with the references
    emitted on its own signal, [modelLoaded]. *)

Module BackgroundInfoWorker.
Section WithExtern.
Variable X : Extern.

(** [self.modelLoaded.emit(ref)] *)
Definition emit_modelLoaded (r : Ref) : Py (State * list Ref) (option Ref) unit :=
  modify (fun sl => (fst sl, snd sl ++ [r])).

(** [item[k]] for a value [item] of the data set.  The loop holds the item
    itself, not a weak reference: there is no liveness check and no point
    of interference.  (Should the other threads of the model have dropped
    it, which Python rules out, the access raises.) *)
Definition item_getitem (item : Value) (k : Key) : Py State (option Ref) Value :=
  match item with
  | VDict x =>
      let* h := gets heap in
      match h !! x with
      | Some d => match d !! k with
                  | Some v => ret v
                  | None => raise KeyError
                  end
      | None => raise TypeError
      end
  | _ => raise TypeError
  end.

(** [weakref.ref(item)] *)
Definition weakref_ref (item : Value) : Py State (option Ref) Ref :=
  match item with
  | VDict x => ret x
  | _ => raise TypeError
  end.

(** [for item in ref().itervalues(): ...]; gives the final [changed]. *)
Fixpoint for_each (r : Ref) (items : list Value) (changed : bool)
  : Py State (option Ref) bool :=
  match items with
  | [] => ret changed
  | item :: rest =>
      return_unless_ref_or_interrupt r None;;
      let* loaded := item_getitem item FileInfoLoaded in
      let* h := gets heap in
      if truthy h loaded then for_each r rest changed
      else
        let* x := weakref_ref item in
        call None (InfoWorker.process_file_information X x);;
        for_each r rest true
  end.

(** [BackgroundInfoWorker.process_data] *)
Definition process_data (r : Ref) : Py (State * list Ref) (option Ref) unit :=
  lift (return_unless_ref_or_interrupt r None);;
  let* items := lift (TaskFolderWorker.values r) in
  let* changed := lift (for_each r items false) in
  lift (return_unless_ref_or_interrupt r None);;
  (if changed then emit_modelLoaded r else ret tt);;
  return_ None.

(** [BackgroundInfoWorker.reset_queue] *)
Definition reset_queue : Py State unit unit :=
  modify (set_interrupt true).
End WithExtern.
End BackgroundInfoWorker.

(** ** The progress label *)

Module ThreadMonitor.
(** [ThreadMonitor.text]; a registered thread is given by its worker, or
    [None] when it has none. *)
Definition text (threads : list (option State)) : string :=
  let l := fold_left
             (fun l thread =>
                match thread with
                | None => l
                | Some worker => l + Z.of_nat (length (queue (data_queue worker)))
                end) threads 0 in
  if l =? 0 then "" else "Loading... (" +:+ PyStr.unicode l +:+ " left)".
End ThreadMonitor.

(** ** The label of a data key

    [DataKeyViewDelegate.paint_name] of [datakeywidget.py] shows the count
    the folder-count worker has stored. *)

Module DataKeyViewDelegate.
(** The text [paint_name] appends for a count ([index.data(TodoCountRole)]). *)
Definition count_text (count : Z) : string :=
  if negb (count =? 0) then
    if 999 <=? count then "999+ items"
    else PyStr.unicode count +:+ " items"
  else "n/a".
End DataKeyViewDelegate.

(** ** Concrete collaborators and records, for examples *)

Module Demo.
Definition db : DB :=
  {| db_value := fun _ _ => VNone;
     db_thumbnail_path := fun k => "/cache/" +:+ k +:+ ".png" |}.

Definition X : Extern :=
  {| DataDict_eq := fun a b => bool_decide (a = b);
     get_db := fun _ _ _ => Some db;
     decode_notes := fun _ => None;
     proxy_path := fun d => match d !! StatusTipRole with
                            | Some (VStr p) => p
                            | _ => ""
                            end;
     get_ranges := fun _ _ => "1-3,5";
     mtime_toString := fun _ fmt => fmt;
     byte_to_string := fun _ => "12MB";
     is_collapsed := fun _ => false;
     get_sequence_startpath := fun p => p;
     walk := fun p => if bool_decide (p = "/job/big") then replicate 1000 "a"
                      else [".git"; "a"; "b"];
     MarkedAsArchived := 64;
     THUMBNAIL_IMAGE_SIZE := 512;
     file_exists := fun _ => false;
     file_size := fun _ => size_ceiling;
     ImageCache_get := fun _ _ => Some 9%nat;
     oiio_make_thumbnail := fun _ _ _ => GenOk;
     oiio_extensions := ["exr"; "png"] |}.

(** A worker that is not interrupted, with the given references queued
    (the next one to be handed out last) and the given store; no other
    thread interferes. *)
Definition state (q : list Ref) (h : Heap) : State :=
  {| interrupt := false;
     data_queue := {| queue := q; unfinished_tasks := Z.of_nat (length q) |};
     heap := h; env := []; trace := [] |}.

(** A record whose information has been loaded. *)
Definition loaded : DataDict :=
  {[ FileInfoLoaded := VBool true ]}.

(** A record without the [FileInfoLoaded] key. *)
Definition malformed : DataDict :=
  {[ DisplayRole := VStr "a" ]}.
(** A folder record with one sub-record, whose tree has 1000 entries. *)
Definition big_folder : Heap :=
  {[ 1%nat := {[ Idx 0 := VDict 2%nat ]};
     2%nat := {[ StatusTipRole := VStr "/job/big" ]} ]}.
(** The same collaborators, with every thumbnail already in the cache. *)
Definition X_cached : Extern :=
  {| DataDict_eq := DataDict_eq X; get_db := get_db X;
     decode_notes := decode_notes X; proxy_path := proxy_path X;
     get_ranges := get_ranges X; mtime_toString := mtime_toString X;
     byte_to_string := byte_to_string X; is_collapsed := is_collapsed X;
     get_sequence_startpath := get_sequence_startpath X; walk := walk X;
     MarkedAsArchived := MarkedAsArchived X;
     THUMBNAIL_IMAGE_SIZE := THUMBNAIL_IMAGE_SIZE X;
     file_exists := fun _ => true;
     file_size := file_size X; ImageCache_get := ImageCache_get X;
     oiio_make_thumbnail := oiio_make_thumbnail X;
     oiio_extensions := oiio_extensions X |}.

(** A record whose information is loaded and whose thumbnail is not; its
    source is at the ceiling ([file_size X] is [size_ceiling] everywhere).
    Image 7 is its default thumbnail, image 3 the one it shows. *)
Definition oversized_record : DataDict :=
  {[ FlagsRole := VInt 0;
     FileInfoLoaded := VBool true;
     FileThumbnailLoaded := VBool false;
     ThumbnailPathRole := VStr "/cache/a.png";
     SizeHintRole := VSize 54;
     StatusTipRole := VStr "/job/a.exr";
     DefaultThumbnailRole := VImage 7%nat;
     ThumbnailRole := VImage 3%nat ]}.
(** A sequence record for the frames 1, 2, 3 and 5 of [/job/shot_####.exr],
    not loaded yet. *)
Definition shot : SeqMatch :=
  {| group1 := "/job/shot_"; group3 := ""; group4 := "exr" |}.

Definition sequence_record : DataDict :=
  {[ FileInfoLoaded := VBool false;
     ParentPathRole := VStrs ["//server"; "job"; "root"];
     FlagsRole := VInt 1;
     TypeRole := VItemType SequenceItem;
     FramesRole := VStrs ["0001"; "0002"; "0003"; "0005"];
     SequenceRole := VMatch shot;
     EntryRole := VEntries [ {| entry_name := "shot_0001.exr"; st_mtime := 100; st_size := 10 |};
                             {| entry_name := "shot_0002.exr"; st_mtime := 300; st_size := 20 |};
                             {| entry_name := "shot_0003.exr"; st_mtime := 200; st_size := 30 |};
                             {| entry_name := "shot_0005.exr"; st_mtime := 250; st_size := 40 |} ];
     SortBySizeRole := VInt 0;
     StatusTipRole := VStr "/job/shot_[1-3,5].exr" ]}.

(** The same collaborators, with every source file one kilobyte long and a
    generator that answers [gen]. *)
Definition X_small (gen : GenResult) : Extern :=
  {| DataDict_eq := DataDict_eq X; get_db := get_db X;
     decode_notes := decode_notes X; proxy_path := proxy_path X;
     get_ranges := get_ranges X; mtime_toString := mtime_toString X;
     byte_to_string := byte_to_string X; is_collapsed := is_collapsed X;
     get_sequence_startpath := get_sequence_startpath X; walk := walk X;
     MarkedAsArchived := MarkedAsArchived X;
     THUMBNAIL_IMAGE_SIZE := THUMBNAIL_IMAGE_SIZE X;
     file_exists := file_exists X;
     file_size := fun _ => 1024; ImageCache_get := ImageCache_get X;
     oiio_make_thumbnail := fun _ _ _ => gen;
     oiio_extensions := oiio_extensions X |}.

(** A sidecar store that holds the note string [raw] for [/job/a.exr] and
    the flags 64 (archived) under the key [flag_key]. *)
Definition db_notes (raw flag_key : string) : DB :=
  {| db_value := fun k field =>
       if bool_decide (field = "notes") then
         if bool_decide (k = "/job/a.exr") then VStr raw else VNone
       else if bool_decide (field = "flags") then
         if bool_decide (k = flag_key) then VInt 64 else VNone
       else VNone;
     db_thumbnail_path := db_thumbnail_path db |}.

(** Three note strings and what they decode to: two well-formed notes
    ([{"n1": {"text": "call the client", "checked": false},
       "n2": {"text": "render", "checked": true}}]), one entry without a
    text ([{"n1": {}}]), and a string that is not the encoding of
    anything. *)
Definition raw_two_notes : string :=
  "eyJuMSI6IHsidGV4dCI6ICJjYWxsIHRoZSBjbGllbnQiLCAiY2hlY2tlZCI6IGZhbHNlfSwgIm4yIjogeyJ0ZXh0IjogInJlbmRlciIsICJjaGVja2VkIjogdHJ1ZX19".
Definition raw_empty_note : string := "eyJuMSI6IHt9fQ==".
Definition raw_garbled : string := "%".

Definition two_notes : list Note :=
  [ {| note_key := "n1"; note_text := Some (VStr "call the client");
       note_checked := Some (VBool false) |};
    {| note_key := "n2"; note_text := Some (VStr "render");
       note_checked := Some (VBool true) |} ].

Definition empty_note : list Note :=
  [ {| note_key := "n1"; note_text := None; note_checked := None |} ].

Definition decode (raw : string) : option (list Note) :=
  if bool_decide (raw = raw_two_notes) then Some two_notes
  else if bool_decide (raw = raw_empty_note) then Some empty_note
  else None.

(** The same collaborators, with the given sidecar store (or none) and the
    given decoder of notes. *)
Definition X_store (store : option DB) (decode : string -> option (list Note)) : Extern :=
  {| DataDict_eq := DataDict_eq X; get_db := fun _ _ _ => store;
     decode_notes := decode; proxy_path := proxy_path X;
     get_ranges := get_ranges X; mtime_toString := mtime_toString X;
     byte_to_string := byte_to_string X; is_collapsed := is_collapsed X;
     get_sequence_startpath := get_sequence_startpath X; walk := walk X;
     MarkedAsArchived := MarkedAsArchived X;
     THUMBNAIL_IMAGE_SIZE := THUMBNAIL_IMAGE_SIZE X;
     file_exists := file_exists X;
     file_size := file_size X; ImageCache_get := ImageCache_get X;
     oiio_make_thumbnail := oiio_make_thumbnail X;
     oiio_extensions := oiio_extensions X |}.

(** A record as the models build it (its thumbnail is its default
    thumbnail, image 7), once its information has been loaded; its source
    is at the ceiling ([file_size X] is [size_ceiling] everywhere). *)
Definition built_record (tip : string) : DataDict :=
  {[ FlagsRole := VInt 0;
     FileInfoLoaded := VBool true;
     FileThumbnailLoaded := VBool false;
     ThumbnailPathRole := VStr "/cache/a.png";
     SizeHintRole := VSize 54;
     StatusTipRole := VStr tip;
     DefaultThumbnailRole := VImage 7%nat;
     ThumbnailRole := VImage 7%nat ]}.

(** A file record that is not loaded yet. *)
Definition file_record : DataDict :=
  {[ FileInfoLoaded := VBool false;
     ParentPathRole := VStrs ["//server"; "job"; "root"];
     FlagsRole := VInt 1;
     TypeRole := VItemType FileItem;
     EntryRole := VEntries [ {| entry_name := "a.exr"; st_mtime := 100; st_size := 10 |} ];
     StatusTipRole := VStr "/job/a.exr" ]}.
End Demo.

(** ** Vocabulary of the properties *)

(** Position of the first occurrence of an item in a dequeue order, and
    "[x] is handed out before [y]". *)
Fixpoint position (x : Ref) (l : list Ref) : option nat :=
  match l with
  | [] => None
  | y :: rest => if bool_decide (y = x) then Some O else S <$> position x rest
  end.

Definition dequeued_before (x y : Ref) (l : list Ref) : bool :=
  match position x l, position y l with
  | Some i, Some j => Nat.ltb i j
  | _, _ => false
  end.

(** The state once the other threads have taken their next step. *)
Definition after_tick (s : State) : State :=
  match env s with
  | [] => s
  | acts :: rest => set_env rest (set_heap (env_acts acts (heap s)) s)
  end.

(** The record a thread's action is about. *)
Definition target (a : EnvAct) : Ref :=
  match a with Discard r => r | Store r _ _ => r end.

(** The other threads leave record [r] alone from now on. *)
Definition untouched (r : Ref) (e : list (list EnvAct)) : Prop :=
  Forall (Forall (fun a => target a <> r)) e.

(** How often the thumbnail generator has been invoked. *)
Definition is_MakeThumbnail (ev : Event) : bool :=
  match ev with MakeThumbnail _ _ => true | _ => false end.
Definition generator_calls (t : list Event) : nat :=
  length (filter (fun ev => is_MakeThumbnail ev = true) t).

(** [ref()[k] = v] carried out on a record [d] that is there. *)
Definition write (r : Ref) (k : Key) (v : Value) (d : DataDict) (s : State) : State :=
  emit (SetItem r k v) (set_heap (<[r := <[k := v]> d]> (heap s)) s).

(** The record [d] behind [r] is there, is not empty, and nobody else
    touches the store. *)
Definition Live (s : State) (r : Ref) (d : DataDict) : Prop :=
  env s = [] /\ heap s !! r = Some d /\ d <> ∅.

(** The entries of a walk that are not hidden, and the count the
    folder-count worker arrives at for a path. *)
Definition visible_entries (names : list string) : nat :=
  length (filter (fun n => PyStr.startswith_dot n = false) names).

Definition folder_count (X : Extern) (path : string) : Z :=
  Z.min (Z.of_nat (visible_entries (walk X path))) 1000.

(** Some record is behind [r]. *)
Definition Alive (s : State) (r : Ref) : Prop := exists d, Live s r d.

(** A record with a path is behind [r]. *)
Definition Folder (s : State) (r : Ref) (path : string) : Prop :=
  exists d, Live s r d /\ d !! StatusTipRole = Some (VStr path).

(** What the folder-count worker does for one sub-record. *)
Definition count_done (x : Ref) (c : Z) (s : State) : State :=
  match heap s !! x with
  | Some d => emit (DataReady x) (write x TodoCountRole (VInt c) d s)
  | None => s
  end.

Definition counts_done (cnt : Ref -> Z) (refs : list Ref) (s : State) : State :=
  fold_left (fun acc x => count_done x (cnt x) acc) refs s.

(** The file the thumbnail of a record is made from, and "it is at or above
    the size ceiling". *)
Definition source_of (X : Extern) (tip : string) : string :=
  if is_collapsed X tip then get_sequence_startpath X tip else tip.

Definition oversized (X : Extern) (tip : string) : Prop :=
  size_ceiling <= file_size X (source_of X tip).

(** What holds all along a step on a record [r] whose source is oversized
    and which the other threads leave alone: its path stays oversized, and
    the generator has been invoked [n] times, no more. *)
Definition Inv (X : Extern) (r : Ref) (n : nat) (s : State) : Prop :=
  untouched r (env s)
  /\ (forall d tip, heap s !! r = Some d ->
        d !! StatusTipRole = Some (VStr tip) -> oversized X tip)
  /\ generator_calls (trace s) = n.

(** [m] keeps [I], and the values it falls through with satisfy [Q]. *)
Definition keeps {Σ R A} (I : Σ -> Prop) (m : Py Σ R A) (Q : A -> Prop) : Prop :=
  forall s, I s -> I (snd (m s)) /\ forall a, fst (m s) = Val a -> Q a.

(** [d1] has the fields of [d], but for the keys [ks]. *)
Definition agree_off (ks : list Key) (d d1 : DataDict) : Prop :=
  forall k, ~ In k ks -> d1 !! k = d !! k.

(** The size and the latest modification time of a list of entries, as the
    sequence branch of the metadata worker accumulates them. *)
Definition total_size (er : list DirEntry) : Z :=
  fold_right (fun e acc => st_size e + acc) 0 er.

Definition latest (er : list DirEntry) (m0 : Z) : Z :=
  fold_left (fun m e => if st_mtime e >? m then st_mtime e else m) er m0.

(** What the sidecar store may hold as flags: nothing, or an integer. *)
Definition flags_value (v : Value) : Prop := v = VNone \/ exists z, v = VInt z.

(** A run of writes on the record behind [r], and the record it gives. *)
Fixpoint inserts (kvs : list (Key * Value)) (d : DataDict) : DataDict :=
  match kvs with
  | [] => d
  | (k, v) :: rest => inserts rest (<[k := v]> d)
  end.

Fixpoint writes (r : Ref) (kvs : list (Key * Value)) (d : DataDict) (s : State) : State :=
  match kvs with
  | [] => s
  | (k, v) :: rest => writes r rest (<[k := v]> d) (write r k v d s)
  end.

(** The names the sequence branch of the metadata worker derives from the
    match [seq], the frame strings of the range and the path of the
    thumbnail. *)
Definition sequence_names (seq : SeqMatch) (first last rangestring thumbnail : string)
  : list (Key * Value) :=
  let tail := group3 seq +:+ "." +:+ group4 seq in
  let seqpath := group1 seq +:+ "[" +:+ rangestring +:+ "]" +:+ tail in
  [ (StartpathRole, VStr (group1 seq +:+ first +:+ tail));
    (EndpathRole, VStr (group1 seq +:+ last +:+ tail));
    (StatusTipRole, VStr seqpath);
    (ToolTipRole, VStr seqpath);
    (DisplayRole, VStr (PyStr.split_last "/" seqpath));
    (EditRole, VStr (PyStr.split_last "/" seqpath));
    (ThumbnailPathRole, VStr thumbnail) ].

(** The frame strings of the example: frames 1, 2, 3 and 5, padded to four
    digits. *)
Definition frames_1235 : list string := ["0001"; "0002"; "0003"; "0005"].

(** The queue has not handed out more tasks than it was given: every queued
    item is counted in [unfinished_tasks]. *)
Definition Accounted (q : UniqueQueue) : Prop :=
  Z.of_nat (length (queue q)) <= unfinished_tasks q.

(** [n] activations in a row. *)
Definition activations (func : Ref -> Py State (option Ref) unit) (n : nat) (s : State)
  : State :=
  Nat.iter n (fun s => snd (activate func s)) s.

(** The references waiting in the queues of the registered threads. *)
Definition pending (threads : list (option State)) : nat :=
  sum_list (map (fun thread => match thread with
                               | None => O
                               | Some worker => length (queue (data_queue worker))
                               end) threads).

(** The record [d] behind [r] is due for a thumbnail: it is there and left
    alone, the worker is not interrupted, the record is not archived, its
    information is loaded and its thumbnail is not; [tip] is its path,
    [tpath] the path of its cached thumbnail and [h] the height of its
    row. *)
Definition Ready (X : Extern) (s : State) (r : Ref) (d : DataDict)
    (tip tpath : string) (h : Z) : Prop :=
  Live s r d /\ interrupt s = false
  /\ (exists z, d !! FlagsRole = Some (VInt z) /\ Z.land z (MarkedAsArchived X) = 0)
  /\ (exists v, d !! FileInfoLoaded = Some v /\ truthy (heap s) v = true)
  /\ (exists v, d !! FileThumbnailLoaded = Some v /\ truthy (heap s) v = false)
  /\ d !! ThumbnailPathRole = Some (VStr tpath)
  /\ d !! SizeHintRole = Some (VSize h)
  /\ d !! StatusTipRole = Some (VStr tip).

(** The extension the thumbnail worker looks up. *)
Definition extension (tip : string) : string :=
  PyStr.lower (PyStr.lower (PyStr.split_last "." tip)).

(** What the file branch of the metadata worker writes for a file with the
    first entry [e] and the path [tip], in the order it writes it. *)
Definition file_details (X : Extern) (db : DB) (e : DirEntry) (tip : string)
  : list (Key * Value) :=
  [ (SortByLastModifiedRole, VInt (st_mtime e));
    (SortBySizeRole, VInt (st_size e));
    (FileDetailsRole, VStr (InfoWorker.date_string X (st_mtime e)
                            +:+ byte_to_string X (VInt (st_size e))));
    (ThumbnailPathRole, VStr (db_thumbnail_path db tip)) ].

(** The record [d] behind [r] is a file record that is not loaded yet, with
    its parent path, flags, at least one file entry and its path; its
    sidecar store [db] is there and holds integer flags or none; the worker
    is not interrupted and no other thread interferes. *)
Definition Unloaded_file (X : Extern) (db : DB) (s : State) (r : Ref) (d : DataDict)
    (loaded : Value) (server job root : string) (more : list string)
    (f : Z) (e : DirEntry) (er : list DirEntry) (tip : string) : Prop :=
  env s = [] /\ interrupt s = false
  /\ heap s !! r = Some d
  /\ d !! FileInfoLoaded = Some loaded /\ truthy (heap s) loaded = false
  /\ d !! ParentPathRole = Some (VStrs (server :: job :: root :: more))
  /\ get_db X server job root = Some db
  /\ (forall k, flags_value (db_value db k "flags"))
  /\ d !! FlagsRole = Some (VInt f)
  /\ d !! TypeRole = Some (VItemType FileItem)
  /\ d !! EntryRole = Some (VEntries (e :: er))
  /\ d !! StatusTipRole = Some (VStr tip).

(** Whenever [m] returns, what it returns and the state it leaves satisfy
    [P]. *)
Definition rets {Σ R A} (m : Py Σ R A) (P : R -> Σ -> Prop) : Prop :=
  forall s v s', m s = (Ret v, s') -> P v s'.

(** What a step may return: nothing; nothing or [r]; nothing, or [r] with
    the mark [FileThumbnailLoaded = True] on [r] as the last thing the
    worker wrote or emitted. *)
Definition Nothing {Σ} (v : option Ref) (s : Σ) : Prop := v = None.

Definition Same (r : Ref) (v : option Ref) (s : State) : Prop :=
  v = None \/ v = Some r.

Definition Marked (r : Ref) (v : option Ref) (s : State) : Prop :=
  v = None
  \/ (v = Some r /\ last (trace s) = Some (SetItem r FileThumbnailLoaded (VBool true))).

(** A note with a text and a mark: the condition of the comprehension does
    not raise on it. *)
Definition complete (n : Note) : Prop :=
  is_Some (note_text n) /\ is_Some (note_checked n).

(** The flags the metadata worker starts from for a record with the flags
    [f]. *)
Definition base_flags (f : Z) : Z :=
  Z.lor (Z.lor f ItemIsEditable) ItemIsDragEnabled.

(** * Properties *)

(** ** The order of the queue *)

Lemma pop_snoc (d : list Ref) (x : Ref) : Deque.pop (d ++ [x]) = Some (x, d).
Proof.
  induction d as [|y d IH]; [reflexivity|].
  change ((y :: d) ++ [x]) with (y :: (d ++ [x])).
  cbn [Deque.pop]. rewrite IH.
  destruct (d ++ [x]) eqn:E; [|reflexivity].
  destruct d; discriminate.
Qed.

Lemma get_snoc (d : list Ref) (x : Ref) (n : Z) :
  Queue.get {| queue := d ++ [x]; unfinished_tasks := n |}
  = inr (x, {| queue := d; unfinished_tasks := n |}).
Proof.
  unfold Queue.get, Queue._qsize, Queue._get. cbn [queue unfinished_tasks].
  rewrite length_app, pop_snoc. cbn [length].
  replace (length d + 1)%nat with (S (length d)) by lia. reflexivity.
Qed.

Lemma get_empty (n : Z) :
  Queue.get {| queue := []; unfinished_tasks := n |} = inl QueueEmpty.
Proof. reflexivity. Qed.

Lemma drain_fuel_rev (d : list Ref) (n : Z) :
  Queue.drain_fuel (length d) {| queue := d; unfinished_tasks := n |} = rev d.
Proof.
  induction d as [|x d IH] using rev_ind; [reflexivity|].
  rewrite length_app, rev_app_distr. cbn [length rev app].
  replace (length d + 1)%nat with (S (length d)) by lia.
  cbn [Queue.drain_fuel]. rewrite get_snoc, IH. reflexivity.
Qed.

Lemma drain_rev (q : UniqueQueue) : Queue.drain q = rev (queue q).
Proof. destruct q as [d n]. apply drain_fuel_rev. Qed.

Lemma queue_put (x : Ref) (force : bool) (q : UniqueQueue) :
  queue (Queue.put x force q) = if force then queue q ++ [x] else x :: queue q.
Proof. destruct force; reflexivity. Qed.

Lemma queue_submit (ops : list (Ref * bool)) (q : UniqueQueue) :
  queue (Queue.submit ops q) = rev (Queue.normal ops) ++ queue q ++ Queue.forced ops.
Proof.
  revert q. induction ops as [|[x f] ops IH]; intros q.
  - cbn. by rewrite app_nil_r.
  - change (Queue.submit ((x, f) :: ops) q) with (Queue.submit ops (Queue.put x f q)).
    rewrite IH, queue_put. unfold Queue.normal, Queue.forced.
    rewrite !filter_cons.
    destruct f; cbn [snd]; repeat case_decide; try congruence;
      cbn [map fst rev]; by rewrite <- ?app_assoc.
Qed.

(** C1, as stated, has a forced submission dequeued after the forced
    submissions made before it.  Two forced submissions, 1 then 2: item 2 is
    handed out first. *)
Lemma C1_forced_after_earlier_forced_fails :
  let q := Queue.submit [(1%nat, true); (2%nat, true)] Queue._init in
  Queue.drain q = [2%nat; 1%nat] /\ dequeued_before 1%nat 2%nat (Queue.drain q) = false.
Proof. split; reflexivity. Qed.

(** C1 (amended): after any interleaving of normal and forced submissions
    with no dequeue in between, the items are handed out as follows: the
    forced submissions, latest first; then what was queued before; then the
    normal submissions, earliest first.  In particular a forced submission is
    the very next item handed out: before every queued normal item and before
    every forced item submitted earlier. *)
Theorem C1_dequeue_order (ops : list (Ref * bool)) (q : UniqueQueue) :
  Queue.drain (Queue.submit ops q)
    = rev (Queue.forced ops) ++ Queue.drain q ++ Queue.normal ops
  /\ Queue.drain (Queue.submit ops Queue._init)
    = rev (Queue.forced ops) ++ Queue.normal ops
  /\ (forall x, Queue.drain (Queue.put x true (Queue.submit ops q))
                = x :: Queue.drain (Queue.submit ops q))
  /\ (forall x, Queue.drain (Queue.put x false (Queue.submit ops q))
                = Queue.drain (Queue.submit ops q) ++ [x]).
Proof.
  assert (G : forall q0, Queue.drain (Queue.submit ops q0)
                = rev (Queue.forced ops) ++ Queue.drain q0 ++ Queue.normal ops).
  { intros q0. rewrite !drain_rev, queue_submit, !rev_app_distr, rev_involutive.
    by rewrite <- app_assoc. }
  split; [apply G|]. split.
  - rewrite G. reflexivity.
  - split; intros x; rewrite !drain_rev, queue_put.
    + by rewrite rev_app_distr.
    + reflexivity.
Qed.

(** ** The thread controller's [put] *)

Lemma contains_In (X : Extern) (h : Heap) (r : Ref) (d : list Ref) :
  In r d -> BaseThread.contains X h r d = true.
Proof.
  intros Hin. unfold BaseThread.contains. apply existsb_exists.
  exists r. split; [done|]. by rewrite bool_decide_eq_true_2.
Qed.

Lemma contains_false_not_In (X : Extern) (h : Heap) (r : Ref) (d : list Ref) :
  BaseThread.contains X h r d = false -> ~ In r d.
Proof.
  intros Hc Hin. by rewrite (contains_In X h r d Hin) in Hc.
Qed.

Lemma put_force_state (X : Extern) (r : Ref) (s : State) :
  BaseThread.put X (AWeakref r) true s
  = (Val tt, set_data_queue (Queue.put r false (data_queue s)) (set_interrupt false s)).
Proof. reflexivity. Qed.

Lemma put_normal_state (X : Extern) (r : Ref) (s : State) :
  BaseThread.put X (AWeakref r) false s
  = if BaseThread.contains X (heap s) r (queue (data_queue s))
    then (Val tt, set_interrupt false s)
    else (Val tt, set_data_queue (Queue.put r false (data_queue s)) (set_interrupt false s)).
Proof.
  unfold BaseThread.put, bind, modify, gets. cbn [set_interrupt heap data_queue].
  by destruct (BaseThread.contains _ _ _ _).
Qed.

(** C2: [BaseThread.put(ref, force=True)] calls the queue's [put] without
    the [force] argument: the reference is added with [appendleft], it is
    handed out after everything already queued, and against a submission
    without [force] the only difference is that the membership test is
    skipped. *)
Theorem C2_controller_force_not_forwarded (X : Extern) (r : Ref) (s : State) :
  let s' := snd (call (R':=unit) tt (BaseThread.put X (AWeakref r) true) s) in
  data_queue s' = Queue.put r false (data_queue s)
  /\ queue (data_queue s') = Deque.appendleft r (queue (data_queue s))
  /\ Queue.drain (data_queue s') = Queue.drain (data_queue s) ++ [r]
  /\ BaseThread.put X (AWeakref r) false s
     = if BaseThread.contains X (heap s) r (queue (data_queue s))
       then (Val tt, set_interrupt false s)
       else BaseThread.put X (AWeakref r) true s.
Proof.
  unfold call. rewrite put_force_state. cbn [snd set_data_queue data_queue].
  repeat split.
  - by rewrite !drain_rev.
  - apply put_normal_state.
Qed.

Lemma puts_cons (X : Extern) (x : Ref) (f : bool) ops (s : State) :
  BaseThread.puts X ((x, f) :: ops) s
  = BaseThread.puts X ops (snd (call (R':=unit) tt (BaseThread.put X (AWeakref x) f) s)).
Proof. reflexivity. Qed.

Lemma put_queue (X : Extern) (x : Ref) (f : bool) (s : State) :
  queue (data_queue (snd (call (R':=unit) tt (BaseThread.put X (AWeakref x) f) s)))
  = if f then x :: queue (data_queue s)
    else if BaseThread.contains X (heap s) x (queue (data_queue s))
         then queue (data_queue s) else x :: queue (data_queue s).
Proof.
  unfold call. destruct f.
  - by rewrite put_force_state.
  - rewrite put_normal_state. by destruct (BaseThread.contains _ _ _ _).
Qed.

Lemma put_heap (X : Extern) (x : Ref) (f : bool) (s : State) :
  heap (snd (call (R':=unit) tt (BaseThread.put X (AWeakref x) f) s)) = heap s.
Proof.
  unfold call. destruct f.
  - by rewrite put_force_state.
  - rewrite put_normal_state. by destruct (BaseThread.contains _ _ _ _).
Qed.

Lemma count_occ_rev (l : list Ref) (r : Ref) :
  count_occ Nat.eq_dec (rev l) r = count_occ Nat.eq_dec l r.
Proof.
  induction l as [|y l IH]; [done|].
  cbn [rev]. rewrite count_occ_app. rewrite IH. cbn [count_occ].
  destruct (Nat.eq_dec y r); lia.
Qed.

Lemma puts_keep_single (X : Extern) (r : Ref) ops : forall s,
  (forall op, In op ops -> fst op = r -> snd op = false) ->
  count_occ Nat.eq_dec (queue (data_queue s)) r = 1%nat ->
  count_occ Nat.eq_dec (queue (data_queue (BaseThread.puts X ops s))) r = 1%nat.
Proof.
  induction ops as [|[x f] ops IH]; intros s Hops Hc; [exact Hc|].
  rewrite puts_cons. apply IH.
  - intros op Hin. apply Hops. by right.
  - rewrite put_queue.
    destruct (decide (x = r)) as [->|Hne].
    + assert (f = false) as -> by (apply (Hops (r, f)); [by left|done]).
      rewrite contains_In; [done|].
      apply (count_occ_In Nat.eq_dec). lia.
    + assert (count_occ Nat.eq_dec (x :: queue (data_queue s)) r = 1%nat)
        by (rewrite count_occ_cons_neq; done).
      destruct f; [done|]. by destruct (BaseThread.contains _ _ _ _).
Qed.

(** C3: a reference that is not queued yet and is submitted twice without
    [force] through the controller, with any other submissions in between
    and none handed out, is in the queue once, and the queue hands it out
    once: the second submission finds it in the queue and drops it. *)
Theorem C3_submitted_twice_queued_once
    (X : Extern) (r : Ref) (ops : list (Ref * bool)) (s : State) :
  BaseThread.contains X (heap s) r (queue (data_queue s)) = false ->
  (forall op, In op ops -> fst op = r -> snd op = false) ->
  let s1 := BaseThread.puts X ((r, false) :: ops) s in
  let s2 := snd (call (R':=unit) tt (BaseThread.put X (AWeakref r) false) s1) in
  count_occ Nat.eq_dec (queue (data_queue s1)) r = 1%nat
  /\ data_queue s2 = data_queue s1
  /\ count_occ Nat.eq_dec (queue (data_queue s2)) r = 1%nat
  /\ count_occ Nat.eq_dec (Queue.drain (data_queue s2)) r = 1%nat.
Proof.
  intros Hfresh Hops s1 s2.
  assert (H1 : count_occ Nat.eq_dec (queue (data_queue s1)) r = 1%nat).
  { subst s1. rewrite puts_cons. apply puts_keep_single; [done|].
    rewrite put_queue, Hfresh. rewrite count_occ_cons_eq by done.
    f_equal. apply (count_occ_not_In Nat.eq_dec).
    by apply (contains_false_not_In X (heap s)). }
  assert (H2 : data_queue s2 = data_queue s1).
  { subst s2. unfold call. rewrite put_normal_state.
    rewrite contains_In; [done|]. apply (count_occ_In Nat.eq_dec). lia. }
  repeat split; [done|done|by rewrite H2|].
  by rewrite H2, drain_rev, count_occ_rev.
Qed.

(** Two submissions of reference 5 to an empty queue, a forced submission of
    reference 6 in between. *)
Lemma C3_submitted_twice_queued_once_witness :
  let s := Demo.state [] ∅ in
  let s1 := BaseThread.puts Demo.X [(5%nat, false); (6%nat, true)] s in
  let s2 := snd (call (R':=unit) tt (BaseThread.put Demo.X (AWeakref 5%nat) false) s1) in
  count_occ Nat.eq_dec (queue (data_queue s1)) 5%nat = 1%nat
  /\ data_queue s2 = data_queue s1
  /\ count_occ Nat.eq_dec (queue (data_queue s2)) 5%nat = 1%nat
  /\ count_occ Nat.eq_dec (Queue.drain (data_queue s2)) 5%nat = 1%nat.
Proof.
  intros s.
  apply (C3_submitted_twice_queued_once Demo.X 5%nat [(6%nat, true)] s).
  - reflexivity.
  - intros op [<-|[]]. cbn. discriminate.
Defined.

(** ** One activation *)

Lemma queue_get_eq {R} (s : State) :
  queue_get (R:=R) s
  = match Queue.get (data_queue s) with
    | inl e => (Exc e, s)
    | inr (ref, q) => (Val ref, set_data_queue q s)
    end.
Proof.
  unfold queue_get, bind, gets, modify, raise, ret.
  by destruct (Queue.get (data_queue s)) as [e|[ref q]].
Qed.

Lemma queue_task_done_eq {R} (s : State) :
  queue_task_done (R:=R) s
  = match Queue.task_done (data_queue s) with
    | inl e => (Exc e, s)
    | inr q => (Val tt, set_data_queue q s)
    end.
Proof.
  unfold queue_task_done, bind, gets, modify, raise.
  by destruct (Queue.task_done (data_queue s)).
Qed.

Lemma activate_empty func (s : State) (e : exn) :
  Queue.get (data_queue s) = inl e ->
  activate func s
  = (Val tt, set_interrupt false
               (match e with
                | QueueEmpty => s
                | _ => emit (LogError "Failed whilst processing data") s
                end)).
Proof.
  intros Hg. unfold activate, call, process, try_except_finally, bind.
  rewrite queue_get_eq, Hg. by destruct e.
Qed.

Lemma activate_raise func (s : State) (r : Ref) q' (e : exn) (s1 : State) :
  Queue.get (data_queue s) = inr (r, q') ->
  call (R':=unit) None (func r) (set_data_queue q' s) = (Exc e, s1) ->
  activate func s
  = (Val tt, set_interrupt false
               (match e with
                | QueueEmpty => s1
                | _ => emit (LogError "Failed whilst processing data") s1
                end)).
Proof.
  intros Hg Hf.
  unfold activate, call at 1, process, try_except_finally, bind.
  rewrite queue_get_eq, Hg, Hf. by destruct e.
Qed.

Lemma activate_none func (s : State) (r : Ref) q' (s1 : State) :
  Queue.get (data_queue s) = inr (r, q') ->
  call (R':=unit) None (func r) (set_data_queue q' s) = (Val None, s1) ->
  activate func s = (Val tt, set_interrupt false s1).
Proof.
  intros Hg Hf.
  unfold activate, call at 1, process, try_except_finally, bind.
  by rewrite queue_get_eq, Hg, Hf.
Qed.

Lemma activate_some func (s : State) (r : Ref) q' (res : Ref) (s1 : State) q'' :
  Queue.get (data_queue s) = inr (r, q') ->
  call (R':=unit) None (func r) (set_data_queue q' s) = (Val (Some res), s1) ->
  Queue.task_done (data_queue s1) = inr q'' ->
  activate func s
  = (Val tt, set_interrupt false (set_data_queue q'' (emit (DataReady res) s1))).
Proof.
  intros Hg Hf Ht.
  unfold activate, call at 1, process, try_except_finally, bind.
  rewrite queue_get_eq, Hg, Hf. unfold emit_dataReady, modify.
  rewrite queue_task_done_eq. cbn [emit data_queue]. by rewrite Ht.
Qed.

Lemma activate_returns func (s : State) :
  exists s', activate func s = (Val tt, s') /\ interrupt s' = false.
Proof.
  unfold activate, call at 1, process, try_except_finally, bind, modify.
  destruct (queue_get s) as [[ref|[]|e] s0].
  - destruct (call None (func ref) s0) as [[[res|]|[]|e] s1].
    + unfold emit_dataReady, modify.
      destruct (queue_task_done _) as [[[]|[]|e] s2]; try destruct e;
        eexists; split; reflexivity.
    + eexists; split; reflexivity.
    + eexists; split; reflexivity.
    + destruct e; eexists; split; reflexivity.
  - eexists; split; reflexivity.
  - destruct e; eexists; split; reflexivity.
Qed.

(** C10: whatever the state of the worker and whatever the step does, once
    an activation is over the interrupt flag is false (and the activation
    itself has returned normally). *)
Theorem C10_interrupt_cleared_after_activation
    (func : Ref -> Py State (option Ref) unit) (s : State) :
  interrupt (snd (activate func s)) = false
  /\ fst (activate func s) = Val tt.
Proof.
  destruct (activate_returns func s) as (s' & -> & Hi). by split.
Qed.

(** C9: when the step raises on the reference just taken from the queue,
    the activation returns normally; it adds nothing to what the step did
    but the log entry, in particular no [dataReady]; the queue is the one
    the step left, the reference is not put back; and the next activation
    takes the next reference and reports it when its step succeeds. *)
Theorem C9_step_exception_is_contained
    (func : Ref -> Py State (option Ref) unit)
    (s : State) (r : Ref) (q' : UniqueQueue) (e : exn) (s1 : State) :
  Queue.get (data_queue s) = inr (r, q') ->
  call (R':=unit) None (func r) (set_data_queue q' s) = (Exc e, s1) ->
  let s' := snd (activate func s) in
  fst (activate func s) = Val tt
  /\ trace s' = trace s1 ++ (if bool_decide (e = QueueEmpty) then []
                             else [LogError "Failed whilst processing data"])
  /\ data_queue s' = data_queue s1
  /\ heap s' = heap s1
  /\ interrupt s' = false
  /\ (forall r2 q2 res s2 q3,
        Queue.get (data_queue s') = inr (r2, q2) ->
        call (R':=unit) None (func r2) (set_data_queue q2 s') = (Val (Some res), s2) ->
        Queue.task_done (data_queue s2) = inr q3 ->
        activate func s'
        = (Val tt, set_interrupt false (set_data_queue q3 (emit (DataReady res) s2)))).
Proof.
  intros Hg Hf s'. subst s'. rewrite (activate_raise func s r q' e s1 Hg Hf).
  cbn [fst snd]. repeat split.
  - destruct e; cbn; by rewrite ?app_nil_r.
  - by destruct e.
  - by destruct e.
  - intros r2 q2 res s2 q3. apply activate_some.
Qed.

(** A record without the [FileInfoLoaded] key makes the step of the metadata
    worker raise [KeyError]. *)
Lemma C9_step_exception_is_contained_witness :
  let s := Demo.state [1%nat] {[ 1%nat := Demo.malformed ]} in
  fst (activate (InfoWorker.process_data Demo.X) s) = Val tt
  /\ trace (snd (activate (InfoWorker.process_data Demo.X) s))
     = [LogError "Failed whilst processing data"]
  /\ queue (data_queue (snd (activate (InfoWorker.process_data Demo.X) s))) = [].
Proof.
  intros s.
  destruct (C9_step_exception_is_contained (InfoWorker.process_data Demo.X) s 1%nat
              {| queue := []; unfinished_tasks := 1 |} KeyError
              (set_data_queue {| queue := []; unfinished_tasks := 1 |} s))
    as (H1 & H2 & H3 & _); [reflexivity|reflexivity|].
  split; [exact H1|]. split; [exact H2|]. rewrite H3. reflexivity.
Defined.

(** ** Dereferencing *)

Lemma tick_eq {R} (s : State) : tick (R:=R) s = (Val tt, after_tick s).
Proof. unfold tick, after_tick. by destruct (env s). Qed.

Lemma deref_eq {R} (r : Ref) (s : State) :
  deref (R:=R) r s = (Val (heap (after_tick s) !! r), after_tick s).
Proof. unfold deref, bind, gets. by rewrite tick_eq. Qed.

Lemma ref_true_eq {R} (r : Ref) (s : State) :
  ref_true (R:=R) r s
  = (Val (match heap (after_tick s) !! r with
          | Some d => negb (bool_decide (d = ∅))
          | None => false
          end), after_tick s).
Proof. unfold ref_true, bind, ret. by rewrite deref_eq. Qed.

Lemma after_tick_interrupt (s : State) : interrupt (after_tick s) = interrupt s.
Proof. unfold after_tick. by destruct (env s). Qed.
Lemma after_tick_data_queue (s : State) : data_queue (after_tick s) = data_queue s.
Proof. unfold after_tick. by destruct (env s). Qed.
Lemma after_tick_trace (s : State) : trace (after_tick s) = trace s.
Proof. unfold after_tick. by destruct (env s). Qed.

Lemma env_acts_dead (acts : list EnvAct) (h : Heap) (r : Ref) :
  h !! r = None -> env_acts acts h !! r = None.
Proof.
  revert h. induction acts as [|a acts IH]; intros h Hd; [done|].
  apply IH. destruct a as [x|x k v]; cbn [env_act].
  - rewrite lookup_delete. by case_decide.
  - destruct (decide (x = r)) as [->|Hne].
    + by rewrite lookup_alter_eq, Hd.
    + by rewrite lookup_alter_ne.
Qed.

(** A record that has been dropped stays dropped. *)
Lemma after_tick_dead (s : State) (r : Ref) :
  heap s !! r = None -> heap (after_tick s) !! r = None.
Proof.
  unfold after_tick. destruct (env s); [done|].
  cbn [set_env set_heap heap]. apply env_acts_dead.
Qed.

Lemma return_unless_ref_dead {R} (r : Ref) (v : R) (s : State) :
  heap s !! r = None ->
  return_unless_ref r v s = (Ret v, after_tick s).
Proof.
  intros Hd. unfold return_unless_ref, bind.
  by rewrite ref_true_eq, (after_tick_dead s r Hd).
Qed.

Lemma return_unless_ref_or_interrupt_dead {R} (r : Ref) (v : R) (s : State) :
  heap s !! r = None ->
  return_unless_ref_or_interrupt r v s = (Ret v, after_tick s).
Proof.
  intros Hd. unfold return_unless_ref_or_interrupt, bind.
  by rewrite ref_true_eq, (after_tick_dead s r Hd).
Qed.

Lemma info_step_dead (X : Extern) (r : Ref) (s : State) :
  heap s !! r = None ->
  call (R':=unit) None (InfoWorker.process_data X r) s = (Val None, after_tick s).
Proof.
  intros Hd. unfold call, InfoWorker.process_data, bind.
  by rewrite return_unless_ref_or_interrupt_dead.
Qed.

Lemma thumbnail_step_dead (X : Extern) (r : Ref) (s : State) :
  heap s !! r = None ->
  call (R':=unit) None (ThumbnailWorker.process_data X r) s = (Val None, after_tick s).
Proof.
  intros Hd. unfold call, ThumbnailWorker.process_data, bind.
  by rewrite return_unless_ref_or_interrupt_dead.
Qed.

Lemma folder_step_dead (X : Extern) (r : Ref) (s : State) :
  heap s !! r = None ->
  call (R':=unit) None (TaskFolderWorker.process_data X r) s = (Val None, after_tick s).
Proof.
  intros Hd. unfold call, TaskFolderWorker.process_data, bind.
  by rewrite return_unless_ref_or_interrupt_dead.
Qed.

(** C4: when the reference taken from the queue no longer resolves, the
    step of the metadata, thumbnail and folder-count workers returns empty
    at its first check: the activation writes no field and emits nothing,
    and the store is what the other threads made of it. *)
Theorem C4_dead_reference_is_skipped
    (X : Extern) (s : State) (r : Ref) (q' : UniqueQueue)
    (step : Ref -> Py State (option Ref) unit) :
  Queue.get (data_queue s) = inr (r, q') ->
  heap s !! r = None ->
  step = InfoWorker.process_data X \/ step = ThumbnailWorker.process_data X
    \/ step = TaskFolderWorker.process_data X ->
  call (R':=unit) None (step r) (set_data_queue q' s)
    = (Val None, after_tick (set_data_queue q' s))
  /\ fst (activate step s) = Val tt
  /\ trace (snd (activate step s)) = trace s
  /\ heap (snd (activate step s)) = heap (after_tick s)
  /\ data_queue (snd (activate step s)) = q'.
Proof.
  intros Hg Hd Hstep.
  assert (Hs : call (R':=unit) None (step r) (set_data_queue q' s)
               = (Val None, after_tick (set_data_queue q' s))).
  { destruct Hstep as [->|[->| ->]];
      [apply info_step_dead|apply thumbnail_step_dead|apply folder_step_dead]; done. }
  split; [exact Hs|].
  rewrite (activate_none step s r q' _ Hg Hs). cbn [fst snd].
  repeat split.
  - cbn [set_interrupt trace]. by rewrite after_tick_trace.
  - unfold after_tick. cbn. by destruct (env s).
  - cbn [set_interrupt data_queue]. by rewrite after_tick_data_queue.
Qed.

Lemma C4_dead_reference_is_skipped_witness :
  let s := Demo.state [1%nat] ∅ in
  fst (activate (InfoWorker.process_data Demo.X) s) = Val tt
  /\ trace (snd (activate (InfoWorker.process_data Demo.X) s)) = []
  /\ heap (snd (activate (InfoWorker.process_data Demo.X) s)) = ∅.
Proof.
  intros s.
  destruct (C4_dead_reference_is_skipped Demo.X s 1%nat
              {| queue := []; unfinished_tasks := 1 |}
              (InfoWorker.process_data Demo.X))
    as (_ & H1 & H2 & H3 & _); [reflexivity|reflexivity|by left|].
  split; [exact H1|]. split; [exact H2|exact H3].
Defined.

(** ** Running without interference

    When no other thread interferes any more ([env s = []]) a step is a
    function of the store; the lemmas below run it one statement at a
    time. *)

Lemma after_tick_quiet (s : State) : env s = [] -> after_tick s = s.
Proof. unfold after_tick. by intros ->. Qed.

Lemma bind_Val {Σ R A B} (m : Py Σ R A) (f : A -> Py Σ R B) s a s1 res :
  m s = (Val a, s1) -> f a s1 = res -> bind m f s = res.
Proof. intros Hm Hf. unfold bind. by rewrite Hm. Qed.

Lemma bind_Ret {Σ R A B} (m : Py Σ R A) (f : A -> Py Σ R B) s r s1 :
  m s = (Ret r, s1) -> bind m f s = (Ret r, s1).
Proof. intros Hm. unfold bind. by rewrite Hm. Qed.

Lemma bind_Exc {Σ R A B} (m : Py Σ R A) (f : A -> Py Σ R B) s e s1 :
  m s = (Exc e, s1) -> bind m f s = (Exc e, s1).
Proof. intros Hm. unfold bind. by rewrite Hm. Qed.

Lemma ref_true_live {R} (r : Ref) (d : DataDict) (s : State) :
  Live s r d -> ref_true (R:=R) r s = (Val true, s).
Proof.
  intros (He & Hh & Hd). rewrite ref_true_eq, (after_tick_quiet s He), Hh.
  by rewrite bool_decide_eq_false_2.
Qed.

Lemma return_unless_ref_live {R} (r : Ref) (v : R) (d : DataDict) (s : State) :
  Live s r d -> return_unless_ref r v s = (Val tt, s).
Proof.
  intros HL. unfold return_unless_ref.
  by apply (bind_Val _ _ _ _ _ _ (ref_true_live r d s HL)).
Qed.

Lemma return_unless_ref_or_interrupt_live {R} (r : Ref) (v : R) (d : DataDict) (s : State) :
  Live s r d -> interrupt s = false ->
  return_unless_ref_or_interrupt r v s = (Val tt, s).
Proof.
  intros HL Hi. unfold return_unless_ref_or_interrupt.
  apply (bind_Val _ _ _ _ _ _ (ref_true_live r d s HL)).
  cbn [negb]. unfold bind, gets. by rewrite Hi.
Qed.

Lemma getitem_live {R} (r : Ref) (k : Key) (d : DataDict) (v : Value) (s : State) :
  Live s r d -> d !! k = Some v -> getitem (R:=R) r k s = (Val v, s).
Proof.
  intros (He & Hh & Hd) Hk. unfold getitem, bind.
  by rewrite deref_eq, (after_tick_quiet s He), Hh, Hk.
Qed.

Lemma getitem_missing {R} (r : Ref) (k : Key) (d : DataDict) (s : State) :
  Live s r d -> d !! k = None -> getitem (R:=R) r k s = (Exc KeyError, s).
Proof.
  intros (He & Hh & Hd) Hk. unfold getitem, bind.
  by rewrite deref_eq, (after_tick_quiet s He), Hh, Hk.
Qed.

Lemma setitem_live {R} (r : Ref) (k : Key) (v : Value) (d : DataDict) (s : State) :
  Live s r d -> setitem (R:=R) r k v s = (Val tt, write r k v d s).
Proof.
  intros (He & Hh & Hd). unfold setitem, bind, modify.
  by rewrite deref_eq, (after_tick_quiet s He), Hh.
Qed.

Lemma write_Live (r : Ref) (k : Key) (v : Value) (d : DataDict) (s : State) :
  Live s r d -> Live (write r k v d s) r (<[k := v]> d).
Proof.
  intros (He & Hh & Hd). repeat split; [done| |apply insert_non_empty].
  cbn [write emit set_heap heap]. apply lookup_insert_eq.
Qed.

Lemma write_Live_other (r x : Ref) (k : Key) (v : Value) (d dx : DataDict) (s : State) :
  x <> r -> Live s x dx -> Live (write r k v d s) x dx.
Proof.
  intros Hne (He & Hh & Hd). repeat split; [done| |done].
  cbn [write emit set_heap heap]. by rewrite lookup_insert_ne.
Qed.

Lemma write_interrupt r k v d s : interrupt (write r k v d s) = interrupt s.
Proof. reflexivity. Qed.
Lemma write_data_queue r k v d s : data_queue (write r k v d s) = data_queue s.
Proof. reflexivity. Qed.
Lemma write_trace r k v d s : trace (write r k v d s) = trace s ++ [SetItem r k v].
Proof. reflexivity. Qed.

Lemma Live_set_data_queue (s : State) (r : Ref) (d : DataDict) q :
  Live s r d -> Live (set_data_queue q s) r d.
Proof. done. Qed.

(** ** The metadata worker on a record that is already loaded *)

Lemma call_Ret {Σ R R'} (fall : R) (body : Py Σ R unit) s v s' :
  body s = (Ret v, s') -> call (R':=R') fall body s = (Val v, s').
Proof. intros H. unfold call. by rewrite H. Qed.

Lemma call_Val {Σ R R'} (fall : R) (body : Py Σ R unit) s u s' :
  body s = (Val u, s') -> call (R':=R') fall body s = (Val fall, s').
Proof. intros H. unfold call. by rewrite H. Qed.

Lemma call_Exc {Σ R R'} (fall : R) (body : Py Σ R unit) s e s' :
  body s = (Exc e, s') -> call (R':=R') fall body s = (Exc e, s').
Proof. intros H. unfold call. by rewrite H. Qed.

(** Run the next statement with the given lemma. *)
Ltac run lem := eapply bind_Val; [eapply lem; eauto|cbv beta].

Lemma info_loaded_step (X : Extern) (r : Ref) (d : DataDict) (v : Value) (s : State) :
  Live s r d -> interrupt s = false ->
  d !! FileInfoLoaded = Some v -> truthy (heap s) v = true ->
  call (R':=unit) None (InfoWorker.process_data X r) s = (Val (Some r), s).
Proof.
  intros HL Hi Hk Hv.
  assert (Hp : call (R':=option Ref) None (InfoWorker.process_file_information X r) s
               = (Val (Some r), s)).
  { apply call_Ret. unfold InfoWorker.process_file_information.
    run @return_unless_ref_live. run @getitem_live.
    unfold bind at 1, gets. by rewrite Hv. }
  apply call_Ret. unfold InfoWorker.process_data.
  run @return_unless_ref_or_interrupt_live.
  eapply bind_Val; [exact Hp|cbv beta].
  run @return_unless_ref_live.
  reflexivity.
Qed.

(** C6, as stated, has the step return empty and no [dataReady] emitted for
    a record already marked as loaded.  On such a record the step returns
    the reference and the activation emits [dataReady] for it. *)
Lemma C6_loaded_record_is_reported :
  let s := Demo.state [1%nat] {[ 1%nat := Demo.loaded ]} in
  fst (call (R':=unit) None (InfoWorker.process_data Demo.X 1%nat) s) = Val (Some 1%nat)
  /\ trace (snd (activate (InfoWorker.process_data Demo.X) s)) = [DataReady 1%nat].
Proof. vm_compute. split; reflexivity. Qed.

(** C6 (amended): on a live record already marked as loaded, with the
    worker not interrupted and no other thread interfering, the step of
    the metadata worker writes no field and returns the reference; the
    activation therefore emits one [dataReady] for it and leaves the store
    as it was. *)
Theorem C6_loaded_record_no_write
    (X : Extern) (s : State) (r : Ref) (q' q'' : UniqueQueue)
    (d : DataDict) (v : Value) :
  Queue.get (data_queue s) = inr (r, q') ->
  Queue.task_done q' = inr q'' ->
  env s = [] -> interrupt s = false ->
  heap s !! r = Some d ->
  d !! FileInfoLoaded = Some v -> truthy (heap s) v = true ->
  call (R':=unit) None (InfoWorker.process_data X r) (set_data_queue q' s)
    = (Val (Some r), set_data_queue q' s)
  /\ activate (InfoWorker.process_data X) s
     = (Val tt, set_interrupt false (set_data_queue q'' (emit (DataReady r) s)))
  /\ heap (snd (activate (InfoWorker.process_data X) s)) = heap s
  /\ trace (snd (activate (InfoWorker.process_data X) s)) = trace s ++ [DataReady r].
Proof.
  intros Hg Ht He Hi Hh Hk Hv.
  assert (HL : Live (set_data_queue q' s) r d).
  { repeat split; [done|done|]. intros ->. by rewrite lookup_empty in Hk. }
  assert (Hs := info_loaded_step X r d v (set_data_queue q' s) HL Hi Hk Hv).
  split; [exact Hs|].
  rewrite (activate_some _ s r q' r _ q'' Hg Hs Ht). by repeat split.
Qed.

Lemma C6_loaded_record_no_write_witness :
  let s := Demo.state [1%nat] {[ 1%nat := Demo.loaded ]} in
  activate (InfoWorker.process_data Demo.X) s
  = (Val tt, set_interrupt false
               (set_data_queue {| queue := []; unfinished_tasks := 0 |}
                  (emit (DataReady 1%nat) s))).
Proof.
  intros s.
  apply (C6_loaded_record_no_write Demo.X s 1%nat
           {| queue := []; unfinished_tasks := 1 |}
           {| queue := []; unfinished_tasks := 0 |}
           Demo.loaded (VBool true)); reflexivity.
Defined.

(** ** The folder-count worker *)

Lemma Live_Alive (s : State) (r : Ref) (d : DataDict) : Live s r d -> Alive s r.
Proof. by exists d. Qed.

Lemma Folder_Alive (s : State) (r : Ref) (p : string) : Folder s r p -> Alive s r.
Proof. intros (d & HL & _). by exists d. Qed.

Lemma write_Alive (r x : Ref) (k : Key) (v : Value) (d : DataDict) (s : State) :
  Live s r d -> Alive s x -> Alive (write r k v d s) x.
Proof.
  intros HL (dx & Hx). destruct (decide (x = r)) as [->|Hne].
  - eexists. by apply write_Live.
  - exists dx. by apply write_Live_other.
Qed.

Lemma write_Folder (r x : Ref) (v : Value) (d : DataDict) (p : string) (s : State) :
  Live s r d -> Folder s x p -> Folder (write r TodoCountRole v d s) x p.
Proof.
  intros HL (dx & Hx & Hp). destruct (decide (x = r)) as [->|Hne].
  - assert (dx = d) as -> by (destruct HL as (_ & H1 & _), Hx as (_ & H2 & _); congruence).
    eexists. split; [by apply write_Live|]. by rewrite lookup_insert_ne.
  - exists dx. split; [by apply write_Live_other|done].
Qed.

Lemma emit_Live (ev : Event) (s : State) (r : Ref) (d : DataDict) :
  Live s r d -> Live (emit ev s) r d.
Proof. done. Qed.

Lemma emit_Folder (ev : Event) (s : State) (r : Ref) (p : string) :
  Folder s r p -> Folder (emit ev s) r p.
Proof. done. Qed.

Lemma return_unless_both_live (r _r : Ref) (s : State) :
  Alive s r -> Alive s _r -> interrupt s = false ->
  TaskFolderWorker.return_unless_both r _r s = (Val tt, s).
Proof.
  intros (d & Hd) (d' & Hd') Hi. unfold TaskFolderWorker.return_unless_both.
  run @ref_true_live. cbn [negb]. run @ref_true_live. cbn [negb].
  unfold bind, gets. by rewrite Hi.
Qed.

Lemma visible_entries_cons (name : string) (rest : list string) :
  visible_entries (name :: rest)
  = if PyStr.startswith_dot name then visible_entries rest
    else S (visible_entries rest).
Proof.
  unfold visible_entries. rewrite filter_cons.
  destruct (PyStr.startswith_dot name); by case_decide.
Qed.

Lemma count_entries_live (r _r : Ref) (entries : list string) : forall (c : Z) (s : State),
  Alive s r -> Alive s _r -> interrupt s = false ->
  0 <= c <= 999 ->
  TaskFolderWorker.count_entries r _r entries c s
  = (Val (Z.min (c + Z.of_nat (visible_entries entries)) 1000), s).
Proof.
  induction entries as [|name rest IH]; intros c s Hr Hr' Hi Hc.
  - cbn. unfold ret. do 2 f_equal. lia.
  - cbn [TaskFolderWorker.count_entries].
    run return_unless_both_live.
    rewrite visible_entries_cons.
    destruct (PyStr.startswith_dot name); [by apply IH|].
    destruct (c + 1 >? 999) eqn:E.
    + unfold ret. do 2 f_equal. lia.
    + rewrite IH by (done || lia). do 2 f_equal. lia.
Qed.

Lemma count_folder_live (X : Extern) (r _r : Ref) (d : DataDict) (p : string) (s : State) :
  Alive s r -> Live s _r d -> d !! StatusTipRole = Some (VStr p) ->
  interrupt s = false ->
  TaskFolderWorker.count_folder X r _r s
  = (Val tt, count_done _r (folder_count X p) s).
Proof.
  intros (dr & Hr) Hd Hp Hi. unfold TaskFolderWorker.count_folder.
  run @return_unless_ref_or_interrupt_live.
  eapply bind_Val.
  { eapply bind_Val; [by eapply getitem_live|reflexivity]. }
  cbv beta.
  eapply bind_Val.
  { apply count_entries_live; [by exists dr|by exists d|done|lia]. }
  cbv beta. change (Z.min _ 1000) with (folder_count X p).
  run return_unless_both_live; [by exists dr|by exists d|].
  run @setitem_live.
  run return_unless_both_live;
    [apply write_Alive; [done|by exists dr]|eexists; by apply write_Live|].
  unfold count_done. destruct Hd as (_ & -> & _). reflexivity.
Qed.

Lemma count_done_eq (x : Ref) (c : Z) (p : string) (s : State) :
  Folder s x p ->
  exists d, Live s x d /\ d !! StatusTipRole = Some (VStr p)
    /\ count_done x c s = emit (DataReady x) (write x TodoCountRole (VInt c) d s).
Proof.
  intros (d & HL & Hp). exists d. repeat split; try apply HL; [done|].
  unfold count_done. by destruct HL as (_ & -> & _).
Qed.

Lemma count_done_Alive (x y : Ref) (c : Z) (p : string) (s : State) :
  Folder s x p -> Alive s y -> Alive (count_done x c s) y.
Proof.
  intros Hx Hy. destruct (count_done_eq x c p s Hx) as (d & HL & _ & ->).
  destruct (write_Alive x y TodoCountRole (VInt c) d s HL Hy) as (dy & Hdy).
  by exists dy.
Qed.

Lemma count_done_Folder (x y : Ref) (c : Z) (p py : string) (s : State) :
  Folder s x p -> Folder s y py -> Folder (count_done x c s) y py.
Proof.
  intros Hx Hy. destruct (count_done_eq x c p s Hx) as (d & HL & _ & ->).
  apply emit_Folder. by apply write_Folder.
Qed.

Lemma count_done_interrupt (x : Ref) (c : Z) (s : State) :
  interrupt (count_done x c s) = interrupt s.
Proof. unfold count_done. by destruct (heap s !! x). Qed.

Lemma count_done_other (x y : Ref) (c : Z) (s : State) :
  y <> x -> heap (count_done x c s) !! y = heap s !! y.
Proof.
  intros Hne. unfold count_done. destruct (heap s !! x); [|done].
  cbn [emit write set_heap heap]. by rewrite lookup_insert_ne.
Qed.

Lemma count_done_same (x : Ref) (c : Z) (p : string) (s : State) :
  Folder s x p ->
  exists d, heap (count_done x c s) !! x = Some d
            /\ d !! TodoCountRole = Some (VInt c).
Proof.
  intros Hx. destruct (count_done_eq x c p s Hx) as (d & HL & _ & ->).
  exists (<[TodoCountRole := VInt c]> d). split.
  - cbn [emit write set_heap heap]. apply lookup_insert_eq.
  - apply lookup_insert_eq.
Qed.

Section FolderCounts.
Variable X : Extern.
Variable path : Ref -> string.
Let cnt (x : Ref) : Z := folder_count X (path x).

Lemma for_each_live (r : Ref) (refs : list Ref) : forall s : State,
  Alive s r -> (forall x, In x refs -> Folder s x (path x)) ->
  interrupt s = false ->
  TaskFolderWorker.for_each X r refs s = (Val tt, counts_done cnt refs s).
Proof.
  induction refs as [|y rest IH]; intros s Hr Hrefs Hi; [reflexivity|].
  cbn [TaskFolderWorker.for_each].
  destruct (Hrefs y (or_introl eq_refl)) as (dy & Hy & Hp).
  eapply bind_Val; [by eapply count_folder_live|cbv beta].
  apply IH.
  - eapply count_done_Alive; [by exists dy|done].
  - intros x Hx. eapply count_done_Folder; [by exists dy|]. apply Hrefs. by right.
  - by rewrite count_done_interrupt.
Qed.

Lemma counts_done_trace (refs : list Ref) : forall s : State,
  (forall x, In x refs -> Folder s x (path x)) ->
  trace (counts_done cnt refs s)
  = trace s ++ flat_map (fun x => [SetItem x TodoCountRole (VInt (cnt x)); DataReady x]) refs.
Proof.
  induction refs as [|y rest IH]; intros s Hrefs.
  - cbn. by rewrite app_nil_r.
  - change (counts_done cnt (y :: rest) s)
      with (counts_done cnt rest (count_done y (cnt y) s)).
    pose proof (Hrefs y (or_introl eq_refl)) as Hy.
    rewrite IH.
    + destruct (count_done_eq y (cnt y) _ s Hy) as (d & _ & _ & ->).
      cbn [emit write trace flat_map]. by rewrite <- !app_assoc.
    + intros x Hx. eapply count_done_Folder; [done|]. apply Hrefs. by right.
Qed.

Lemma counts_done_other (refs : list Ref) (y : Ref) : forall s : State,
  ~ In y refs -> heap (counts_done cnt refs s) !! y = heap s !! y.
Proof.
  induction refs as [|x rest IH]; intros s Hy; [done|].
  change (counts_done cnt (x :: rest) s)
    with (counts_done cnt rest (count_done x (cnt x) s)).
  rewrite IH by (intros H; apply Hy; by right).
  apply count_done_other. intros ->. apply Hy. by left.
Qed.

Lemma counts_done_heap (refs : list Ref) : forall s : State,
  (forall x, In x refs -> Folder s x (path x)) ->
  forall x, In x refs ->
    exists d, heap (counts_done cnt refs s) !! x = Some d
              /\ d !! TodoCountRole = Some (VInt (cnt x)).
Proof.
  induction refs as [|y rest IH]; intros s Hrefs x Hx; [done|].
  change (counts_done cnt (y :: rest) s)
    with (counts_done cnt rest (count_done y (cnt y) s)).
  pose proof (Hrefs y (or_introl eq_refl)) as Hy.
  destruct (in_dec Nat.eq_dec x rest) as [Hin|Hnin].
  - apply IH; [|done].
    intros z Hz. eapply count_done_Folder; [done|]. apply Hrefs. by right.
  - destruct Hx as [->|Hx]; [|done].
    rewrite counts_done_other by done. by eapply count_done_same.
Qed.
End FolderCounts.

Lemma weakrefs_dicts (refs : list Ref) (s : State) :
  TaskFolderWorker.weakrefs (VDict <$> refs) s = (Val refs, s).
Proof.
  induction refs as [|x rest IH]; [reflexivity|].
  cbn [fmap list_fmap TaskFolderWorker.weakrefs].
  eapply bind_Val; [exact IH|reflexivity].
Qed.

Lemma values_live (r : Ref) (d : DataDict) (s : State) :
  Live s r d ->
  TaskFolderWorker.values r s = (Val (snd <$> map_to_list d), s).
Proof.
  intros (He & Hh & _). unfold TaskFolderWorker.values, bind.
  by rewrite deref_eq, (after_tick_quiet s He), Hh.
Qed.

Lemma folder_step_live (X : Extern) (path : Ref -> string)
    (r : Ref) (d : DataDict) (refs : list Ref) (s : State) :
  env s = [] -> interrupt s = false ->
  heap s !! r = Some d ->
  snd <$> map_to_list d = VDict <$> refs ->
  (forall x, In x refs ->
     exists dx, heap s !! x = Some dx /\ dx !! StatusTipRole = Some (VStr (path x))) ->
  call (R':=unit) None (TaskFolderWorker.process_data X r) s
  = (Val None, counts_done (fun x => folder_count X (path x)) refs s).
Proof.
  intros He Hi Hh Hvals Hrefs. apply call_Ret.
  unfold TaskFolderWorker.process_data.
  destruct (decide (d = ∅)) as [->|Hne].
  - rewrite map_to_list_empty in Hvals. destruct refs; [|done].
    apply bind_Ret. unfold return_unless_ref_or_interrupt.
    eapply bind_Val; [apply ref_true_eq|]. cbv beta.
    rewrite (after_tick_quiet s He), Hh. by rewrite bool_decide_eq_true_2.
  - assert (HL : Live s r d) by done.
    run @return_unless_ref_or_interrupt_live.
    eapply bind_Val; [by eapply values_live|cbv beta]. rewrite Hvals.
    eapply bind_Val; [apply weakrefs_dicts|cbv beta].
    eapply bind_Val; [|reflexivity].
    apply for_each_live; [by exists d| |done].
    intros x Hx. destruct (Hrefs x Hx) as (dx & Hdx & Hp).
    exists dx. split; [|done]. repeat split; [done|done|].
    intros ->. by rewrite lookup_empty in Hp.
Qed.

Lemma folder_count_bounds (X : Extern) (p : string) :
  0 <= folder_count X p <= 1000
  /\ ((visible_entries (walk X p) <= 999)%nat ->
      folder_count X p = Z.of_nat (visible_entries (walk X p))).
Proof. unfold folder_count. split; [lia|]. intros H. lia. Qed.

(** C7 has the stored count never exceed 999, as the docstring of the step
    has it ("up to 999").  The walk stops only once the count has become
    greater than 999: for a tree of 1000 entries the step stores 1000. *)
Lemma C7_stored_count_reaches_1000 :
  let s := Demo.state [1%nat] Demo.big_folder in
  let s' := snd (activate (TaskFolderWorker.process_data Demo.X) s) in
  (heap s' !! 2%nat) ≫= (fun d => d !! TodoCountRole) = Some (VInt 1000)
  /\ trace s' = [SetItem 2%nat TodoCountRole (VInt 1000); DataReady 2%nat].
Proof. vm_compute. split; reflexivity. Qed.

Lemma Permutation_fmap_inv {A B} (f : A -> B) (l : list B) (l2 : list A) :
  l ≡ₚ f <$> l2 -> exists l3, l = f <$> l3 /\ l3 ≡ₚ l2.
Proof.
  intros H. destruct (Permutation_map_inv f l2 H) as (l3 & -> & Hp).
  exists l3. split; [reflexivity|by symmetry].
Qed.

(** X24: for a live folder record whose values are live
    sub-records with a path, with the worker not interrupted and no other
    thread interfering, the step writes onto every sub-record the number of
    the entries of its tree whose name does not start with a dot, or 1000
    when there are more than 999 of them (the walk stops as soon as the count
    exceeds 999), and emits one [dataReady] for each sub-record right after
    its count is written, the sub-records being taken in the order the
    dictionary hands them out, whichever that is; the step itself returns
    empty, so that none is emitted for the folder record. *)
Theorem folder_counts_written
    (X : Extern) (path : Ref -> string) (s : State) (r : Ref) (q' : UniqueQueue)
    (d : DataDict) (refs : list Ref) :
  Queue.get (data_queue s) = inr (r, q') ->
  env s = [] -> interrupt s = false ->
  heap s !! r = Some d ->
  snd <$> map_to_list d ≡ₚ VDict <$> refs ->
  (forall x, In x refs ->
     exists dx, heap s !! x = Some dx /\ dx !! StatusTipRole = Some (VStr (path x))) ->
  let cnt := fun x => folder_count X (path x) in
  let s' := snd (activate (TaskFolderWorker.process_data X) s) in
  fst (activate (TaskFolderWorker.process_data X) s) = Val tt
  /\ fst (call (R':=unit) None (TaskFolderWorker.process_data X r) (set_data_queue q' s))
     = Val None
  /\ (exists order,
        order ≡ₚ refs
        /\ trace s' = trace s ++ flat_map (fun x => [SetItem x TodoCountRole (VInt (cnt x));
                                                     DataReady x]) order
        /\ (~ In r refs -> ~ In (DataReady r) (flat_map (fun x =>
              [SetItem x TodoCountRole (VInt (cnt x)); DataReady x]) order)))
  /\ (forall x, In x refs ->
        exists dx, heap s' !! x = Some dx /\ dx !! TodoCountRole = Some (VInt (cnt x)))
  /\ (forall x, 0 <= cnt x <= 1000
        /\ ((visible_entries (walk X (path x)) <= 999)%nat ->
            cnt x = Z.of_nat (visible_entries (walk X (path x))))
        /\ ((999 < visible_entries (walk X (path x)))%nat -> cnt x = 1000)).
Proof.
  intros Hg He Hi Hh Hperm Hrefs0 cnt s'.
  destruct (Permutation_fmap_inv VDict _ refs Hperm) as (order & Hvals & Horder).
  assert (Hrefs : forall x, In x order ->
            exists dx, heap s !! x = Some dx /\ dx !! StatusTipRole = Some (VStr (path x))).
  { intros x Hx. apply Hrefs0. by apply (Permutation_in x Horder). }
  assert (Hrefs' : forall x, In x order -> Folder (set_data_queue q' s) x (path x)).
  { intros x Hx. destruct (Hrefs x Hx) as (dx & Hdx & Hp).
    exists dx. split; [|done]. repeat split; [done|done|].
    intros ->. by rewrite lookup_empty in Hp. }
  assert (Hs := folder_step_live X path r d order (set_data_queue q' s) He Hi Hh Hvals Hrefs).
  subst s'. rewrite (activate_none _ s r q' _ Hg Hs), Hs. cbn [fst snd].
  split; [done|]. split; [done|]. split; [|split].
  - exists order. split; [done|]. split.
    + cbn [set_interrupt trace]. by rewrite (counts_done_trace X path order _ Hrefs').
    + intros Hr Hin. apply in_flat_map in Hin as (x & Hx & Hin).
      destruct Hin as [Hin|[Hin|[]]]; [discriminate|].
      injection Hin as ->. apply Hr. by apply (Permutation_in r Horder).
  - intros x Hx. cbn [set_interrupt heap].
    apply (counts_done_heap X path order _ Hrefs').
    apply (Permutation_in x (Permutation_sym Horder) Hx).
  - intros x. unfold cnt, folder_count. lia.
Qed.

Example folder_counts_written_example :
  let s := Demo.state [1%nat] Demo.big_folder in
  let s' := snd (activate (TaskFolderWorker.process_data Demo.X) s) in
  trace s' = [SetItem 2%nat TodoCountRole (VInt (folder_count Demo.X "/job/big"));
              DataReady 2%nat].
Proof.
  intros s s'.
  destruct (folder_counts_written Demo.X (fun _ => "/job/big"%string) s 1%nat
              {| queue := []; unfinished_tasks := 1 |}
              {[ Idx 0 := VDict 2%nat ]} [2%nat])
    as (_ & _ & (order & Horder & H & _) & _);
    [reflexivity|reflexivity|reflexivity|reflexivity|reflexivity| |].
  - intros x [<-|[]]. eexists. split; reflexivity.
  - apply Permutation_sym, Permutation_length_1_inv in Horder. subst order. exact H.
Defined.

(** ** What a step keeps true *)

Section Keeps.
Context {Σ : Type} (I : Σ -> Prop).







Lemma keeps_bind {R A B} (m : Py Σ R A) (f : A -> Py Σ R B) Q1 Q :
  keeps I m Q1 -> (forall a, Q1 a -> keeps I (f a) Q) -> keeps I (bind m f) Q.
Proof.
  intros Hm Hf s Hs. destruct (Hm s Hs) as [H1 H2]. unfold bind.
  destruct (m s) as [[a|v|e] s1]; cbn [fst snd] in *; [|by split..].
  by apply (Hf a (H2 a eq_refl)).
Qed.

Lemma keeps_seq {R A B} (m : Py Σ R A) (f : A -> Py Σ R B) Q1 Q :
  keeps I m Q1 -> (forall a, keeps I (f a) Q) -> keeps I (bind m f) Q.
Proof. intros Hm Hf. eapply keeps_bind; [exact Hm|]. intros a _. apply Hf. Qed.





End Keeps.

Section Oversized.
Variable X : Extern.
Variable r : Ref.
Variable n : nat.

Lemma env_acts_untouched (acts : list EnvAct) : forall h : Heap,
  Forall (fun a => target a <> r) acts -> env_acts acts h !! r = h !! r.
Proof.
  induction acts as [|a acts IH]; intros h Hacts; [done|].
  apply Forall_cons in Hacts as [Ha Hacts]. cbn [env_acts fold_left].
  change (env_acts acts (env_act a h) !! r = h !! r). rewrite IH by done.
  destruct a as [x|x k v]; cbn [env_act target] in *.
  - by rewrite lookup_delete_ne.
  - by rewrite lookup_alter_ne.
Qed.

Lemma Inv_after_tick (s : State) : Inv X r n s -> Inv X r n (after_tick s).
Proof.
  intros HI. unfold after_tick.
  destruct (env s) as [|acts rest] eqn:He; [exact HI|].
  destruct HI as (Hu & Hp & Hn). rewrite He in Hu.
  apply Forall_cons in Hu as [Hacts Hrest].
  repeat split; [done| |done].
  intros d tip. cbn [set_env set_heap heap]. rewrite env_acts_untouched by done.
  apply Hp.
Qed.




Lemma keeps_deref {R} (x : Ref) : keeps (Inv X r n) (deref (R:=R) x) (fun _ => True).
Proof. intros s Hs. rewrite deref_eq. split; [|done]. by apply Inv_after_tick. Qed.












End Oversized.

Section OversizedThumbnail.
Variable X : Extern.
Variable r : Ref.
Variable n : nat.

Local Abbreviation I := (Inv X r n).
Local Abbreviation IL := (fun sl : State * ThumbnailWorker.Locals => Inv X r n (fst sl)).

(** Run one statement that keeps the invariant, with the given lemma. *)
Local Ltac ks lem := eapply keeps_seq; [eapply lem|intros ?].




End OversizedThumbnail.




(** ** The thumbnail worker on an oversized source, step by step *)

Lemma lift_eq {Σ L R A} (m : Py Σ R A) (s : Σ) (l : L) res s1 :
  m s = (res, s1) -> lift m (s, l) = (res, (s1, l)).
Proof. intros Hm. unfold lift. cbn [fst snd]. by rewrite Hm. Qed.

Lemma with_locals_eq {Σ L R A} (init : L) (m : Py (Σ * L) R A) (s : Σ) res s1 l :
  m (s, init) = (res, (s1, l)) -> with_locals init m s = (res, s1).
Proof. intros Hm. unfold with_locals. by rewrite Hm. Qed.

Lemma try_finally_Ret {Σ R A} (body : Py Σ R A) handler final s v s1 u s2 :
  body s = (Ret v, s1) -> final s1 = (Val u, s2) ->
  try_except_finally body handler final s = (Ret v, s2).
Proof. intros Hb Hf. unfold try_except_finally. by rewrite Hb, Hf. Qed.

(** Run the next statement of a body that has local variables. *)
Ltac runl lem := eapply bind_Val; [eapply lift_eq; eapply lem; eauto|cbv beta].






(** ** The metadata worker on a sequence *)

Lemma agree_off_refl (ks : list Key) (d : DataDict) : agree_off ks d d.
Proof. by intros k _. Qed.

Lemma agree_off_insert (ks : list Key) (d d1 : DataDict) (k : Key) (v : Value) :
  In k ks -> agree_off ks d d1 -> agree_off ks d (<[k := v]> d1).
Proof.
  intros Hk Ha k' Hk'. rewrite lookup_insert_ne; [by apply Ha|].
  intros ->. by apply Hk'.
Qed.

Lemma agree_off_trans (ks ks' : list Key) (d d1 d2 : DataDict) :
  agree_off ks d d1 -> agree_off ks' d1 d2 -> agree_off (ks ++ ks') d d2.
Proof.
  intros H1 H2 k Hk. rewrite H2, H1; [done|..];
    intros Hin; apply Hk, in_or_app; auto.
Qed.

(** Look a key up in a record that is a stack of writes. *)
Ltac look :=
  repeat (rewrite lookup_insert_ne by discriminate);
  first [apply lookup_insert_eq | eassumption].

Lemma iadd_item_live (r : Ref) (k : Key) (d : DataDict) (z x : Z) (s : State) :
  Live s r d -> d !! k = Some (VInt z) ->
  InfoWorker.iadd_item r k x s = (Val tt, write r k (VInt (z + x)) d s).
Proof.
  intros (He & Hh & Hd) Hk. unfold InfoWorker.iadd_item, bind.
  by rewrite deref_eq, (after_tick_quiet s He), Hh, Hk.
Qed.

Lemma sum_entries_live (r : Ref) (er : list DirEntry) :
  forall (mtime : Z) (s : State) (d : DataDict) (z : Z),
  Live s r d -> d !! SortBySizeRole = Some (VInt z) ->
  exists s1 d1,
    InfoWorker.sum_entries r er mtime s = (Val (latest er mtime), s1)
    /\ Live s1 r d1
    /\ agree_off [SortBySizeRole] d d1
    /\ d1 !! SortBySizeRole = Some (VInt (z + total_size er)).
Proof.
  induction er as [|e er IH]; intros mtime s d z HL Hz.
  - exists s, d. split; [reflexivity|]. split; [done|].
    split; [apply agree_off_refl|]. cbn. by rewrite Z.add_0_r.
  - destruct (IH (if st_mtime e >? mtime then st_mtime e else mtime)
                (write r SortBySizeRole (VInt (z + st_size e)) d s)
                (<[SortBySizeRole := VInt (z + st_size e)]> d)
                (z + st_size e))
      as (s1 & d1 & Hrun & HL1 & Hag & Hz1);
      [by apply write_Live|apply lookup_insert_eq|].
    exists s1, d1. split; [|split; [done|split]].
    + cbn [InfoWorker.sum_entries].
      run @return_unless_ref_live.
      eapply bind_Val; [by eapply iadd_item_live|cbv beta]. exact Hrun.
    + intros k Hk. rewrite Hag by done. rewrite lookup_insert_ne; [done|].
      intros <-. apply Hk. by left.
    + rewrite Hz1. cbn [total_size fold_right]. do 2 f_equal.
      fold (total_size er). lia.
Qed.

Lemma count_notes_live (X : Extern) (db : DB) (k : string) (r : Ref) (d : DataDict) (s : State) :
  Live s r d ->
  exists c k' s1,
    InfoWorker.count_notes X db k s = (Val (c, k'), s1) /\ Live s1 r d.
Proof.
  intros HL. unfold InfoWorker.count_notes.
  unfold bind at 1, gets.
  destruct (truthy (heap s) (db_value db k "notes")); [|by eexists _, _, _].
  destruct (db_value db k "notes"); try by eexists _, _, _.
  destruct (decode_notes X s0) as [notes|]; [|by eexists _, _, _].
  destruct (InfoWorker.count_open (heap s) notes k 0) as [[c|] k'];
    by eexists _, _, _.
Qed.

Lemma writes_Live (r : Ref) (kvs : list (Key * Value)) : forall (d : DataDict) (s : State),
  Live s r d -> Live (writes r kvs d s) r (inserts kvs d).
Proof.
  induction kvs as [|[k v] kvs IH]; intros d s HL; [done|].
  cbn [writes inserts]. by apply IH, write_Live.
Qed.

Ltac live := repeat apply write_Live; eassumption.
Ltac chk := eapply bind_Val; [eapply return_unless_ref_live; live|cbv beta].
Ltac put_ := eapply bind_Val; [eapply setitem_live; live|cbv beta].
Ltac get_ := eapply bind_Val; [eapply getitem_live; [live|look]|cbv beta].

Lemma sequence_item_frames_1235
    (X : Extern) (db : DB) (r : Ref) (d : DataDict) (s : State)
    (seq : SeqMatch) (e : DirEntry) (er : list DirEntry) (z : Z) :
  Live s r d ->
  d !! FramesRole = Some (VStrs frames_1235) ->
  d !! SequenceRole = Some (VMatch seq) ->
  d !! EntryRole = Some (VEntries (e :: er)) ->
  d !! SortBySizeRole = Some (VInt z) ->
  let names := sequence_names seq "0001" "0005" (get_ranges X [1; 2; 3; 5] 4)
                 (db_thumbnail_path db
                    (group1 seq +:+ "[0]" +:+ group3 seq +:+ "." +:+ group4 seq)) in
  let mtime := latest (e :: er) 0 in
  let size := z + total_size (e :: er) in
  exists s1 d1,
    InfoWorker.sequence_item X db r s = (Val tt, s1)
    /\ Live s1 r d1
    /\ agree_off [SortBySizeRole; SortByLastModifiedRole; FileDetailsRole] (inserts names d) d1
    /\ d1 !! SortBySizeRole = Some (VInt size)
    /\ d1 !! SortByLastModifiedRole = Some (VInt mtime)
    /\ d1 !! FileDetailsRole
       = Some (VStr ("4f;" +:+ InfoWorker.date_string X mtime
                     +:+ byte_to_string X (VInt size))).
Proof.
  intros HL Hfr Hseq Her Hz names mtime size.
  destruct (sum_entries_live r (e :: er) 0 (writes r names d s) (inserts names d) z)
    as (s1 & d1 & Hrun & HL1 & Hag & Hz1).
  { by apply writes_Live. }
  { cbn [names sequence_names inserts]. look. }
  eexists _, _. split; [|split; [|split; [|split; [|split]]]].
  - unfold InfoWorker.sequence_item.
    chk.
    eapply bind_Val; [eapply bind_Val; [by eapply getitem_live|reflexivity]|cbv beta].
    eapply (bind_Val _ _ _ [1; 2; 3; 5] s); [reflexivity|cbv beta].
    eapply (bind_Val _ _ _ "0001"%string s); [reflexivity|cbv beta].
    chk.
    eapply bind_Val; [eapply bind_Val; [by eapply getitem_live|reflexivity]|cbv beta].
    eapply (bind_Val _ _ _ 1 s); [reflexivity|cbv beta].
    eapply (bind_Val _ _ _ 5 s); [reflexivity|cbv beta].
    chk. put_. chk. put_. chk. put_. chk. put_. chk. put_. chk. put_. chk. put_.
    chk. get_.
    unfold bind at 1, gets. cbn [truthy].
    rewrite bool_decide_eq_false_2 by done. cbn [negb].
    eapply bind_Val; [reflexivity|cbv beta].
    eapply bind_Val; [exact Hrun|cbv beta].
    chk. put_. chk. get_. chk.
    eapply setitem_live. live.
  - live.
  - apply agree_off_insert; [cbn; tauto|].
    apply agree_off_insert; [cbn; tauto|].
    intros k Hk. apply Hag. cbn in *. tauto.
  - look.
  - look.
  - look.
Qed.

Lemma description_block (r : Ref) (v : Value) (d : DataDict) (s : State) :
  Live s r d ->
  exists s1 d1,
    (if truthy (heap s) v
     then return_unless_ref r (None : option Ref);; setitem r DescriptionRole v
     else ret tt) s = (Val tt, s1)
    /\ Live s1 r d1 /\ agree_off [DescriptionRole] d d1.
Proof.
  intros HL. destruct (truthy (heap s) v).
  - eexists _, _. split; [|split].
    + chk. eapply setitem_live. live.
    + live.
    + apply agree_off_insert; [by left|apply agree_off_refl].
  - exists s, d. split; [done|]. split; [done|apply agree_off_refl].
Qed.

Lemma flags_block (h : Heap) (v : Value) (flags : Z) (s : State) :
  flags_value v ->
  exists fl,
    (if truthy h v
     then let* z := as_int (R:=option Ref) v in ret (Z.lor flags z)
     else ret flags) s = (Val fl, s).
Proof.
  intros [->|[z ->]]; cbn [truthy]; [by eexists|].
  destruct (negb (z =? 0)); by eexists.
Qed.

Lemma info_sequence_frames_1235
    (X : Extern) (db : DB) (r : Ref) (d : DataDict) (s : State)
    (loaded : Value) (server job root : string) (more : list string)
    (f : Z) (seq : SeqMatch) (e : DirEntry) (er : list DirEntry) (z : Z) :
  Live s r d ->
  d !! FileInfoLoaded = Some loaded -> truthy (heap s) loaded = false ->
  d !! ParentPathRole = Some (VStrs (server :: job :: root :: more)) ->
  get_db X server job root = Some db ->
  (forall k, flags_value (db_value db k "flags")) ->
  d !! FlagsRole = Some (VInt f) ->
  d !! TypeRole = Some (VItemType SequenceItem) ->
  d !! FramesRole = Some (VStrs frames_1235) ->
  d !! SequenceRole = Some (VMatch seq) ->
  d !! EntryRole = Some (VEntries (e :: er)) ->
  d !! SortBySizeRole = Some (VInt z) ->
  exists s1 d1,
    InfoWorker.process_file_information X r s = (Ret (Some r), s1)
    /\ Live s1 r d1
    /\ d1 !! StartpathRole
       = Some (VStr (group1 seq +:+ "0001" +:+ group3 seq +:+ "." +:+ group4 seq))
    /\ d1 !! EndpathRole
       = Some (VStr (group1 seq +:+ "0005" +:+ group3 seq +:+ "." +:+ group4 seq))
    /\ d1 !! FileDetailsRole
       = Some (VStr ("4f;" +:+ InfoWorker.date_string X (latest (e :: er) 0)
                     +:+ byte_to_string X (VInt (z + total_size (e :: er)))))
    /\ d1 !! FileInfoLoaded = Some (VBool true).
Proof.
  intros HL Hloaded Hlv Hpp Hdb Hfl Hflags Htype Hfr Hseq Her Hz.
  set (k := proxy_path X d).
  destruct (description_block r (db_value db k "description") d s HL)
    as (sa & da & Hrun_a & HLa & Hag_a).
  assert (Hoff : forall key, key <> DescriptionRole -> da !! key = d !! key).
  { intros key Hkey. apply Hag_a. cbn. intuition congruence. }
  destruct (count_notes_live X db k r da sa HLa) as (c & k' & sb & Hrun_b & HLb).
  set (sc := write r TodoCountRole (VInt c) da sb).
  set (dc := <[TodoCountRole := VInt c]> da).
  destruct (flags_block (heap sc) (db_value db k' "flags")
              (Z.lor (Z.lor f ItemIsEditable) ItemIsDragEnabled) sc (Hfl k'))
    as (fl & Hrun_f).
  assert (HLc : Live sc r dc) by (by apply write_Live).
  set (se := write r FlagsRole (VInt fl) dc sc).
  set (de := <[FlagsRole := VInt fl]> dc).
  assert (HLe : Live se r de) by (by apply write_Live).
  assert (Hde : forall key, key <> DescriptionRole -> key <> TodoCountRole ->
                            key <> FlagsRole -> de !! key = d !! key).
  { intros key H1 H2 H3. unfold de, dc. rewrite !lookup_insert_ne by done.
    by apply Hoff. }
  destruct (sequence_item_frames_1235 X db r de se seq e er z HLe)
    as (sg & dg & Hrun_g & HLg & Hag_g & _ & _ & Hdetails);
    [by rewrite Hde..|].
  assert (Hdg : forall key, key <> SortBySizeRole -> key <> SortByLastModifiedRole ->
                            key <> FileDetailsRole ->
                            dg !! key = inserts (sequence_names seq "0001" "0005"
                              (get_ranges X [1; 2; 3; 5] 4)
                              (db_thumbnail_path db
                                 (group1 seq +:+ "[0]" +:+ group3 seq +:+ "." +:+ group4 seq)))
                              de !! key).
  { intros key H1 H2 H3. apply Hag_g. cbn. intuition congruence. }
  eexists _, _. split; [|split; [|split; [|split; [|split]]]].
  - unfold InfoWorker.process_file_information.
    chk. get_. unfold bind at 1, gets. rewrite Hlv. cbn [return_if].
    eapply bind_Val; [reflexivity|cbv beta].
    chk.
    eapply bind_Val; [eapply bind_Val; [by eapply getitem_live|reflexivity]|cbv beta].
    eapply bind_Val; [reflexivity|cbv beta].
    eapply bind_Val; [reflexivity|cbv beta].
    eapply bind_Val; [reflexivity|cbv beta].
    rewrite Hdb.
    chk.
    eapply (bind_Val _ _ _ (Some d) s).
    { destruct HL as (He & Hh & _). by rewrite deref_eq, (after_tick_quiet s He), Hh. }
    cbv beta.
    eapply bind_Val; [reflexivity|cbv beta].
    unfold bind at 1, gets.
    eapply bind_Val; [exact Hrun_a|cbv beta].
    eapply bind_Val; [exact Hrun_b|cbv beta].
    chk. put_. chk.
    eapply (bind_Val _ _ _ f sc).
    { eapply bind_Val.
      - eapply getitem_live; [exact HLc|].
        unfold dc. rewrite lookup_insert_ne by done. by rewrite Hoff.
      - reflexivity. }
    cbv beta. unfold bind at 1, gets.
    eapply bind_Val; [exact Hrun_f|cbv beta].
    chk. put_. chk.
    eapply bind_Val; [eapply getitem_live; [exact HLe|by rewrite Hde]|cbv beta].
    rewrite bool_decide_eq_true_2 by done.
    eapply bind_Val; [exact Hrun_g|cbv beta].
    chk.
    eapply bind_Val; [eapply getitem_live; [exact HLg|]|cbv beta].
    { rewrite Hdg by done. cbn [sequence_names inserts].
      rewrite !lookup_insert_ne by done. by rewrite Hde. }
    rewrite bool_decide_eq_false_2 by done.
    eapply bind_Val; [reflexivity|cbv beta].
    chk. put_. chk. reflexivity.
  - live.
  - rewrite lookup_insert_ne by done. rewrite Hdg by done.
    cbn [sequence_names inserts]. look.
  - rewrite lookup_insert_ne by done. rewrite Hdg by done.
    cbn [sequence_names inserts]. look.
  - rewrite lookup_insert_ne by done. exact Hdetails.
  - apply lookup_insert_eq.
Qed.

(** C8: for a live sequence record with the frame strings 0001, 0002, 0003
    and 0005 that is not loaded yet (its sidecar store is there and holds
    integer flags or none, the record has its match, its flags, its size and
    at least one file entry; the worker is not interrupted and no other
    thread interferes), the step of the metadata worker succeeds and leaves
    in the record a start path with frame 0001 and an end path with frame
    0005, each between group 1 and group 3 of the match, and a detail string
    that starts with the frame count 4 followed by [f;]. *)
Theorem C8_sequence_frames_1235
    (X : Extern) (db : DB) (r : Ref) (d : DataDict) (s : State)
    (loaded : Value) (server job root : string) (more : list string)
    (f : Z) (seq : SeqMatch) (e : DirEntry) (er : list DirEntry) (z : Z) :
  env s = [] -> interrupt s = false ->
  heap s !! r = Some d ->
  d !! FileInfoLoaded = Some loaded -> truthy (heap s) loaded = false ->
  d !! ParentPathRole = Some (VStrs (server :: job :: root :: more)) ->
  get_db X server job root = Some db ->
  (forall k, flags_value (db_value db k "flags")) ->
  d !! FlagsRole = Some (VInt f) ->
  d !! TypeRole = Some (VItemType SequenceItem) ->
  d !! FramesRole = Some (VStrs ["0001"; "0002"; "0003"; "0005"]) ->
  d !! SequenceRole = Some (VMatch seq) ->
  d !! EntryRole = Some (VEntries (e :: er)) ->
  d !! SortBySizeRole = Some (VInt z) ->
  exists s1 d1,
    call (R':=unit) None (InfoWorker.process_data X r) s = (Val (Some r), s1)
    /\ heap s1 !! r = Some d1
    /\ d1 !! StartpathRole
       = Some (VStr (group1 seq +:+ "0001" +:+ group3 seq +:+ "." +:+ group4 seq))
    /\ d1 !! EndpathRole
       = Some (VStr (group1 seq +:+ "0005" +:+ group3 seq +:+ "." +:+ group4 seq))
    /\ (exists rest, d1 !! FileDetailsRole = Some (VStr ("4f;" +:+ rest)))
    /\ d1 !! FileInfoLoaded = Some (VBool true).
Proof.
  intros He Hi Hh Hloaded Hlv Hpp Hdb Hfl Hflags Htype Hfr Hseq Her Hz.
  assert (HL : Live s r d).
  { repeat split; [done|done|]. intros ->. by rewrite lookup_empty in Htype. }
  destruct (info_sequence_frames_1235 X db r d s loaded server job root more f seq e er z
              HL Hloaded Hlv Hpp Hdb Hfl Hflags Htype Hfr Hseq Her Hz)
    as (s1 & d1 & Hrun & HL1 & Hstart & Hend & Hdetails & Hdone).
  exists s1, d1. split; [|split; [apply HL1|split; [done|split; [done|split; [|done]]]]].
  - apply call_Ret. unfold InfoWorker.process_data.
    run @return_unless_ref_or_interrupt_live.
    eapply bind_Val; [apply (call_Ret (R':=option Ref) None), Hrun|cbv beta].
    run @return_unless_ref_live. reflexivity.
  - eexists. exact Hdetails.
Qed.

Lemma C8_sequence_frames_1235_witness :
  let s := Demo.state [] {[ 1%nat := Demo.sequence_record ]} in
  exists s1 d1,
    call (R':=unit) None (InfoWorker.process_data Demo.X 1%nat) s = (Val (Some 1%nat), s1)
    /\ heap s1 !! 1%nat = Some d1
    /\ d1 !! StartpathRole = Some (VStr "/job/shot_0001.exr")
    /\ d1 !! EndpathRole = Some (VStr "/job/shot_0005.exr")
    /\ (exists rest, d1 !! FileDetailsRole = Some (VStr ("4f;" +:+ rest)))
    /\ d1 !! FileInfoLoaded = Some (VBool true).
Proof.
  intros s.
  apply (C8_sequence_frames_1235 Demo.X Demo.db 1%nat Demo.sequence_record s
           (VBool false) "//server" "job" "root" [] 1 Demo.shot
           {| entry_name := "shot_0001.exr"; st_mtime := 100; st_size := 10 |}
           [ {| entry_name := "shot_0002.exr"; st_mtime := 300; st_size := 20 |};
             {| entry_name := "shot_0003.exr"; st_mtime := 200; st_size := 30 |};
             {| entry_name := "shot_0005.exr"; st_mtime := 250; st_size := 40 |} ] 0);
    try reflexivity.
  intros k. left. reflexivity.
Defined.

(** The same run, computed: the detail string in full. *)
Example sequence_record_details :
  let s := Demo.state [] {[ 1%nat := Demo.sequence_record ]} in
  let s1 := snd (call (R':=unit) None (InfoWorker.process_data Demo.X 1%nat) s) in
  (heap s1 !! 1%nat) ≫= (fun d => d !! FileDetailsRole)
    = Some (VStr "4f;dd/MM/yyyy hh:mm;12MB")
  /\ (heap s1 !! 1%nat) ≫= (fun d => d !! SortBySizeRole) = Some (VInt 100)
  /\ (heap s1 !! 1%nat) ≫= (fun d => d !! SortByLastModifiedRole) = Some (VInt 300)
  /\ (heap s1 !! 1%nat) ≫= (fun d => d !! DisplayRole) = Some (VStr "shot_[1-3,5].exr").
Proof. vm_compute. repeat split; reflexivity. Qed.

(** ** Resetting the queue *)

Lemma get_all_drains (d : list Ref) : forall (n : Z) (s : State),
  data_queue s = {| queue := d; unfinished_tasks := n |} ->
  BaseWorker.get_all (length d) s
  = (Exc QueueEmpty, set_data_queue {| queue := []; unfinished_tasks := n |} s).
Proof.
  induction d as [|x d IH] using rev_ind; intros n s Hq.
  - cbn [length BaseWorker.get_all]. apply bind_Exc.
    rewrite queue_get_eq, Hq, get_empty. f_equal.
    destruct s. cbn in *. subst. reflexivity.
  - rewrite length_app. cbn [length].
    replace (length d + 1)%nat with (S (length d)) by lia.
    cbn [BaseWorker.get_all].
    eapply bind_Val; [by rewrite queue_get_eq, Hq, get_snoc|cbv beta].
    rewrite (IH n) by done. done.
Qed.

(** [reset_queue] returns, with the flag raised and the queue empty. *)
Lemma reset_queue_drains (s : State) :
  call (R':=unit) tt BaseWorker.reset_queue s
  = (Val tt, set_data_queue {| queue := [];
                               unfinished_tasks := unfinished_tasks (data_queue s) |}
               (set_interrupt true s)).
Proof.
  apply call_Ret. unfold BaseWorker.reset_queue.
  eapply bind_Val; [reflexivity|cbv beta].
  unfold try_except, try_except_finally.
  unfold bind at 1, gets. unfold Queue._qsize.
  rewrite (get_all_drains (queue (data_queue s)) (unfinished_tasks (data_queue s)));
    [done|cbn [set_interrupt data_queue]; by destruct (data_queue s)].
Qed.

(** After a reset the next activation finds the queue empty and lowers the
    flag; a reference submitted then is reported by the activation that
    follows. *)
Lemma reset_is_a_pulse (X : Extern) (r : Ref) (s : State) :
  0 <= unfinished_tasks (data_queue s) ->
  let s1 := snd (call (R':=unit) tt BaseWorker.reset_queue s) in
  let s2 := snd (activate BaseWorker.process_data s1) in
  let s3 := snd (call (R':=unit) tt (BaseThread.put X (AWeakref r) false) s2) in
  let s4 := snd (activate BaseWorker.process_data s3) in
  interrupt s1 = true /\ interrupt s2 = false
  /\ trace s2 = trace s
  /\ trace s4 = trace s ++ [DataReady r]
  /\ queue (data_queue s4) = [].
Proof.
  intros Hn s1 s2 s3 s4.
  set (q0 := {| queue := []; unfinished_tasks := unfinished_tasks (data_queue s) |}).
  assert (E1 : s1 = set_data_queue q0 (set_interrupt true s)).
  { unfold s1. by rewrite reset_queue_drains. }
  assert (E2 : s2 = set_interrupt false s1).
  { unfold s2. rewrite (activate_empty _ s1 QueueEmpty); [done|by rewrite E1]. }
  set (q1 := {| queue := [r];
                unfinished_tasks := unfinished_tasks (data_queue s) + 1 |}).
  assert (E3 : s3 = set_data_queue q1 (set_interrupt false s)).
  { unfold s3, call. rewrite put_normal_state. rewrite E2, E1. reflexivity. }
  set (q2 := {| queue := [];
                unfinished_tasks := unfinished_tasks (data_queue s) + 1 |}).
  set (q3 := {| queue := [];
                unfinished_tasks := unfinished_tasks (data_queue s) + 1 - 1 |}).
  assert (E4 : s4 = set_interrupt false
                      (set_data_queue q3 (emit (DataReady r) (set_data_queue q2 s3)))).
  { unfold s4. erewrite (activate_some _ s3 r q2 r _ q3); [reflexivity| | |].
    - rewrite E3. apply (get_snoc [] r).
    - rewrite E3. reflexivity.
    - unfold Queue.task_done, q2, q3. cbn [set_data_queue data_queue unfinished_tasks].
      by destruct (unfinished_tasks (data_queue s) + 1 - 1 <? 0) eqn:E; [lia|]. }
  rewrite E4, E3, E2, E1. cbn. by rewrite ?app_nil_r.
Qed.

(** * Further properties of the code *)

(** ** Resetting, accounting and draining *)

(** X1: [BaseWorker.reset_queue] always returns; it raises the interrupt
    flag and empties the queue, whatever its length; it does not call
    [task_done], so the count of unfinished tasks stays, and it touches
    neither the store nor the signals. *)
Theorem X1_reset_queue_empties (s : State) :
  exists s', call (R':=unit) tt BaseWorker.reset_queue s = (Val tt, s')
    /\ interrupt s' = true
    /\ queue (data_queue s') = []
    /\ unfinished_tasks (data_queue s') = unfinished_tasks (data_queue s)
    /\ heap s' = heap s /\ trace s' = trace s /\ env s' = env s.
Proof. eexists. split; [apply reset_queue_drains|]. by repeat split. Qed.

(** X2: the reset is a pulse: the activation that follows a reset finds
    the queue empty, emits nothing and lowers the flag; a reference
    submitted after that is reported by the next activation. *)
Theorem X2_reset_then_submit (X : Extern) (r : Ref) (s : State) :
  0 <= unfinished_tasks (data_queue s) ->
  let s1 := snd (call (R':=unit) tt BaseWorker.reset_queue s) in
  let s2 := snd (activate BaseWorker.process_data s1) in
  let s3 := snd (call (R':=unit) tt (BaseThread.put X (AWeakref r) false) s2) in
  let s4 := snd (activate BaseWorker.process_data s3) in
  interrupt s1 = true /\ interrupt s2 = false
  /\ trace s2 = trace s
  /\ trace s4 = trace s ++ [DataReady r]
  /\ queue (data_queue s4) = [].
Proof. apply reset_is_a_pulse. Qed.

Lemma X2_reset_then_submit_witness :
  let s := Demo.state [3%nat; 4%nat] ∅ in
  let s1 := snd (call (R':=unit) tt BaseWorker.reset_queue s) in
  let s2 := snd (activate BaseWorker.process_data s1) in
  let s3 := snd (call (R':=unit) tt (BaseThread.put Demo.X (AWeakref 5%nat) false) s2) in
  let s4 := snd (activate BaseWorker.process_data s3) in
  interrupt s1 = true /\ interrupt s2 = false
  /\ trace s2 = trace s
  /\ trace s4 = trace s ++ [DataReady 5%nat]
  /\ queue (data_queue s4) = [].
Proof.
  intros s. apply (X2_reset_then_submit Demo.X 5%nat s). vm_compute. discriminate.
Defined.

Lemma Accounted_put (x : Ref) (f : bool) (q : UniqueQueue) :
  Accounted q -> Accounted (Queue.put x f q).
Proof.
  unfold Accounted. rewrite queue_put. intros H.
  destruct f; cbn [Queue.put Queue._put unfinished_tasks queue];
    rewrite ?length_app; cbn [length]; lia.
Qed.

Lemma get_inr (q : UniqueQueue) (x : Ref) (q' : UniqueQueue) :
  Queue.get q = inr (x, q') ->
  queue q = queue q' ++ [x] /\ unfinished_tasks q' = unfinished_tasks q.
Proof.
  destruct q as [d n]. destruct d as [|y d] using rev_ind; [discriminate|].
  rewrite get_snoc. by intros [= <- <-].
Qed.

Lemma get_inl (q : UniqueQueue) (e : exn) :
  Queue.get q = inl e -> queue q = [] /\ e = QueueEmpty.
Proof.
  destruct q as [d n]. destruct d as [|y d] using rev_ind.
  - by intros [= <-].
  - by rewrite get_snoc.
Qed.

Lemma Accounted_get (q : UniqueQueue) (x : Ref) (q' : UniqueQueue) :
  Accounted q -> Queue.get q = inr (x, q') ->
  exists q'', Queue.task_done q' = inr q''
              /\ queue q'' = queue q'
              /\ unfinished_tasks q'' = unfinished_tasks q - 1
              /\ Accounted q' /\ Accounted q''.
Proof.
  unfold Accounted. intros Ha Hg. apply get_inr in Hg as [Hq Hu].
  rewrite Hq, length_app in Ha. cbn [length] in Ha.
  unfold Queue.task_done. destruct (unfinished_tasks q' - 1 <? 0) eqn:E; [lia|].
  eexists. split; [reflexivity|]. cbn [queue unfinished_tasks]. repeat split; lia.
Qed.

(** X3: the count of unfinished tasks never falls below the number of queued
    references.  The controller's [put] keeps this, and so does an activation
    whose step leaves the queue alone; the activation takes the reference at
    the right end off the queue (if there is one), and lowers the count by
    one when it reports the reference and not otherwise. *)
Theorem X3_accounting
    (X : Extern) (func : Ref -> Py State (option Ref) unit) (s : State) :
  Accounted (data_queue s) ->
  (forall x s0, data_queue (snd (func x s0)) = data_queue s0) ->
  (forall r f, Accounted (data_queue
                 (snd (call (R':=unit) tt (BaseThread.put X (AWeakref r) f) s))))
  /\ let s' := snd (activate func s) in
     Accounted (data_queue s')
     /\ queue (data_queue s') = removelast (queue (data_queue s))
     /\ (unfinished_tasks (data_queue s') = unfinished_tasks (data_queue s)
         \/ (unfinished_tasks (data_queue s') = unfinished_tasks (data_queue s) - 1
             /\ exists res, last (trace s') = Some (DataReady res))).
Proof.
  intros Ha Hfunc. split.
  - intros r f. unfold call. destruct f.
    + rewrite put_force_state. by apply Accounted_put.
    + rewrite put_normal_state. destruct (BaseThread.contains _ _ _ _); [done|].
      by apply Accounted_put.
  - intros s'. subst s'.
    destruct (Queue.get (data_queue s)) as [e|[r q']] eqn:Hg.
    { destruct (get_inl _ _ Hg) as [Hq ->].
      rewrite (activate_empty func s QueueEmpty Hg). cbn. rewrite Hq. auto. }
    destruct (Accounted_get _ _ _ Ha Hg) as (q'' & Ht & Hq'' & Hu'' & Ha' & Ha'').
    destruct (get_inr _ _ _ Hg) as [Hq Hu].
    assert (Hrl : removelast (queue (data_queue s)) = queue q')
      by (by rewrite Hq, removelast_last).
    assert (Hs1 : data_queue (snd (call (R':=unit) None (func r) (set_data_queue q' s))) = q').
    { unfold call. pose proof (Hfunc r (set_data_queue q' s)) as H.
      by destruct (func r (set_data_queue q' s)) as [[?|?|?] ?]. }
    destruct (call (R':=unit) None (func r) (set_data_queue q' s)) as [[[res|]|[]|e] s1] eqn:Hf;
      cbn [snd] in Hs1.
    + rewrite (activate_some func s r q' res s1 q'' Hg Hf) by (by rewrite Hs1).
      cbn. rewrite Hrl. split; [done|]. split; [done|]. right. split; [lia|].
      exists res. by rewrite last_snoc.
    + rewrite (activate_none func s r q' s1 Hg Hf). cbn. rewrite Hs1, Hrl. auto.
    + unfold call in Hf. by destruct (func r (set_data_queue q' s)) as [[?|?|?] ?].
    + rewrite (activate_raise func s r q' e s1 Hg Hf). cbn.
      destruct e; cbn; rewrite Hs1, Hrl; auto.
Qed.

Lemma X3_accounting_witness :
  let s := Demo.state [3%nat; 4%nat] ∅ in
  let s' := snd (activate BaseWorker.process_data s) in
  Accounted (data_queue s') /\ queue (data_queue s') = [3%nat].
Proof.
  intros s.
  destruct (X3_accounting Demo.X BaseWorker.process_data s) as (_ & H1 & H2 & _).
  - unfold Accounted. vm_compute. discriminate.
  - intros x s0. unfold BaseWorker.process_data, bind, gets.
    by destruct (interrupt s0).
  - split; [exact H1|exact H2].
Defined.

Lemma base_step_not_interrupted (r : Ref) (s : State) :
  interrupt s = false ->
  call (R':=unit) None (BaseWorker.process_data r) s = (Val (Some r), s).
Proof.
  intros Hi. apply call_Ret. unfold BaseWorker.process_data, bind, gets. by rewrite Hi.
Qed.

Lemma activations_S func (n : nat) (s : State) :
  activations func (S n) s = activations func n (snd (activate func s)).
Proof. unfold activations. apply Nat.iter_succ_r. Qed.

Lemma base_activations_drain (d : list Ref) : forall s : State,
  interrupt s = false -> Accounted (data_queue s) -> queue (data_queue s) = d ->
  let s' := activations BaseWorker.process_data (length d) s in
  trace s' = trace s ++ map DataReady (rev d)
  /\ queue (data_queue s') = []
  /\ unfinished_tasks (data_queue s')
     = unfinished_tasks (data_queue s) - Z.of_nat (length d)
  /\ heap s' = heap s /\ interrupt s' = false.
Proof.
  induction d as [|x d IH] using rev_ind; intros s Hi Ha Hq.
  - cbn. rewrite app_nil_r, Z.sub_0_r. by repeat split.
  - rewrite length_app. cbn [length].
    replace (length d + 1)%nat with (S (length d)) by lia.
    rewrite activations_S.
    assert (Hg : Queue.get (data_queue s)
                 = inr (x, {| queue := d;
                              unfinished_tasks := unfinished_tasks (data_queue s) |})).
    { destruct (data_queue s) as [d0 u]. cbn in Hq. subst d0. apply get_snoc. }
    destruct (Accounted_get _ _ _ Ha Hg) as (q'' & Ht & Hq'' & Hu'' & _ & Ha'').
    rewrite (activate_some BaseWorker.process_data s x _ x _ q'' Hg
               (base_step_not_interrupted x (set_data_queue _ s) Hi) Ht).
    cbn [snd].
    destruct (IH (set_interrupt false
                    (set_data_queue q''
                       (emit (DataReady x)
                          (set_data_queue
                             {| queue := d;
                                unfinished_tasks := unfinished_tasks (data_queue s) |} s)))))
      as (H1 & H2 & H3 & H4 & H5); [done|done|done|].
    rewrite H1, H2, H3, H4, H5. cbn [set_interrupt set_data_queue emit trace heap data_queue].
    rewrite rev_app_distr, Hu''. cbn [rev app map].
    repeat split; [by rewrite <- app_assoc|lia].
Qed.

(** X4: on a worker that is not interrupted, as many activations of the
    base step as there are queued references report every one of them, in
    the order the queue hands them out, whether they still resolve or not
    (the base step does not look at the record); the queue is then empty,
    the count of unfinished tasks is lowered by their number, and the store
    is untouched. *)
Theorem X4_base_activations_drain (s : State) :
  interrupt s = false -> Accounted (data_queue s) ->
  let s' := activations BaseWorker.process_data (length (queue (data_queue s))) s in
  trace s' = trace s ++ map DataReady (Queue.drain (data_queue s))
  /\ queue (data_queue s') = []
  /\ unfinished_tasks (data_queue s')
     = unfinished_tasks (data_queue s) - Z.of_nat (length (queue (data_queue s)))
  /\ heap s' = heap s /\ interrupt s' = false.
Proof.
  intros Hi Ha. rewrite drain_rev.
  by apply (base_activations_drain (queue (data_queue s)) s).
Qed.

Lemma X4_base_activations_drain_witness :
  let s := Demo.state [3%nat; 4%nat; 5%nat] ∅ in
  let s' := activations BaseWorker.process_data 3 s in
  trace s' = [DataReady 5%nat; DataReady 4%nat; DataReady 3%nat]
  /\ queue (data_queue s') = [].
Proof.
  intros s.
  destruct (X4_base_activations_drain s) as (H1 & H2 & _).
  - reflexivity.
  - unfold Accounted. vm_compute. discriminate.
  - split; [exact H1|exact H2].
Defined.

Lemma return_unless_ref_or_interrupt_interrupted {R} (r : Ref) (v : R) (s : State) :
  interrupt s = true ->
  return_unless_ref_or_interrupt r v s = (Ret v, after_tick s).
Proof.
  intros Hi. unfold return_unless_ref_or_interrupt, bind.
  rewrite ref_true_eq.
  destruct (negb _); [done|]. unfold gets. by rewrite after_tick_interrupt, Hi.
Qed.

(** X5: an activation that finds the interrupt flag raised takes the next
    reference off the queue and drops it: the step of the base, metadata,
    thumbnail and folder-count workers returns empty before it reads or
    writes anything, nothing is emitted or logged, the reference is not put
    back, and the flag is lowered. *)
Theorem X5_interrupted_activation_drops
    (X : Extern) (s : State) (r : Ref) (q' : UniqueQueue)
    (step : Ref -> Py State (option Ref) unit) :
  Queue.get (data_queue s) = inr (r, q') ->
  interrupt s = true ->
  step = BaseWorker.process_data \/ step = InfoWorker.process_data X
    \/ step = ThumbnailWorker.process_data X \/ step = TaskFolderWorker.process_data X ->
  let s' := snd (activate step s) in
  fst (activate step s) = Val tt
  /\ trace s' = trace s
  /\ data_queue s' = q'
  /\ interrupt s' = false
  /\ (heap s' = heap s \/ heap s' = heap (after_tick s)).
Proof.
  intros Hg Hi Hstep s'.
  assert (Hs : exists s1, call (R':=unit) None (step r) (set_data_queue q' s) = (Val None, s1)
                 /\ trace s1 = trace s /\ data_queue s1 = q'
                 /\ (heap s1 = heap s \/ heap s1 = heap (after_tick s))).
  { destruct Hstep as [->|[->|[->| ->]]].
    - exists (set_data_queue q' s). split; [|by auto].
      apply call_Ret. unfold BaseWorker.process_data, bind, gets.
      cbn [set_data_queue interrupt]. by rewrite Hi.
    - eexists. split.
      + apply call_Ret. unfold InfoWorker.process_data. apply bind_Ret.
        by apply return_unless_ref_or_interrupt_interrupted.
      + rewrite after_tick_trace, after_tick_data_queue. repeat split.
        right. unfold after_tick. cbn. by destruct (env s).
    - eexists. split.
      + apply call_Ret. unfold ThumbnailWorker.process_data. apply bind_Ret.
        by apply return_unless_ref_or_interrupt_interrupted.
      + rewrite after_tick_trace, after_tick_data_queue. repeat split.
        right. unfold after_tick. cbn. by destruct (env s).
    - eexists. split.
      + apply call_Ret. unfold TaskFolderWorker.process_data. apply bind_Ret.
        by apply return_unless_ref_or_interrupt_interrupted.
      + rewrite after_tick_trace, after_tick_data_queue. repeat split.
        right. unfold after_tick. cbn. by destruct (env s). }
  destruct Hs as (s1 & Hs & Ht & Hq & Hh).
  subst s'. rewrite (activate_none step s r q' s1 Hg Hs). by repeat split.
Qed.

Lemma X5_interrupted_activation_drops_witness :
  let s := set_interrupt true (Demo.state [1%nat] {[ 1%nat := Demo.oversized_record ]}) in
  let s' := snd (activate (ThumbnailWorker.process_data Demo.X) s) in
  trace s' = [] /\ queue (data_queue s') = [] /\ interrupt s' = false.
Proof.
  intros s.
  destruct (X5_interrupted_activation_drops Demo.X s 1%nat
              {| queue := []; unfinished_tasks := 1 |}
              (ThumbnailWorker.process_data Demo.X))
    as (_ & H1 & H2 & H3 & _); [reflexivity|reflexivity|by right; right; left|].
  split; [exact H1|]. split; [by rewrite H2|exact H3].
Defined.

(** X6: submissions without [force] keep the queue free of duplicates: if
    no reference is queued twice, none is after any number of such
    submissions, whatever the records hold. *)
Theorem X6_unforced_puts_keep_queue_unique
    (X : Extern) (ops : list (Ref * bool)) (s : State) :
  List.NoDup (queue (data_queue s)) ->
  (forall op, In op ops -> snd op = false) ->
  List.NoDup (queue (data_queue (BaseThread.puts X ops s))).
Proof.
  revert s. induction ops as [|[x f] ops IH]; intros s Hnd Hops; [done|].
  rewrite puts_cons. apply IH; [|intros op Hop; apply Hops; by right].
  rewrite put_queue.
  assert (f = false) as -> by (apply (Hops (x, f)); by left).
  destruct (BaseThread.contains X (heap s) x (queue (data_queue s))) eqn:Hc; [done|].
  constructor; [|done]. by apply (contains_false_not_In X (heap s)).
Qed.

Lemma X6_unforced_puts_keep_queue_unique_witness :
  List.NoDup (queue (data_queue
    (BaseThread.puts Demo.X [(5%nat, false); (6%nat, false); (5%nat, false)]
       (Demo.state [] ∅)))).
Proof.
  apply X6_unforced_puts_keep_queue_unique.
  - constructor.
  - intros op [<-|[<-|[<-|[]]]]; reflexivity.
Defined.

(** ** The progress label *)

Lemma monitor_total (threads : list (option State)) (z : Z) :
  fold_left
    (fun l thread =>
       match thread with
       | None => l
       | Some worker => l + Z.of_nat (length (queue (data_queue worker)))
       end) threads z
  = z + Z.of_nat (pending threads).
Proof.
  revert z. induction threads as [|t threads IH]; intros z.
  - cbn. lia.
  - cbn [fold_left]. rewrite IH. unfold pending. cbn [map sum_list].
    fold (pending threads). unfold id. destruct t; lia.
Qed.

(** X7: the text of the progress label is empty exactly when no registered
    worker has a reference queued (threads without a worker do not count);
    otherwise it reads [Loading... (N left)] with [N] the number of the
    references queued over all workers. *)
Theorem X7_monitor_text (threads : list (option State)) :
  (ThreadMonitor.text threads = ""%string
   <-> Forall (fun thread => match thread with
                             | None => True
                             | Some worker => queue (data_queue worker) = []
                             end) threads)
  /\ (ThreadMonitor.text threads <> ""%string ->
      ThreadMonitor.text threads
      = "Loading... (" +:+ PyStr.unicode (Z.of_nat (pending threads)) +:+ " left)").
Proof.
  unfold ThreadMonitor.text. rewrite monitor_total, Z.add_0_l.
  assert (Hp : pending threads = O
               <-> Forall (fun thread => match thread with
                                         | None => True
                                         | Some worker => queue (data_queue worker) = []
                                         end) threads).
  { induction threads as [|t threads IH]; [by split|].
    unfold pending. cbn [map sum_list]. fold (pending threads). unfold id.
    rewrite Forall_cons, <- IH. destruct t as [w|].
    - destruct (queue (data_queue w)); cbn [length]; [tauto|].
      split; [lia|]. by intros [? _].
    - tauto. }
  destruct (Z.of_nat (pending threads) =? 0) eqn:E.
  - apply Z.eqb_eq in E. split; [|done]. split; [|done]. intros _. apply Hp. lia.
  - apply Z.eqb_neq in E. split; [|done]. split; [done|].
    intros H. apply Hp in H. lia.
Qed.

(** ** Errors of the thumbnail and folder-count steps *)

Lemma try_finally_Ret_Exc {Σ R A} (body : Py Σ R A) handler final s v s1 e s2 :
  body s = (Ret v, s1) -> final s1 = (Exc e, s2) ->
  try_except_finally body handler final s = (Exc e, s2).
Proof. intros Hb Hf. unfold try_except_finally. by rewrite Hb, Hf. Qed.

(** X8: [process_thumbnail] is documented to return [False] when it does
    not succeed, but on a record that has been dropped it raises: the body
    returns before [source] is assigned, and the [finally] clause then
    reads [source].  It writes and emits nothing. *)
Theorem X8_process_thumbnail_dropped_record (X : Extern) (r : Ref) (s : State) :
  heap s !! r = None ->
  exists s', call (R':=unit) None (ThumbnailWorker.process_thumbnail X r) s
             = (Exc UnboundLocalError, s')
    /\ trace s' = trace s /\ heap s' !! r = None.
Proof.
  intros Hd. exists (after_tick (after_tick s)). split.
  - apply call_Exc. unfold ThumbnailWorker.process_thumbnail.
    eapply with_locals_eq. eapply try_finally_Ret_Exc.
    + apply bind_Ret. by apply lift_eq, return_unless_ref_dead.
    + eapply bind_Val; [apply lift_eq, ref_true_eq|cbv beta].
      rewrite (after_tick_dead _ r (after_tick_dead s r Hd)).
      eapply bind_Val; [reflexivity|cbv beta].
      apply bind_Exc. reflexivity.
  - rewrite !after_tick_trace. split; [done|].
    by apply after_tick_dead, after_tick_dead.
Qed.

Lemma X8_process_thumbnail_dropped_record_witness :
  exists s', call (R':=unit) None (ThumbnailWorker.process_thumbnail Demo.X 1%nat)
               (Demo.state [] ∅)
             = (Exc UnboundLocalError, s')
    /\ trace s' = [] /\ heap s' !! 1%nat = None.
Proof. apply (X8_process_thumbnail_dropped_record Demo.X 1%nat (Demo.state [] ∅)). reflexivity. Defined.




(** ** The bulk metadata worker *)

Lemma background_for_each_loaded (X : Extern) (r : Ref) (d : DataDict) (refs : list Ref) :
  forall (changed : bool) (s : State),
  Live s r d -> interrupt s = false ->
  (forall x, In x refs ->
     exists dx v, heap s !! x = Some dx /\ dx !! FileInfoLoaded = Some v
                  /\ truthy (heap s) v = true) ->
  BackgroundInfoWorker.for_each X r (VDict <$> refs) changed s = (Val changed, s).
Proof.
  induction refs as [|x refs IH]; intros changed s HL Hi Hrefs; [reflexivity|].
  cbn [fmap list_fmap BackgroundInfoWorker.for_each].
  run @return_unless_ref_or_interrupt_live.
  destruct (Hrefs x (or_introl eq_refl)) as (dx & v & Hx & Hv & Ht).
  eapply (bind_Val _ _ _ v s).
  { unfold BackgroundInfoWorker.item_getitem, bind, gets. by rewrite Hx, Hv. }
  cbv beta. unfold bind at 1, gets. rewrite Ht.
  apply IH; [done|done|]. intros y Hy. apply Hrefs. by right.
Qed.

(** X10: on a live data set all of whose records are already marked as
    loaded (worker not interrupted, nobody interfering), the step of the
    bulk metadata worker is a no-op: it writes nothing, does not emit
    [modelLoaded], and returns empty. *)
Theorem X10_background_loaded_data_set
    (X : Extern) (r : Ref) (d : DataDict) (refs : list Ref)
    (s : State) (emitted : list Ref) :
  env s = [] -> interrupt s = false ->
  heap s !! r = Some d ->
  snd <$> map_to_list d = VDict <$> refs ->
  (forall x, In x refs ->
     exists dx v, heap s !! x = Some dx /\ dx !! FileInfoLoaded = Some v
                  /\ truthy (heap s) v = true) ->
  BackgroundInfoWorker.process_data X r (s, emitted) = (Ret None, (s, emitted)).
Proof.
  intros He Hi Hh Hvals Hrefs. unfold BackgroundInfoWorker.process_data.
  destruct (decide (d = ∅)) as [->|Hne].
  - apply bind_Ret. apply lift_eq. unfold return_unless_ref_or_interrupt.
    eapply bind_Val; [apply ref_true_eq|]. cbv beta.
    rewrite (after_tick_quiet s He), Hh. by rewrite bool_decide_eq_true_2.
  - assert (HL : Live s r d) by done.
    runl @return_unless_ref_or_interrupt_live.
    eapply bind_Val; [eapply lift_eq; by eapply values_live|cbv beta].
    rewrite Hvals.
    eapply bind_Val; [eapply lift_eq; by eapply background_for_each_loaded|cbv beta].
    runl @return_unless_ref_or_interrupt_live.
    reflexivity.
Qed.

Lemma X10_background_loaded_data_set_witness :
  let s := Demo.state [] {[ 1%nat := {[ Idx 0 := VDict 2%nat ]}; 2%nat := Demo.loaded ]} in
  BackgroundInfoWorker.process_data Demo.X 1%nat (s, []) = (Ret None, (s, [])).
Proof.
  intros s.
  apply (X10_background_loaded_data_set Demo.X 1%nat {[ Idx 0 := VDict 2%nat ]} [2%nat]);
    try reflexivity.
  intros x [<-|[]]. eexists _, _. repeat split; reflexivity.
Defined.

(** X11: [BackgroundInfoWorker.reset_queue], unlike the base worker's, only
    raises the flag: the queue keeps its references.  The step that follows
    returns empty at its first check, whatever the data set holds, without
    a write and without [modelLoaded]. *)
Theorem X11_background_reset_keeps_queue
    (X : Extern) (r : Ref) (s : State) (emitted : list Ref) :
  let s1 := snd (call (R':=unit) tt BackgroundInfoWorker.reset_queue s) in
  fst (call (R':=unit) tt BackgroundInfoWorker.reset_queue s) = Val tt
  /\ data_queue s1 = data_queue s
  /\ interrupt s1 = true
  /\ BackgroundInfoWorker.process_data X r (s1, emitted)
     = (Ret None, (after_tick s1, emitted))
  /\ trace (after_tick s1) = trace s.
Proof.
  cbn. repeat split.
  - unfold BackgroundInfoWorker.process_data. apply bind_Ret, lift_eq.
    by apply return_unless_ref_or_interrupt_interrupted.
  - by rewrite after_tick_trace.
Qed.

(** ** The paths of the thumbnail step *)

(** Run the step of the thumbnail worker up to the test for a cached
    thumbnail. *)
Ltac thumbnail_prefix Hready :=
  let HL := fresh "HL" in let Hi := fresh "Hi" in
  let z := fresh "z" in let Hf := fresh "Hf" in let Harch := fresh "Harch" in
  let vl := fresh "vl" in let Hl := fresh "Hl" in let Hlv := fresh "Hlv" in
  let vt := fresh "vt" in let Htl := fresh "Htl" in let Htlv := fresh "Htlv" in
  let Htp := fresh "Htp" in let Hsz := fresh "Hsz" in let Htip := fresh "Htip" in
  destruct Hready as (HL & Hi & (z & Hf & Harch) & (vl & Hl & Hlv) & (vt & Htl & Htlv)
                      & Htp & Hsz & Htip);
  unfold ThumbnailWorker.process_data;
  run @return_unless_ref_or_interrupt_live;
  (eapply bind_Val; [eapply bind_Val; [by eapply getitem_live|reflexivity]|cbv beta]);
  rewrite Harch; cbn [Z.eqb negb return_if];
  (eapply bind_Val; [reflexivity|cbv beta]);
  (eapply bind_Val;
     [cbn [ThumbnailWorker.wait_for_info];
      run @ref_true_live; cbn [negb]; run @getitem_live;
      unfold bind at 1, gets; rewrite Hlv; reflexivity
     |cbv beta]);
  run @return_unless_ref_or_interrupt_live; run @getitem_live;
  unfold bind at 1, gets; rewrite Htlv; cbn [return_if];
  (eapply bind_Val; [reflexivity|cbv beta]);
  run @return_unless_ref_or_interrupt_live; run @getitem_live;
  run @return_unless_ref_or_interrupt_live;
  (eapply bind_Val; [eapply bind_Val; [by eapply getitem_live|reflexivity]|cbv beta]);
  run @return_unless_ref_or_interrupt_live;
  (eapply bind_Val; [eapply bind_Val; [by eapply getitem_live|reflexivity]|cbv beta]);
  (eapply bind_Val; [reflexivity|cbv beta]).

(** X12: when a cached thumbnail exists and can be decoded, the step sets it
    as the thumbnail, marks the record as loaded and returns the reference;
    the generator is not invoked, whatever the size or extension of the
    source. *)
Theorem X12_thumbnail_from_cache
    (X : Extern) (s : State) (r : Ref) (d : DataDict)
    (tip tpath : string) (h : Z) (image : Image) :
  Ready X s r d tip tpath h ->
  file_exists X tpath = true ->
  ImageCache_get X tpath h = Some image ->
  exists s',
    call (R':=unit) None (ThumbnailWorker.process_data X r) s = (Val (Some r), s')
    /\ heap s' !! r = Some (<[FileThumbnailLoaded := VBool true]>
                             (<[ThumbnailRole := VImage image]> d))
    /\ trace s' = trace s ++ [SetItem r ThumbnailRole (VImage image);
                               SetItem r FileThumbnailLoaded (VBool true)].
Proof.
  intros Hready Hex Himg. eexists. split; [|split].
  - apply call_Ret. thumbnail_prefix Hready.
    rewrite Hex, Himg.
    run @return_unless_ref_or_interrupt_live. run @setitem_live.
    eapply bind_Val;
      [eapply return_unless_ref_or_interrupt_live; [by apply write_Live|done]|cbv beta].
    eapply bind_Val; [eapply setitem_live; by apply write_Live|cbv beta].
    eapply bind_Val;
      [eapply return_unless_ref_or_interrupt_live; [by do 2 apply write_Live|done]|cbv beta].
    reflexivity.
  - apply lookup_insert_eq.
  - cbn [write emit trace set_heap]. by rewrite <- app_assoc.
Qed.

Lemma X12_thumbnail_from_cache_witness :
  let s := Demo.state [] {[ 1%nat := Demo.oversized_record ]} in
  exists s',
    call (R':=unit) None (ThumbnailWorker.process_data Demo.X_cached 1%nat) s
      = (Val (Some 1%nat), s')
    /\ heap s' !! 1%nat = Some (<[FileThumbnailLoaded := VBool true]>
                                 (<[ThumbnailRole := VImage 9%nat]> Demo.oversized_record))
    /\ trace s' = trace s ++ [SetItem 1%nat ThumbnailRole (VImage 9%nat);
                               SetItem 1%nat FileThumbnailLoaded (VBool true)].
Proof.
  intros s.
  apply (X12_thumbnail_from_cache Demo.X_cached s 1%nat Demo.oversized_record
           "/job/a.exr" "/cache/a.png" 54 9%nat); [|reflexivity|reflexivity].
  repeat split; try reflexivity; try (eexists; split; reflexivity).
  vm_compute. discriminate.
Defined.

(** X13: when the cached thumbnail exists but cannot be decoded, or when
    there is none and the extension of the source is not one the generator
    knows, the step returns empty without writing anything: the record is
    not marked as loaded and nothing is emitted. *)
Theorem X13_thumbnail_unavailable
    (X : Extern) (s : State) (r : Ref) (d : DataDict) (tip tpath : string) (h : Z) :
  Ready X s r d tip tpath h ->
  (file_exists X tpath = true /\ ImageCache_get X tpath h = None)
  \/ (file_exists X tpath = false /\ extension tip ∉ oiio_extensions X) ->
  call (R':=unit) None (ThumbnailWorker.process_data X r) s = (Val None, s).
Proof.
  intros Hready Hcase. apply call_Ret. thumbnail_prefix Hready.
  destruct Hcase as [[Hex Himg]|[Hex Hext]]; rewrite Hex.
  - by rewrite Himg.
  - apply bind_Ret. unfold PyStr.contains.
    rewrite bool_decide_eq_false_2 by exact Hext. reflexivity.
Qed.

Lemma X13_thumbnail_unavailable_witness :
  let d := <[StatusTipRole := VStr "/job/a.txt"]> Demo.oversized_record in
  let s := Demo.state [] {[ 1%nat := d ]} in
  call (R':=unit) None (ThumbnailWorker.process_data Demo.X 1%nat) s = (Val None, s).
Proof.
  intros d s.
  apply (X13_thumbnail_unavailable Demo.X s 1%nat d "/job/a.txt" "/cache/a.png" 54).
  - repeat split; try reflexivity; try (eexists; split; reflexivity).
    vm_compute. discriminate.
  - right. split; [reflexivity|]. vm_compute.
    intros H%list_elem_of_In. cbn in H. intuition discriminate.
Defined.

Lemma wait_for_info_gives_up (k : nat) (r : Ref) (d : DataDict) (v : Value) (s : State) :
  Live s r d -> interrupt s = false ->
  d !! FileInfoLoaded = Some v -> truthy (heap s) v = false ->
  ThumbnailWorker.wait_for_info k r s = (Ret None, s).
Proof.
  intros HL Hi Hl Hlv. induction k as [|k IH]; cbn [ThumbnailWorker.wait_for_info].
  - run @ref_true_live. cbn [negb]. run @getitem_live.
    unfold bind at 1, gets. by rewrite Hlv.
  - run @ref_true_live. cbn [negb]. run @getitem_live.
    unfold bind at 1, gets. rewrite Hlv.
    run @return_unless_ref_or_interrupt_live.
    eapply bind_Val; [|exact IH]. rewrite tick_eq, after_tick_quiet; [done|apply HL].
Qed.

(** X14: the step of the thumbnail worker returns empty without writing
    anything on a record that is archived, on one whose information is still
    not loaded after the wait (22 looks at the flag, 21 sleeps), and on one
    whose thumbnail is already loaded. *)
Theorem X14_thumbnail_early_exits
    (X : Extern) (s : State) (r : Ref) (d : DataDict) (z : Z) :
  env s = [] -> interrupt s = false ->
  heap s !! r = Some d ->
  d !! FlagsRole = Some (VInt z) ->
  Z.land z (MarkedAsArchived X) <> 0
  \/ (exists v, d !! FileInfoLoaded = Some v /\ truthy (heap s) v = false)
  \/ (exists v w, d !! FileInfoLoaded = Some v /\ truthy (heap s) v = true
                  /\ d !! FileThumbnailLoaded = Some w /\ truthy (heap s) w = true) ->
  call (R':=unit) None (ThumbnailWorker.process_data X r) s = (Val None, s).
Proof.
  intros He Hi Hh Hf Hcase.
  assert (HL : Live s r d).
  { repeat split; [done|done|]. intros ->. by rewrite lookup_empty in Hf. }
  apply call_Ret. unfold ThumbnailWorker.process_data.
  run @return_unless_ref_or_interrupt_live.
  eapply bind_Val; [eapply bind_Val; [by eapply getitem_live|reflexivity]|cbv beta].
  destruct (Z.land z (MarkedAsArchived X) =? 0) eqn:Harch.
  2:{ cbn [negb return_if]. reflexivity. }
  cbn [negb return_if]. eapply bind_Val; [reflexivity|cbv beta].
  destruct Hcase as [Hz|[(v & Hl & Hlv)|(v & w & Hl & Hlv & Ht & Htv)]].
  - apply Z.eqb_eq in Harch. done.
  - apply bind_Ret. by eapply wait_for_info_gives_up.
  - eapply bind_Val.
    { cbn [ThumbnailWorker.wait_for_info].
      run @ref_true_live. cbn [negb]. run @getitem_live.
      unfold bind at 1, gets. rewrite Hlv. reflexivity. }
    cbv beta. run @return_unless_ref_or_interrupt_live. run @getitem_live.
    unfold bind at 1, gets. by rewrite Htv.
Qed.

Lemma X14_thumbnail_early_exits_witness :
  let d := <[FileInfoLoaded := VBool false]> Demo.oversized_record in
  let s := Demo.state [] {[ 1%nat := d ]} in
  call (R':=unit) None (ThumbnailWorker.process_data Demo.X 1%nat) s = (Val None, s).
Proof.
  intros d s.
  apply (X14_thumbnail_early_exits Demo.X s 1%nat d 0); try reflexivity.
  right. left. eexists. split; reflexivity.
Defined.

Lemma try_finally_handled {Σ R A} (body : Py Σ R A) handler final s e s1 a s2 u s3 :
  body s = (Exc e, s1) -> handler e s1 = (Val a, s2) -> final s2 = (Val u, s3) ->
  try_except_finally body handler final s = (Val a, s3).
Proof. intros Hb Hh Hf. unfold try_except_finally. by rewrite Hb, Hh, Hf. Qed.

Section Generation.
Variable X : Extern.
Variables (r : Ref) (d : DataDict) (tip tpath : string) (h : Z) (s : State).
Hypothesis HL : Live s r d.
Hypothesis Htip : d !! StatusTipRole = Some (VStr tip).
Hypothesis Htp : d !! ThumbnailPathRole = Some (VStr tpath).
Hypothesis Hsmall : file_size X (source_of X tip) < size_ceiling.

Let se : State := emit (MakeThumbnail (source_of X tip) tpath) s.

(** The body of [process_thumbnail] up to the call of the generator. *)
Local Ltac to_generator :=
  runl @return_unless_ref_live; runl @getitem_live;
  (eapply bind_Val; [reflexivity|cbv beta]);
  (eapply bind_Val; [reflexivity|cbv beta]);
  runl @return_unless_ref_live; runl @getitem_live;
  (eapply bind_Val; [reflexivity|cbv beta]);
  (eapply bind_Val;
     [unfold return_if;
      replace (size_ceiling <=? file_size X
                 (if is_collapsed X tip then get_sequence_startpath X tip else tip))
        with false by (symmetry; apply Z.leb_gt; exact Hsmall);
      reflexivity
     |cbv beta]);
  (eapply bind_Val; [reflexivity|cbv beta]).

Lemma finally_marks_loaded (s0 : State) (d0 : DataDict) :
  Live s0 r d0 ->
  (let* alive := lift (ref_true r) in
   (if alive then lift (setitem r FileThumbnailLoaded (VBool true)) else ret tt);;
   ThumbnailWorker.invalidate ThumbnailWorker.source_bound;;
   ThumbnailWorker.invalidate ThumbnailWorker.dest_bound)
    (s0, {| ThumbnailWorker.source_bound := true; ThumbnailWorker.dest_bound := true |})
  = (Val tt, (write r FileThumbnailLoaded (VBool true) d0 s0,
              {| ThumbnailWorker.source_bound := true;
                 ThumbnailWorker.dest_bound := true |})).
Proof.
  intros HL0. runl @ref_true_live.
  eapply bind_Val; [eapply lift_eq; by eapply setitem_live|cbv beta].
  reflexivity.
Qed.

Lemma process_thumbnail_generated (hv : Z) :
  d !! SizeHintRole = Some (VSize hv) ->
  oiio_make_thumbnail X (source_of X tip) tpath (THUMBNAIL_IMAGE_SIZE X) = GenOk ->
  let image := ThumbnailWorker.image_value (ImageCache_get X tpath hv) in
  ThumbnailWorker.process_thumbnail X r s
  = (Ret (Some true),
     write r FileThumbnailLoaded (VBool true) (<[ThumbnailRole := image]> d)
       (write r ThumbnailRole image d se)).
Proof.
  intros Hsz Hgen image. unfold ThumbnailWorker.process_thumbnail.
  assert (HLe : Live se r d) by (by apply emit_Live).
  eapply with_locals_eq. eapply try_finally_Ret.
  - to_generator.
    eapply (bind_Val _ _ _ true (se, _)).
    { apply lift_eq. unfold ThumbnailWorker.generate, bind, modify.
      fold (source_of X tip). by rewrite Hgen. }
    cbv beta. cbn [negb return_if].
    eapply bind_Val; [reflexivity|cbv beta].
    eapply bind_Val; [eapply lift_eq; by eapply return_unless_ref_live|cbv beta].
    eapply bind_Val;
      [eapply lift_eq; eapply bind_Val; [by eapply getitem_live|reflexivity]|cbv beta].
    eapply bind_Val;
      [eapply lift_eq; eapply bind_Val; [by eapply getitem_live|reflexivity]|cbv beta].
    eapply bind_Val; [eapply lift_eq; by eapply return_unless_ref_live|cbv beta].
    eapply bind_Val; [eapply lift_eq; by eapply setitem_live|cbv beta].
    eapply bind_Val;
      [eapply lift_eq; eapply return_unless_ref_live; by apply write_Live|cbv beta].
    reflexivity.
  - apply finally_marks_loaded. by apply write_Live.
Qed.

Lemma process_thumbnail_refused :
  oiio_make_thumbnail X (source_of X tip) tpath (THUMBNAIL_IMAGE_SIZE X) = GenFail ->
  ThumbnailWorker.process_thumbnail X r s
  = (Ret (Some false), write r FileThumbnailLoaded (VBool true) d se).
Proof.
  intros Hgen. unfold ThumbnailWorker.process_thumbnail.
  assert (HLe : Live se r d) by (by apply emit_Live).
  eapply with_locals_eq. eapply try_finally_Ret.
  - to_generator.
    eapply (bind_Val _ _ _ false (se, _)).
    { apply lift_eq. unfold ThumbnailWorker.generate, bind, modify.
      fold (source_of X tip). by rewrite Hgen. }
    cbv beta. reflexivity.
  - by apply finally_marks_loaded.
Qed.

Lemma process_thumbnail_raised (default : Value) :
  d !! DefaultThumbnailRole = Some default ->
  oiio_make_thumbnail X (source_of X tip) tpath (THUMBNAIL_IMAGE_SIZE X) = GenRaise ->
  ThumbnailWorker.process_thumbnail X r s
  = (Val tt,
     write r FileThumbnailLoaded (VBool true) (<[ThumbnailRole := default]> d)
       (emit (LogError "Failed to generate thumbnail")
          (write r ThumbnailRole default d se))).
Proof.
  intros Hdef Hgen. unfold ThumbnailWorker.process_thumbnail.
  assert (HLe : Live se r d) by (by apply emit_Live).
  eapply with_locals_eq. eapply try_finally_handled.
  - to_generator.
    apply bind_Exc. apply lift_eq. unfold ThumbnailWorker.generate, bind, modify.
    fold (source_of X tip). by rewrite Hgen.
  - eapply bind_Val; [eapply lift_eq; by eapply ref_true_live|cbv beta].
    eapply bind_Val.
    { eapply bind_Val; [eapply lift_eq; by eapply getitem_live|cbv beta].
      eapply lift_eq. by eapply setitem_live. }
    cbv beta. apply lift_eq. reflexivity.
  - apply finally_marks_loaded. apply emit_Live. by apply write_Live.
Qed.
End Generation.

(** Run the step of the thumbnail worker from the test for a cached
    thumbnail to the call of [process_thumbnail]. *)
Ltac thumbnail_to_generation Hex Hext :=
  rewrite Hex; unfold PyStr.contains;
  rewrite bool_decide_eq_true_2 by exact Hext; cbn [negb return_if];
  (eapply bind_Val; [reflexivity|cbv beta]);
  run @return_unless_ref_or_interrupt_live;
  run @setitem_live.

(** X15: when there is no cached thumbnail, the extension is one the
    generator knows, the source is below the ceiling and the generator
    succeeds, the generator is invoked once, on the source (the first frame
    of a collapsed sequence) and the cache path; the record gets what the
    image cache then loads from the cache path (nothing, if that fails), is
    marked as loaded, and the step returns the reference. *)
Theorem X15_thumbnail_generated
    (X : Extern) (s : State) (r : Ref) (d : DataDict) (tip tpath : string) (h : Z) :
  Ready X s r d tip tpath h ->
  file_exists X tpath = false ->
  extension tip ∈ oiio_extensions X ->
  file_size X (source_of X tip) < size_ceiling ->
  oiio_make_thumbnail X (source_of X tip) tpath (THUMBNAIL_IMAGE_SIZE X) = GenOk ->
  let image := ThumbnailWorker.image_value (ImageCache_get X tpath h) in
  exists s' d',
    call (R':=unit) None (ThumbnailWorker.process_data X r) s = (Val (Some r), s')
    /\ heap s' !! r = Some d'
    /\ d' !! ThumbnailRole = Some image
    /\ d' !! FileThumbnailLoaded = Some (VBool true)
    /\ trace s' = trace s ++ [SetItem r FileThumbnailLoaded (VBool false);
                               MakeThumbnail (source_of X tip) tpath;
                               SetItem r ThumbnailRole image;
                               SetItem r FileThumbnailLoaded (VBool true);
                               SetItem r FileThumbnailLoaded (VBool true)].
Proof.
  intros Hready Hex Hext Hsmall Hgen image.
  pose proof Hready as (HL0 & Hi0 & _ & _ & _ & Htp0 & Hsz0 & Htip0).
  set (d1 := <[FileThumbnailLoaded := VBool false]> d).
  set (s1 := write r FileThumbnailLoaded (VBool false) d s).
  assert (HL1 : Live s1 r d1) by (by apply write_Live).
  pose proof (process_thumbnail_generated X r d1 tip tpath s1 HL1
                ltac:(unfold d1; by rewrite lookup_insert_ne) ltac:(unfold d1; by rewrite lookup_insert_ne)
                Hsmall h ltac:(unfold d1; by rewrite lookup_insert_ne) Hgen) as Hpt.
  cbv zeta in Hpt. fold image in Hpt.
  eexists _, _. split; [|split; [|split; [|split]]].
  - apply call_Ret. thumbnail_prefix Hready. thumbnail_to_generation Hex Hext.
    eapply bind_Val; [apply call_Ret; exact Hpt|cbv beta].
    cbn [negb return_if]. rewrite bool_decide_eq_true_2 by done. cbn [negb].
    eapply bind_Val; [reflexivity|cbv beta].
    eapply bind_Val;
      [eapply return_unless_ref_or_interrupt_live; [do 2 apply write_Live; exact HL1|done]
      |cbv beta].
    eapply bind_Val; [eapply setitem_live; do 2 apply write_Live; exact HL1|cbv beta].
    eapply bind_Val;
      [eapply return_unless_ref_or_interrupt_live; [do 3 apply write_Live; exact HL1|done]
      |cbv beta].
    reflexivity.
  - apply lookup_insert_eq.
  - look.
  - look.
  - cbn [write emit trace set_heap s1]. by rewrite <- !app_assoc.
Qed.

Lemma X15_thumbnail_generated_witness :
  let s := Demo.state [] {[ 1%nat := Demo.oversized_record ]} in
  exists s' d',
    call (R':=unit) None (ThumbnailWorker.process_data (Demo.X_small GenOk) 1%nat) s
      = (Val (Some 1%nat), s')
    /\ heap s' !! 1%nat = Some d'
    /\ d' !! ThumbnailRole = Some (VImage 9%nat)
    /\ d' !! FileThumbnailLoaded = Some (VBool true)
    /\ trace s' = [SetItem 1%nat FileThumbnailLoaded (VBool false);
                   MakeThumbnail "/job/a.exr" "/cache/a.png";
                   SetItem 1%nat ThumbnailRole (VImage 9%nat);
                   SetItem 1%nat FileThumbnailLoaded (VBool true);
                   SetItem 1%nat FileThumbnailLoaded (VBool true)].
Proof.
  intros s.
  apply (X15_thumbnail_generated (Demo.X_small GenOk) s 1%nat
           Demo.oversized_record "/job/a.exr" "/cache/a.png" 54).
  - repeat split; try reflexivity; try (eexists; split; reflexivity).
    vm_compute. discriminate.
  - reflexivity.
  - vm_compute. apply list_elem_of_In. cbn. tauto.
  - reflexivity.
  - reflexivity.
Defined.

(** X16: when the generator is invoked and does not succeed, the record is
    marked as loaded all the same and the step returns empty, so that the
    record is not reported and not tried again.  If the generator returns
    false the thumbnail is left as it was; if it raises, the thumbnail
    becomes the record's default image and the failure is logged. *)
Theorem X16_thumbnail_generation_fails
    (X : Extern) (s : State) (r : Ref) (d : DataDict) (tip tpath : string) (h : Z)
    (default : Value) :
  Ready X s r d tip tpath h ->
  file_exists X tpath = false ->
  extension tip ∈ oiio_extensions X ->
  file_size X (source_of X tip) < size_ceiling ->
  d !! DefaultThumbnailRole = Some default ->
  let gen := oiio_make_thumbnail X (source_of X tip) tpath (THUMBNAIL_IMAGE_SIZE X) in
  gen <> GenOk ->
  exists s' d',
    call (R':=unit) None (ThumbnailWorker.process_data X r) s = (Val None, s')
    /\ heap s' !! r = Some d'
    /\ d' !! FileThumbnailLoaded = Some (VBool true)
    /\ d' !! ThumbnailRole
       = match gen with GenRaise => Some default | _ => d !! ThumbnailRole end
    /\ trace s'
       = trace s ++ [SetItem r FileThumbnailLoaded (VBool false);
                     MakeThumbnail (source_of X tip) tpath]
           ++ match gen with
              | GenRaise => [SetItem r ThumbnailRole default;
                             LogError "Failed to generate thumbnail"]
              | _ => []
              end
           ++ [SetItem r FileThumbnailLoaded (VBool true)].
Proof.
  intros Hready Hex Hext Hsmall Hdef gen Hgen.
  pose proof Hready as (HL0 & Hi0 & _ & _ & _ & Htp0 & Hsz0 & Htip0).
  set (d1 := <[FileThumbnailLoaded := VBool false]> d).
  set (s1 := write r FileThumbnailLoaded (VBool false) d s).
  assert (HL1 : Live s1 r d1) by (by apply write_Live).
  destruct gen eqn:Egen; [done| |]; unfold gen in Egen; clear gen.
  - pose proof (process_thumbnail_refused X r d1 tip tpath s1 HL1
                  ltac:(unfold d1; by rewrite lookup_insert_ne) ltac:(unfold d1; by rewrite lookup_insert_ne)
                  Hsmall Egen) as Hpt.
    eexists _, _. split; [|split; [|split; [|split]]].
    + apply call_Ret. thumbnail_prefix Hready. thumbnail_to_generation Hex Hext.
      eapply bind_Val; [apply call_Ret; exact Hpt|cbv beta]. reflexivity.
    + apply lookup_insert_eq.
    + look.
    + unfold d1. by rewrite !lookup_insert_ne.
    + cbn [write emit trace set_heap s1 app]. by rewrite <- !app_assoc.
  - pose proof (process_thumbnail_raised X r d1 tip tpath s1 HL1
                  ltac:(unfold d1; by rewrite lookup_insert_ne) ltac:(unfold d1; by rewrite lookup_insert_ne)
                  Hsmall default ltac:(unfold d1; by rewrite lookup_insert_ne) Egen) as Hpt.
    eexists _, _. split; [|split; [|split; [|split]]].
    + apply call_Ret. thumbnail_prefix Hready. thumbnail_to_generation Hex Hext.
      eapply bind_Val; [eapply call_Val; exact Hpt|cbv beta]. reflexivity.
    + apply lookup_insert_eq.
    + look.
    + look.
    + cbn [write emit trace set_heap s1 app]. by rewrite <- !app_assoc.
Qed.

Lemma X16_thumbnail_generation_fails_witness :
  let s := Demo.state [] {[ 1%nat := Demo.oversized_record ]} in
  exists s' d',
    call (R':=unit) None (ThumbnailWorker.process_data (Demo.X_small GenRaise) 1%nat) s
      = (Val None, s')
    /\ heap s' !! 1%nat = Some d'
    /\ d' !! FileThumbnailLoaded = Some (VBool true)
    /\ d' !! ThumbnailRole = Some (VImage 7%nat)
    /\ trace s' = [SetItem 1%nat FileThumbnailLoaded (VBool false);
                   MakeThumbnail "/job/a.exr" "/cache/a.png";
                   SetItem 1%nat ThumbnailRole (VImage 7%nat);
                   LogError "Failed to generate thumbnail";
                   SetItem 1%nat FileThumbnailLoaded (VBool true)].
Proof.
  intros s.
  apply (X16_thumbnail_generation_fails (Demo.X_small GenRaise) s 1%nat
           Demo.oversized_record "/job/a.exr" "/cache/a.png" 54 (VImage 7%nat)).
  - repeat split; try reflexivity; try (eexists; split; reflexivity).
    vm_compute. discriminate.
  - reflexivity.
  - vm_compute. apply list_elem_of_In. cbn. tauto.
  - reflexivity.
  - reflexivity.
  - discriminate.
Defined.

(** ** The metadata of a file record *)

Lemma flags_block_value (h : Heap) (v : Value) (flags : Z) (s : State) :
  flags_value v ->
  (if truthy h v
   then let* z := as_int (R:=option Ref) v in ret (Z.lor flags z)
   else ret flags) s
  = (Val (match v with VInt z => Z.lor flags z | _ => flags end), s).
Proof.
  intros [->|[z ->]]; cbn [truthy]; [reflexivity|].
  destruct (z =? 0) eqn:E; cbn [negb]; [|reflexivity].
  apply Z.eqb_eq in E. subst. by rewrite Z.lor_0_r.
Qed.

Lemma land_lor_l (a b c : Z) : Z.land a c = c -> Z.land (Z.lor a b) c = c.
Proof.
  intros H. apply Z.bits_inj'. intros n _.
  apply (f_equal (fun x => Z.testbit x n)) in H.
  rewrite Z.land_spec in *. rewrite Z.lor_spec.
  by destruct (Z.testbit a n), (Z.testbit b n), (Z.testbit c n).
Qed.

Lemma land_lor_r (a b : Z) : Z.land (Z.lor a b) b = b.
Proof.
  apply Z.bits_inj'. intros n _. rewrite Z.land_spec, Z.lor_spec.
  by destruct (Z.testbit a n), (Z.testbit b n).
Qed.

Lemma file_item_live (X : Extern) (db : DB) (r : Ref) (d : DataDict) (s : State)
    (e : DirEntry) (er : list DirEntry) (tip : string) :
  Live s r d ->
  d !! EntryRole = Some (VEntries (e :: er)) ->
  d !! StatusTipRole = Some (VStr tip) ->
  InfoWorker.file_item X db r s = (Val tt, writes r (file_details X db e tip) d s).
Proof.
  intros HL Her Htip. unfold InfoWorker.file_item, file_details. cbn [writes].
  chk. get_. unfold bind at 1, gets. cbn [truthy].
  rewrite bool_decide_eq_false_2 by done. cbn [negb].
  eapply bind_Val.
  { eapply bind_Val; [reflexivity|cbv beta].
    eapply bind_Val; [reflexivity|cbv beta].
    put_. put_. get_. chk. eapply setitem_live. live. }
  cbv beta. chk.
  eapply bind_Val; [eapply bind_Val; [eapply getitem_live; [live|look]|reflexivity]|cbv beta].
  eapply setitem_live. live.
Qed.

Lemma note_open_complete (h : Heap) (n : Note) :
  complete n -> exists b, InfoWorker.note_open h n = Some b.
Proof.
  intros [[t Ht] [c Hc]]. unfold InfoWorker.note_open. rewrite Ht, Hc.
  destruct (truthy h t); by eexists.
Qed.

Lemma note_open_no_text (h : Heap) (n : Note) :
  note_text n = None -> InfoWorker.note_open h n = None.
Proof. intros Hn. unfold InfoWorker.note_open. by rewrite Hn. Qed.

(** The comprehension passes the entries on which its condition does not
    raise. *)
Lemma count_open_visits (h : Heap) (done : list Note) (n : Note) (rest : list Note) :
  Forall complete done ->
  forall k count,
  exists count',
    InfoWorker.count_open h (done ++ n :: rest) k count
    = InfoWorker.count_open h (n :: rest) k count'.
Proof.
  induction 1 as [|x done Hx Hdone IH]; intros k count; [by eexists|].
  cbn [app InfoWorker.count_open].
  destruct (note_open_complete h x Hx) as [b ->]. apply IH.
Qed.

Lemma count_open_last (h : Heap) (done : list Note) (n : Note) (rest : list Note)
    (k : string) (count : Z) :
  Forall complete done -> rest = [] \/ note_text n = None ->
  snd (InfoWorker.count_open h (done ++ n :: rest) k count) = note_key n.
Proof.
  intros Hdone Hn. destruct (count_open_visits h done n rest Hdone k count) as [c ->].
  cbn [InfoWorker.count_open]. destruct Hn as [->|Hn].
  - by destruct (InfoWorker.note_open h n).
  - by rewrite (note_open_no_text h n Hn).
Qed.

Lemma count_open_raises (h : Heap) (done : list Note) (n : Note) (rest : list Note)
    (k : string) (count : Z) :
  Forall complete done -> note_text n = None ->
  InfoWorker.count_open h (done ++ n :: rest) k count = (None, note_key n).
Proof.
  intros Hdone Hn. destruct (count_open_visits h done n rest Hdone k count) as [c ->].
  cbn [InfoWorker.count_open]. by rewrite (note_open_no_text h n Hn).
Qed.

Lemma count_notes_decoded (X : Extern) (db : DB) (k raw : string) (notes : list Note)
    (s : State) :
  db_value db k "notes" = VStr raw -> raw <> ""%string ->
  decode_notes X raw = Some notes ->
  InfoWorker.count_notes X db k s
  = match InfoWorker.count_open (heap s) notes k 0 with
    | (Some count, k') => (Val (count, k'), s)
    | (None, k') => (Val (0, k'), emit (LogError "Could not read notes") s)
    end.
Proof.
  intros Hv Hraw Hdec. unfold InfoWorker.count_notes, bind, gets.
  rewrite Hv. cbn [truthy]. rewrite bool_decide_eq_false_2 by done. cbn [negb].
  rewrite Hdec. by destruct (InfoWorker.count_open (heap s) notes k 0) as [[c|] k'].
Qed.

Lemma count_notes_garbled (X : Extern) (db : DB) (k raw : string) (s : State) :
  db_value db k "notes" = VStr raw -> raw <> ""%string ->
  decode_notes X raw = None ->
  InfoWorker.count_notes X db k s
  = (Val (0, k), emit (LogError "Could not read notes") s).
Proof.
  intros Hv Hraw Hdec. unfold InfoWorker.count_notes, bind, gets.
  rewrite Hv. cbn [truthy]. rewrite bool_decide_eq_false_2 by done. cbn [negb].
  by rewrite Hdec.
Qed.

Lemma info_file_item
    (X : Extern) (db : DB) (r : Ref) (d : DataDict) (s : State)
    (loaded : Value) (server job root : string) (more : list string)
    (f : Z) (e : DirEntry) (er : list DirEntry) (tip : string) :
  Live s r d ->
  d !! FileInfoLoaded = Some loaded -> truthy (heap s) loaded = false ->
  d !! ParentPathRole = Some (VStrs (server :: job :: root :: more)) ->
  get_db X server job root = Some db ->
  (forall k, flags_value (db_value db k "flags")) ->
  d !! FlagsRole = Some (VInt f) ->
  d !! TypeRole = Some (VItemType FileItem) ->
  d !! EntryRole = Some (VEntries (e :: er)) ->
  d !! StatusTipRole = Some (VStr tip) ->
  exists s1 d1 sa sb c k',
    InfoWorker.process_file_information X r s = (Ret (Some r), s1)
    /\ Live s1 r d1
    /\ InfoWorker.count_notes X db (proxy_path X d) sa = (Val (c, k'), sb)
    /\ (exists t, trace s1 = trace sb ++ t)
    /\ d1 !! TodoCountRole = Some (VInt c)
    /\ d1 !! FlagsRole
       = Some (VInt (match db_value db k' "flags" with
                     | VInt z => Z.lor (base_flags f) z
                     | _ => base_flags f
                     end))
    /\ (forall key v, In (key, v) (file_details X db e tip) -> d1 !! key = Some v)
    /\ d1 !! FileInfoLoaded = Some (VBool true).
Proof.
  intros HL Hloaded Hlv Hpp Hdb Hfl Hflags Htype Her Htip.
  set (k := proxy_path X d).
  destruct (description_block r (db_value db k "description") d s HL)
    as (sa & da & Hrun_a & HLa & Hag_a).
  assert (Hoff : forall key, key <> DescriptionRole -> da !! key = d !! key).
  { intros key Hkey. apply Hag_a. cbn. intuition congruence. }
  destruct (count_notes_live X db k r da sa HLa) as (c & k' & sb & Hrun_b & HLb).
  set (sc := write r TodoCountRole (VInt c) da sb).
  set (dc := <[TodoCountRole := VInt c]> da).
  pose proof (flags_block_value (heap sc) (db_value db k' "flags") (base_flags f) sc (Hfl k'))
    as Hrun_f.
  set (fl := match db_value db k' "flags" with
             | VInt z => Z.lor (base_flags f) z
             | _ => base_flags f
             end) in *.
  assert (HLc : Live sc r dc) by (by apply write_Live).
  set (se := write r FlagsRole (VInt fl) dc sc).
  set (de := <[FlagsRole := VInt fl]> dc).
  assert (HLe : Live se r de) by (by apply write_Live).
  assert (Hde : forall key, key <> DescriptionRole -> key <> TodoCountRole ->
                            key <> FlagsRole -> de !! key = d !! key).
  { intros key H1 H2 H3. unfold de, dc. rewrite !lookup_insert_ne by done.
    by apply Hoff. }
  set (sg := writes r (file_details X db e tip) de se).
  set (dg := inserts (file_details X db e tip) de).
  assert (HLg : Live sg r dg) by (by apply writes_Live).
  exists (write r FileInfoLoaded (VBool true) dg sg), (<[FileInfoLoaded := VBool true]> dg),
    sa, sb, c, k'.
  split; [|split; [|split; [|split; [|split; [|split; [|split]]]]]].
  - unfold InfoWorker.process_file_information.
    chk. get_. unfold bind at 1, gets. rewrite Hlv. cbn [return_if].
    eapply bind_Val; [reflexivity|cbv beta].
    chk.
    eapply bind_Val; [eapply bind_Val; [by eapply getitem_live|reflexivity]|cbv beta].
    eapply bind_Val; [reflexivity|cbv beta].
    eapply bind_Val; [reflexivity|cbv beta].
    eapply bind_Val; [reflexivity|cbv beta].
    rewrite Hdb.
    chk.
    eapply (bind_Val _ _ _ (Some d) s).
    { destruct HL as (He & Hh & _). by rewrite deref_eq, (after_tick_quiet s He), Hh. }
    cbv beta.
    eapply bind_Val; [reflexivity|cbv beta].
    unfold bind at 1, gets.
    eapply bind_Val; [exact Hrun_a|cbv beta].
    eapply bind_Val; [exact Hrun_b|cbv beta].
    chk. put_. chk.
    eapply (bind_Val _ _ _ f sc).
    { eapply bind_Val.
      - eapply getitem_live; [exact HLc|].
        unfold dc. rewrite lookup_insert_ne by done. by rewrite Hoff.
      - reflexivity. }
    cbv beta. unfold bind at 1, gets.
    eapply bind_Val; [exact Hrun_f|cbv beta].
    chk. put_. chk.
    eapply bind_Val; [eapply getitem_live; [exact HLe|by rewrite Hde]|cbv beta].
    rewrite bool_decide_eq_false_2 by done.
    eapply bind_Val; [reflexivity|cbv beta].
    chk.
    eapply bind_Val; [eapply getitem_live; [exact HLe|by rewrite Hde]|cbv beta].
    rewrite bool_decide_eq_true_2 by done.
    eapply (bind_Val _ _ _ tt sg).
    { eapply file_item_live; [exact HLe|by rewrite Hde..]. }
    cbv beta. chk. put_. chk. reflexivity.
  - by apply write_Live.
  - exact Hrun_b.
  - unfold sg, se, sc. cbn [writes file_details write emit trace set_heap].
    rewrite <- !app_assoc. by eexists.
  - unfold dg, de, dc. cbn [inserts file_details]. look.
  - unfold dg, de. cbn [inserts file_details]. look.
  - intros key v Hin. unfold dg. cbn [inserts file_details].
    cbn [file_details In] in Hin.
    destruct Hin as [Hin|[Hin|[Hin|[Hin|[]]]]]; injection Hin as <- <-; look.
  - apply lookup_insert_eq.
Qed.

Lemma file_step
    (X : Extern) (db : DB) (s : State) (r : Ref) (d : DataDict)
    (loaded : Value) (server job root : string) (more : list string)
    (f : Z) (e : DirEntry) (er : list DirEntry) (tip : string) :
  Unloaded_file X db s r d loaded server job root more f e er tip ->
  exists s1 d1 sa sb c k',
    call (R':=unit) None (InfoWorker.process_data X r) s = (Val (Some r), s1)
    /\ heap s1 !! r = Some d1
    /\ InfoWorker.count_notes X db (proxy_path X d) sa = (Val (c, k'), sb)
    /\ (exists t, trace s1 = trace sb ++ t)
    /\ d1 !! TodoCountRole = Some (VInt c)
    /\ d1 !! FlagsRole
       = Some (VInt (match db_value db k' "flags" with
                     | VInt z => Z.lor (base_flags f) z
                     | _ => base_flags f
                     end))
    /\ (forall key v, In (key, v) (file_details X db e tip) -> d1 !! key = Some v)
    /\ d1 !! FileInfoLoaded = Some (VBool true).
Proof.
  intros (He & Hi & Hh & Hloaded & Hlv & Hpp & Hdb & Hfl & Hflags & Htype & Her & Htip).
  assert (HL : Live s r d).
  { repeat split; [done|done|]. intros ->. by rewrite lookup_empty in Htype. }
  destruct (info_file_item X db r d s loaded server job root more f e er tip
              HL Hloaded Hlv Hpp Hdb Hfl Hflags Htype Her Htip)
    as (s1 & d1 & sa & sb & c & k' & Hrun & HL1 & Hrest).
  exists s1, d1, sa, sb, c, k'. split; [|split; [apply HL1|exact Hrest]].
  apply call_Ret. unfold InfoWorker.process_data.
  run @return_unless_ref_or_interrupt_live.
  eapply bind_Val; [apply (call_Ret (R':=option Ref) None), Hrun|cbv beta].
  run @return_unless_ref_live. reflexivity.
Qed.

Lemma base_flags_bits (f : Z) :
  Z.land (base_flags f) f = f
  /\ Z.land (base_flags f) ItemIsEditable = ItemIsEditable
  /\ Z.land (base_flags f) ItemIsDragEnabled = ItemIsDragEnabled.
Proof.
  unfold base_flags. repeat split.
  - do 2 apply land_lor_l. apply Z.land_diag.
  - apply land_lor_l, land_lor_r.
  - apply land_lor_r.
Qed.

(** X17: when the sidecar store of a record that is not loaded yet cannot
    be opened, [process_file_information] returns [None] (as documented),
    which the step then calls: the activation ends in the handler of
    [process].  The record is left as it was (it is not marked as loaded),
    nothing is reported, [Failed whilst processing data] is logged, and the
    reference is gone from the queue while its task stays unfinished. *)
Theorem X17_info_store_unavailable
    (X : Extern) (s : State) (r : Ref) (q' : UniqueQueue) (d : DataDict)
    (loaded : Value) (server job root : string) (more : list string) :
  env s = [] -> interrupt s = false ->
  Queue.get (data_queue s) = inr (r, q') ->
  heap s !! r = Some d ->
  d !! FileInfoLoaded = Some loaded -> truthy (heap s) loaded = false ->
  d !! ParentPathRole = Some (VStrs (server :: job :: root :: more)) ->
  get_db X server job root = None ->
  let s' := snd (activate (InfoWorker.process_data X) s) in
  fst (activate (InfoWorker.process_data X) s) = Val tt
  /\ heap s' = heap s
  /\ trace s' = trace s ++ [LogError "Failed whilst processing data"]
  /\ data_queue s' = q'
  /\ unfinished_tasks q' = unfinished_tasks (data_queue s)
  /\ interrupt s' = false.
Proof.
  intros He Hi Hg Hh Hloaded Hlv Hpp Hdb s'.
  set (s0 := set_data_queue q' s).
  assert (HL : Live s0 r d).
  { repeat split; [done|done|]. intros ->. by rewrite lookup_empty in Hpp. }
  assert (Hlv0 : truthy (heap s0) loaded = false) by exact Hlv.
  assert (Hpfi : InfoWorker.process_file_information X r s0 = (Ret None, s0)).
  { unfold InfoWorker.process_file_information.
    chk. get_. unfold bind at 1, gets. rewrite Hlv0. cbn [return_if].
    eapply bind_Val; [reflexivity|cbv beta].
    chk.
    eapply bind_Val; [eapply bind_Val; [by eapply getitem_live|reflexivity]|cbv beta].
    eapply bind_Val; [reflexivity|cbv beta].
    eapply bind_Val; [reflexivity|cbv beta].
    eapply bind_Val; [reflexivity|cbv beta].
    by rewrite Hdb. }
  assert (Hstep : call (R':=unit) None (InfoWorker.process_data X r) s0
                  = (Exc TypeError, s0)).
  { apply call_Exc. unfold InfoWorker.process_data.
    eapply bind_Val; [by eapply return_unless_ref_or_interrupt_live|cbv beta].
    eapply bind_Val; [apply (call_Ret (R':=option Ref) None), Hpfi|cbv beta].
    reflexivity. }
  subst s'. rewrite (activate_raise _ s r q' TypeError s0 Hg Hstep).
  cbn [fst snd]. repeat split.
  by destruct (get_inr _ _ _ Hg).
Qed.

Lemma X17_info_store_unavailable_witness :
  let X := Demo.X_store None (fun _ => None) in
  let s := Demo.state [1%nat] {[ 1%nat := Demo.file_record ]} in
  let s' := snd (activate (InfoWorker.process_data X) s) in
  fst (activate (InfoWorker.process_data X) s) = Val tt
  /\ heap s' = heap s
  /\ trace s' = [LogError "Failed whilst processing data"]
  /\ data_queue s' = {| queue := []; unfinished_tasks := 1 |}
  /\ unfinished_tasks {| queue := []; unfinished_tasks := 1 |} = 1
  /\ interrupt s' = false.
Proof.
  intros X s.
  apply (X17_info_store_unavailable X s 1%nat {| queue := []; unfinished_tasks := 1 |}
           Demo.file_record (VBool false) "//server" "job" "root" []); reflexivity.
Defined.

(** X18: the step of the metadata worker on a file record that is not
    loaded yet succeeds and leaves in the record the modification time and
    the size of its first entry, a detail string made of that date and that
    size, the path of the cached thumbnail the sidecar store gives for the
    path of the record, and the loaded mark; the flags keep the bits the
    record had and gain the editable and drag-enabled bits. *)
Theorem X18_file_record_loaded
    (X : Extern) (db : DB) (s : State) (r : Ref) (d : DataDict)
    (loaded : Value) (server job root : string) (more : list string)
    (f : Z) (e : DirEntry) (er : list DirEntry) (tip : string) :
  Unloaded_file X db s r d loaded server job root more f e er tip ->
  exists s1 d1 fl,
    call (R':=unit) None (InfoWorker.process_data X r) s = (Val (Some r), s1)
    /\ heap s1 !! r = Some d1
    /\ d1 !! SortByLastModifiedRole = Some (VInt (st_mtime e))
    /\ d1 !! SortBySizeRole = Some (VInt (st_size e))
    /\ d1 !! FileDetailsRole
       = Some (VStr (InfoWorker.date_string X (st_mtime e)
                     +:+ byte_to_string X (VInt (st_size e))))
    /\ d1 !! ThumbnailPathRole = Some (VStr (db_thumbnail_path db tip))
    /\ d1 !! FileInfoLoaded = Some (VBool true)
    /\ d1 !! FlagsRole = Some (VInt fl)
    /\ Z.land fl f = f
    /\ Z.land fl ItemIsEditable = ItemIsEditable
    /\ Z.land fl ItemIsDragEnabled = ItemIsDragEnabled.
Proof.
  intros Hfile.
  destruct (file_step X db s r d loaded server job root more f e er tip Hfile)
    as (s1 & d1 & sa & sb & c & k' & Hrun & Hh1 & _ & _ & _ & Hflags & Hkeys & Hdone).
  destruct (base_flags_bits f) as (Hf & Hed & Hdr).
  eexists s1, d1, _. split; [exact Hrun|]. split; [exact Hh1|].
  split; [apply Hkeys; cbn; tauto|]. split; [apply Hkeys; cbn; tauto|].
  split; [apply Hkeys; cbn; tauto|]. split; [apply Hkeys; cbn; tauto|].
  split; [exact Hdone|]. split; [exact Hflags|].
  destruct (db_value db k' "flags"); repeat split; try done; by apply land_lor_l.
Qed.

Lemma X18_file_record_loaded_witness :
  let s := Demo.state [] {[ 1%nat := Demo.file_record ]} in
  exists s1 d1 fl,
    call (R':=unit) None (InfoWorker.process_data Demo.X 1%nat) s = (Val (Some 1%nat), s1)
    /\ heap s1 !! 1%nat = Some d1
    /\ d1 !! SortByLastModifiedRole = Some (VInt 100)
    /\ d1 !! SortBySizeRole = Some (VInt 10)
    /\ d1 !! FileDetailsRole = Some (VStr "dd/MM/yyyy hh:mm;12MB")
    /\ d1 !! ThumbnailPathRole = Some (VStr "/cache//job/a.exr.png")
    /\ d1 !! FileInfoLoaded = Some (VBool true)
    /\ d1 !! FlagsRole = Some (VInt fl)
    /\ Z.land fl 1 = 1
    /\ Z.land fl ItemIsEditable = ItemIsEditable
    /\ Z.land fl ItemIsDragEnabled = ItemIsDragEnabled.
Proof.
  intros s.
  apply (X18_file_record_loaded Demo.X Demo.db s 1%nat Demo.file_record
           (VBool false) "//server" "job" "root" [] 1
           {| entry_name := "a.exr"; st_mtime := 100; st_size := 10 |} [] "/job/a.exr").
  repeat split; try reflexivity. intros k. left. reflexivity.
Defined.

(** X19: the comprehension that counts the open notes binds the function's
    own [k] (Python 2), so that after it the flags of the sidecar store are
    looked up under the key of the last entry of the notes the
    comprehension has visited, not under the key of the record.  That entry
    [n] is the last of the decoded notes or, when the condition raises on
    an entry without a text, that entry; the entries before it have a text
    and a mark.  The flags stored in the record are then its own, the
    editable and drag-enabled bits, and whatever the store holds as flags
    under the key of [n]. *)
Theorem X19_flags_under_last_note_key
    (X : Extern) (db : DB) (s : State) (r : Ref) (d : DataDict)
    (loaded : Value) (server job root : string) (more : list string)
    (f : Z) (e : DirEntry) (er : list DirEntry) (tip : string)
    (raw : string) (done : list Note) (n : Note) (rest : list Note) (z : Z) :
  Unloaded_file X db s r d loaded server job root more f e er tip ->
  db_value db (proxy_path X d) "notes" = VStr raw -> raw <> ""%string ->
  decode_notes X raw = Some (done ++ n :: rest) ->
  Forall complete done ->
  rest = [] \/ note_text n = None ->
  db_value db (note_key n) "flags" = VInt z ->
  exists s1 d1,
    call (R':=unit) None (InfoWorker.process_data X r) s = (Val (Some r), s1)
    /\ heap s1 !! r = Some d1
    /\ d1 !! FlagsRole
       = Some (VInt (Z.lor (Z.lor (Z.lor f ItemIsEditable) ItemIsDragEnabled) z)).
Proof.
  intros Hfile Hraw Hne Hdec Hdone Hlast Hz.
  destruct (file_step X db s r d loaded server job root more f e er tip Hfile)
    as (s1 & d1 & sa & sb & c & k' & Hrun & Hh1 & Hnotes & _ & _ & Hflags & _).
  rewrite (count_notes_decoded X db _ raw _ sa Hraw Hne Hdec) in Hnotes.
  pose proof (count_open_last (heap sa) done n rest (proxy_path X d) 0 Hdone Hlast) as Hk.
  destruct (InfoWorker.count_open (heap sa) (done ++ n :: rest) (proxy_path X d) 0)
    as [[c0|] k0]; cbn [snd] in Hk; subst k0; injection Hnotes as _ <- _;
    rewrite Hz in Hflags; by exists s1, d1.
Qed.

Lemma X19_flags_under_last_note_key_witness :
  let X := Demo.X_store (Some (Demo.db_notes Demo.raw_two_notes "n2")) Demo.decode in
  let s := Demo.state [] {[ 1%nat := Demo.file_record ]} in
  exists s1 d1,
    call (R':=unit) None (InfoWorker.process_data X 1%nat) s = (Val (Some 1%nat), s1)
    /\ heap s1 !! 1%nat = Some d1
    /\ d1 !! FlagsRole = Some (VInt 71).
Proof.
  intros X s.
  apply (X19_flags_under_last_note_key X (Demo.db_notes Demo.raw_two_notes "n2")
           s 1%nat Demo.file_record
           (VBool false) "//server" "job" "root" [] 1
           {| entry_name := "a.exr"; st_mtime := 100; st_size := 10 |} [] "/job/a.exr"
           Demo.raw_two_notes
           [ {| note_key := "n1"; note_text := Some (VStr "call the client");
                note_checked := Some (VBool false) |} ]
           {| note_key := "n2"; note_text := Some (VStr "render");
              note_checked := Some (VBool true) |} [] 64);
    try reflexivity; try discriminate.
  - repeat split; try reflexivity. intros k. vm_compute.
    repeat (match goal with |- context [if ?b then _ else _] => destruct b end);
      (by left) || (right; by eexists).
  - constructor; [|constructor]. split; by eexists.
  - by left.
Defined.

(** X20: notes that cannot be decoded do not fail the step: the failure is
    logged as [Could not read notes], the count of open notes stored in the
    record is 0, the flags are looked up under the key of the record, and
    the record is loaded and reported as usual. *)
Theorem X20_undecodable_notes
    (X : Extern) (db : DB) (s : State) (r : Ref) (d : DataDict)
    (loaded : Value) (server job root : string) (more : list string)
    (f : Z) (e : DirEntry) (er : list DirEntry) (tip : string) (raw : string) :
  Unloaded_file X db s r d loaded server job root more f e er tip ->
  db_value db (proxy_path X d) "notes" = VStr raw -> raw <> ""%string ->
  decode_notes X raw = None ->
  exists s1 d1,
    call (R':=unit) None (InfoWorker.process_data X r) s = (Val (Some r), s1)
    /\ heap s1 !! r = Some d1
    /\ In (LogError "Could not read notes") (trace s1)
    /\ d1 !! TodoCountRole = Some (VInt 0)
    /\ d1 !! FlagsRole
       = Some (VInt (match db_value db (proxy_path X d) "flags" with
                     | VInt z => Z.lor (base_flags f) z
                     | _ => base_flags f
                     end))
    /\ d1 !! FileInfoLoaded = Some (VBool true).
Proof.
  intros Hfile Hraw Hne Hdec.
  destruct (file_step X db s r d loaded server job root more f e er tip Hfile)
    as (s1 & d1 & sa & sb & c & k' & Hrun & Hh1 & Hnotes & (t & Htr) & Hc & Hflags
        & _ & Hdone).
  rewrite (count_notes_garbled X db _ raw sa Hraw Hne Hdec) in Hnotes.
  injection Hnotes as <- <- <-.
  exists s1, d1. repeat split; try done.
  rewrite Htr. apply in_or_app. left. cbn [emit trace].
  apply in_or_app. right. by left.
Qed.

Lemma X20_undecodable_notes_witness :
  let X := Demo.X_store (Some (Demo.db_notes Demo.raw_garbled "/job/a.exr")) Demo.decode in
  let s := Demo.state [] {[ 1%nat := Demo.file_record ]} in
  exists s1 d1,
    call (R':=unit) None (InfoWorker.process_data X 1%nat) s = (Val (Some 1%nat), s1)
    /\ heap s1 !! 1%nat = Some d1
    /\ In (LogError "Could not read notes") (trace s1)
    /\ d1 !! TodoCountRole = Some (VInt 0)
    /\ d1 !! FlagsRole = Some (VInt 71)
    /\ d1 !! FileInfoLoaded = Some (VBool true).
Proof.
  intros X s.
  apply (X20_undecodable_notes X (Demo.db_notes Demo.raw_garbled "/job/a.exr")
           s 1%nat Demo.file_record
           (VBool false) "//server" "job" "root" [] 1
           {| entry_name := "a.exr"; st_mtime := 100; st_size := 10 |} [] "/job/a.exr"
           Demo.raw_garbled); try reflexivity; try discriminate.
  repeat split; try reflexivity. intros k. vm_compute.
  repeat (match goal with |- context [if ?b then _ else _] => destruct b end);
    (by left) || (right; by eexists).
Defined.

(** X25: when the condition of the comprehension raises on an entry of the
    decoded notes (an entry without a text, the entries before it having a
    text and a mark), the step does not fail either: the failure is logged
    as [Could not read notes], the count stored is 0 and the record is
    loaded and reported; [k] is by then the key of that entry, and the
    flags of the store are looked up under it. *)
Theorem X25_note_without_text
    (X : Extern) (db : DB) (s : State) (r : Ref) (d : DataDict)
    (loaded : Value) (server job root : string) (more : list string)
    (f : Z) (e : DirEntry) (er : list DirEntry) (tip : string)
    (raw : string) (done : list Note) (n : Note) (rest : list Note) :
  Unloaded_file X db s r d loaded server job root more f e er tip ->
  db_value db (proxy_path X d) "notes" = VStr raw -> raw <> ""%string ->
  decode_notes X raw = Some (done ++ n :: rest) ->
  Forall complete done ->
  note_text n = None ->
  exists s1 d1,
    call (R':=unit) None (InfoWorker.process_data X r) s = (Val (Some r), s1)
    /\ heap s1 !! r = Some d1
    /\ In (LogError "Could not read notes") (trace s1)
    /\ d1 !! TodoCountRole = Some (VInt 0)
    /\ d1 !! FlagsRole
       = Some (VInt (match db_value db (note_key n) "flags" with
                     | VInt z => Z.lor (base_flags f) z
                     | _ => base_flags f
                     end))
    /\ d1 !! FileInfoLoaded = Some (VBool true).
Proof.
  intros Hfile Hraw Hne Hdec Hdone Hn.
  destruct (file_step X db s r d loaded server job root more f e er tip Hfile)
    as (s1 & d1 & sa & sb & c & k' & Hrun & Hh1 & Hnotes & (t & Htr) & Hc & Hflags
        & _ & Hloaded).
  rewrite (count_notes_decoded X db _ raw _ sa Hraw Hne Hdec) in Hnotes.
  rewrite (count_open_raises (heap sa) done n rest _ 0 Hdone Hn) in Hnotes.
  injection Hnotes as <- <- <-.
  exists s1, d1. repeat split; try done.
  rewrite Htr. apply in_or_app. left. cbn [emit trace].
  apply in_or_app. right. by left.
Qed.

Lemma X25_note_without_text_witness :
  let X := Demo.X_store (Some (Demo.db_notes Demo.raw_empty_note "n1")) Demo.decode in
  let s := Demo.state [] {[ 1%nat := Demo.file_record ]} in
  exists s1 d1,
    call (R':=unit) None (InfoWorker.process_data X 1%nat) s = (Val (Some 1%nat), s1)
    /\ heap s1 !! 1%nat = Some d1
    /\ In (LogError "Could not read notes") (trace s1)
    /\ d1 !! TodoCountRole = Some (VInt 0)
    /\ d1 !! FlagsRole = Some (VInt 71)
    /\ d1 !! FileInfoLoaded = Some (VBool true).
Proof.
  intros X s.
  apply (X25_note_without_text X (Demo.db_notes Demo.raw_empty_note "n1")
           s 1%nat Demo.file_record
           (VBool false) "//server" "job" "root" [] 1
           {| entry_name := "a.exr"; st_mtime := 100; st_size := 10 |} [] "/job/a.exr"
           Demo.raw_empty_note []
           {| note_key := "n1"; note_text := None; note_checked := None |} []);
    try reflexivity; try discriminate.
  - repeat split; try reflexivity. intros k. vm_compute.
    repeat (match goal with |- context [if ?b then _ else _] => destruct b end);
      (by left) || (right; by eexists).
  - constructor.
Defined.

(** ** The label of a folder *)

(** X21: the label shown for a folder whose count the folder-count worker
    has stored reads [n/a] when the tree of the folder has no visible entry,
    [999+ items] when it has 999 or more, and the number of its visible
    entries followed by [items] otherwise; the stored cap of 1000 is never
    shown. *)
Theorem X21_folder_label (X : Extern) (path : string) :
  let n := visible_entries (walk X path) in
  DataKeyViewDelegate.count_text (folder_count X path)
  = if (n =? 0)%nat then "n/a"%string
    else if (999 <=? n)%nat then "999+ items"%string
    else PyStr.unicode (Z.of_nat n) +:+ " items".
Proof.
  intros n. unfold DataKeyViewDelegate.count_text, folder_count. fold n.
  destruct (n =? 0)%nat eqn:E0.
  - apply Nat.eqb_eq in E0. rewrite E0. reflexivity.
  - apply Nat.eqb_neq in E0.
    replace (Z.min (Z.of_nat n) 1000 =? 0) with false by (symmetry; apply Z.eqb_neq; lia).
    cbn [negb].
    destruct (999 <=? n)%nat eqn:E9.
    + apply Nat.leb_le in E9.
      replace (999 <=? Z.min (Z.of_nat n) 1000) with true
        by (symmetry; apply Z.leb_le; lia).
      reflexivity.
    + apply Nat.leb_gt in E9.
      replace (999 <=? Z.min (Z.of_nat n) 1000) with false
        by (symmetry; apply Z.leb_gt; lia).
      by rewrite Z.min_l by lia.
Qed.

(** ** What a step returns, whatever the other threads do *)

Create HintDb rets discriminated.

Lemma rets_ret {Σ R A} (a : A) (P : R -> Σ -> Prop) : rets (ret a) P.
Proof. intros s v s' H. discriminate. Qed.

Lemma rets_raise {Σ R A} (e : exn) (P : R -> Σ -> Prop) : rets (raise (A:=A) e) P.
Proof. intros s v s' H. discriminate. Qed.

Lemma rets_gets {Σ R A} (f : Σ -> A) (P : R -> Σ -> Prop) : rets (gets f) P.
Proof. intros s v s' H. discriminate. Qed.

Lemma rets_modify {Σ R} (f : Σ -> Σ) (P : R -> Σ -> Prop) : rets (modify f) P.
Proof. intros s v s' H. discriminate. Qed.

Lemma rets_return {Σ R A} (v : R) (P : R -> Σ -> Prop) :
  (forall s, P v s) -> rets (return_ (A:=A) v) P.
Proof. intros HP s v' s' [= <- <-]. apply HP. Qed.

Lemma rets_return_if {Σ R} (c : bool) (v : R) (P : R -> Σ -> Prop) :
  (forall s, P v s) -> rets (return_if c v) P.
Proof. intros HP. destruct c; [by apply rets_return|apply rets_ret]. Qed.

Lemma rets_bind {Σ R A B} (m : Py Σ R A) (f : A -> Py Σ R B) (P : R -> Σ -> Prop) :
  rets m P -> (forall a, rets (f a) P) -> rets (bind m f) P.
Proof.
  intros Hm Hf s v s' H. unfold bind in H.
  destruct (m s) as [[a|v1|e] s1] eqn:E.
  - by eapply Hf.
  - injection H as <- <-. by eapply Hm.
  - discriminate.
Qed.

Lemma rets_call {Σ R R'} (fall : R) (body : Py Σ R unit) (P : R' -> Σ -> Prop) :
  rets (call fall body) P.
Proof. intros s v s' H. unfold call in H. by destruct (body s) as [[]]. Qed.

Lemma rets_lift {Σ L R A} (m : Py Σ R A) (Q : R -> Prop) :
  rets m (fun v _ => Q v) -> rets (lift (L:=L) m) (fun v _ => Q v).
Proof.
  intros Hm [s l] v sl' H. unfold lift in H. cbn [fst snd] in H.
  destruct (m s) as [res s1] eqn:E. injection H as -> <-. by eapply Hm.
Qed.

#[global] Hint Resolve rets_ret rets_raise rets_gets rets_modify rets_return
  rets_return_if rets_call : rets.

Ltac rets_go :=
  cbv zeta;
  first
  [ solve [auto with rets]
  | lazymatch goal with
    | |- rets (bind _ _) _ => apply rets_bind; [rets_go | intros ?; rets_go]
    | |- rets (if ?b then _ else _) _ => destruct b; rets_go
    | |- rets (match ?x with _ => _ end) _ => destruct x; rets_go
    end
  | idtac ].

Lemma rets_tick {R} (P : R -> State -> Prop) : rets tick P.
Proof. intros s v s' H. unfold tick in H. by destruct (env s). Qed.
#[global] Hint Resolve rets_tick : rets.

Lemma rets_deref {R} (r : Ref) (P : R -> State -> Prop) : rets (deref r) P.
Proof. unfold deref. rets_go. Qed.
#[global] Hint Resolve rets_deref : rets.

Lemma rets_ref_true {R} (r : Ref) (P : R -> State -> Prop) : rets (ref_true r) P.
Proof. unfold ref_true. rets_go. Qed.
#[global] Hint Resolve rets_ref_true : rets.

Lemma rets_getitem {R} (r : Ref) (k : Key) (P : R -> State -> Prop) : rets (getitem r k) P.
Proof. unfold getitem. rets_go. Qed.

Lemma rets_setitem {R} (r : Ref) (k : Key) (v : Value) (P : R -> State -> Prop) :
  rets (setitem r k v) P.
Proof. unfold setitem. rets_go. Qed.

Lemma rets_log_error {R} (msg : string) (P : R -> State -> Prop) : rets (log_error msg) P.
Proof. apply rets_modify. Qed.

Lemma rets_emit_dataReady {R} (r : Ref) (P : R -> State -> Prop) :
  rets (emit_dataReady r) P.
Proof. apply rets_modify. Qed.

Lemma rets_return_unless_ref {R} (r : Ref) (v : R) (P : R -> State -> Prop) :
  (forall s, P v s) -> rets (return_unless_ref r v) P.
Proof. intros HP. unfold return_unless_ref. rets_go. Qed.

Lemma rets_return_unless_ref_or_interrupt {R} (r : Ref) (v : R) (P : R -> State -> Prop) :
  (forall s, P v s) -> rets (return_unless_ref_or_interrupt r v) P.
Proof. intros HP. unfold return_unless_ref_or_interrupt. rets_go. Qed.

Lemma rets_as_int {Σ R} (v : Value) (P : R -> Σ -> Prop) : rets (as_int v) P.
Proof. unfold as_int. rets_go. Qed.

Lemma rets_as_str {Σ R} (v : Value) (P : R -> Σ -> Prop) : rets (as_str v) P.
Proof. unfold as_str. rets_go. Qed.

Lemma rets_as_strs {Σ R} (v : Value) (P : R -> Σ -> Prop) : rets (as_strs v) P.
Proof. unfold as_strs. rets_go. Qed.

Lemma rets_as_entries {Σ R} (v : Value) (P : R -> Σ -> Prop) : rets (as_entries v) P.
Proof. unfold as_entries. rets_go. Qed.

Lemma rets_as_match {Σ R} (v : Value) (P : R -> Σ -> Prop) : rets (as_match v) P.
Proof. unfold as_match. rets_go. Qed.

Lemma rets_as_height {Σ R} (v : Value) (P : R -> Σ -> Prop) : rets (as_height v) P.
Proof. unfold as_height. rets_go. Qed.

#[global] Hint Resolve rets_getitem rets_setitem rets_log_error rets_emit_dataReady
  rets_return_unless_ref rets_return_unless_ref_or_interrupt
  rets_as_int rets_as_str rets_as_strs rets_as_entries rets_as_match rets_as_height : rets.

Lemma Nothing_None {Σ} (s : Σ) : Nothing None s.
Proof. reflexivity. Qed.

Lemma Same_None (r : Ref) (s : State) : Same r None s.
Proof. by left. Qed.

Lemma Same_Some (r : Ref) (s : State) : Same r (Some r) s.
Proof. by right. Qed.

Lemma Marked_None (r : Ref) (s : State) : Marked r None s.
Proof. by left. Qed.

#[global] Hint Resolve Nothing_None Same_None Same_Some Marked_None : rets.

(** A write adds its event to the trace; a check adds nothing. *)
Lemma setitem_trace {R} (r : Ref) (k : Key) (v : Value) (s s' : State) :
  setitem (R:=R) r k v s = (Val tt, s') -> trace s' = trace s ++ [SetItem r k v].
Proof.
  unfold setitem, bind. rewrite deref_eq.
  destruct (heap (after_tick s) !! r); [|discriminate].
  intros [= <-]. cbn [emit trace set_heap]. by rewrite after_tick_trace.
Qed.

Lemma check_trace {R} (r : Ref) (v : R) (res : Res R unit) (s s' : State) :
  return_unless_ref_or_interrupt r v s = (res, s') -> trace s' = trace s.
Proof.
  unfold return_unless_ref_or_interrupt, bind. rewrite ref_true_eq.
  destruct (negb _); [|unfold gets, return_if; destruct (interrupt (after_tick s))];
    intros [= _ <-]; apply after_tick_trace.
Qed.

(** The mark, the last check of the thumbnail step and the [return] after
    it. *)
Lemma rets_mark_and_report (r : Ref) :
  rets (setitem r FileThumbnailLoaded (VBool true);;
        return_unless_ref_or_interrupt r None;;
        return_ (A:=unit) (Some r)) (Marked r).
Proof.
  intros s v s' H. unfold bind in H.
  destruct (setitem r FileThumbnailLoaded (VBool true) s) as [[[]|v1|e1] s1] eqn:E1.
  - destruct (return_unless_ref_or_interrupt r None s1) as [[[]|v2|e2] s2] eqn:E2.
    + injection H as <- <-. right. split; [done|].
      rewrite (check_trace _ _ _ _ _ E2), (setitem_trace _ _ _ _ _ E1).
      apply last_snoc.
    + injection H as <- <-. left.
      exact (rets_return_unless_ref_or_interrupt r None (fun v _ => v = None)
               (fun _ => eq_refl) _ _ _ E2).
    + discriminate.
  - exfalso. exact (rets_setitem r _ _ (fun _ _ => False) _ _ _ E1).
  - discriminate.
Qed.
#[global] Hint Resolve rets_mark_and_report : rets.

(** The last check of the metadata step and the [return] after it. *)
Lemma rets_check_and_report (r : Ref) :
  rets (return_unless_ref r None;; return_ (A:=unit) (Some r)) (Same r).
Proof. rets_go. Qed.

Section Returns.
Variable X : Extern.

Lemma rets_wait_for_info (k : nat) (r : Ref) (P : option Ref -> State -> Prop) :
  (forall s, P None s) -> rets (ThumbnailWorker.wait_for_info k r) P.
Proof.
  intros HP. induction k as [|k IH]; cbn [ThumbnailWorker.wait_for_info]; rets_go.
Qed.

Lemma rets_thumbnail_step (r : Ref) :
  rets (ThumbnailWorker.process_data X r) (Marked r).
Proof.
  unfold ThumbnailWorker.process_data.
  pose proof (rets_wait_for_info 21 r (Marked r) (Marked_None r)).
  rets_go.
Qed.

Lemma rets_index (l : list string) (i : nat) (P : option Ref -> State -> Prop) :
  rets (InfoWorker.index l i) P.
Proof. unfold InfoWorker.index. rets_go. Qed.

Lemma rets_count_notes (db : DB) (k : string) (P : option Ref -> State -> Prop) :
  rets (InfoWorker.count_notes X db k) P.
Proof. unfold InfoWorker.count_notes. rets_go. Qed.

Lemma rets_iadd_item (r : Ref) (k : Key) (z : Z) (P : option Ref -> State -> Prop) :
  rets (InfoWorker.iadd_item r k z) P.
Proof. unfold InfoWorker.iadd_item. rets_go. Qed.

Lemma rets_int_frames (frs : list string) (P : option Ref -> State -> Prop) :
  rets (InfoWorker.int_frames frs) P.
Proof. induction frs as [|fr frs IH]; cbn [InfoWorker.int_frames]; rets_go. Qed.

Lemma rets_sum_entries (r : Ref) (er : list DirEntry) (P : option Ref -> State -> Prop) :
  (forall s, P None s) -> forall mtime, rets (InfoWorker.sum_entries r er mtime) P.
Proof.
  intros HP. pose proof (rets_iadd_item r SortBySizeRole) as Hadd.
  induction er as [|e er IH]; intros mtime; cbn [InfoWorker.sum_entries]; rets_go.
Qed.

Lemma rets_sequence_item (db : DB) (r : Ref) :
  rets (InfoWorker.sequence_item X db r) (Same r).
Proof.
  unfold InfoWorker.sequence_item.
  pose proof rets_index as Hidx. pose proof rets_int_frames as Hfr.
  pose proof (rets_sum_entries r) as Hsum.
  rets_go.
Qed.

Lemma rets_file_item (db : DB) (r : Ref) :
  rets (InfoWorker.file_item X db r) (Same r).
Proof. unfold InfoWorker.file_item. rets_go. Qed.

Lemma rets_process_file_information (r : Ref) :
  rets (InfoWorker.process_file_information X r) (Same r).
Proof.
  unfold InfoWorker.process_file_information.
  pose proof rets_index as Hidx. pose proof rets_count_notes as Hnotes.
  pose proof rets_sequence_item as Hseq. pose proof rets_file_item as Hfile.
  rets_go.
Qed.

Lemma rets_info_step (r : Ref) :
  rets (InfoWorker.process_data X r) (Same r).
Proof.
  unfold InfoWorker.process_data.
  apply rets_bind; [rets_go|intros _].
  intros s v s' H. unfold bind in H.
  destruct (call None (InfoWorker.process_file_information X r) s)
    as [[[x|]|?|?] s1] eqn:E; cbn in H; try discriminate.
  - assert (x = r) as ->.
    { unfold call in E.
      destruct (InfoWorker.process_file_information X r s) as [[?|v1|?] s2] eqn:E2;
        try discriminate.
      injection E as -> _.
      destruct (rets_process_file_information r _ _ _ E2); congruence. }
    by eapply rets_check_and_report.
  - by destruct (rets_call _ _ (fun _ _ => False) _ _ _ E).
Qed.

Lemma rets_return_unless_both (r _r : Ref) (P : option Ref -> State -> Prop) :
  (forall s, P None s) -> rets (TaskFolderWorker.return_unless_both r _r) P.
Proof. intros HP. unfold TaskFolderWorker.return_unless_both. rets_go. Qed.

Lemma rets_count_entries (r _r : Ref) (entries : list string) (P : option Ref -> State -> Prop) :
  (forall s, P None s) ->
  forall count, rets (TaskFolderWorker.count_entries r _r entries count) P.
Proof.
  intros HP. pose proof (rets_return_unless_both r _r P HP) as Hboth.
  induction entries as [|name rest IH]; intros count;
    cbn [TaskFolderWorker.count_entries]; rets_go.
Qed.

Lemma rets_count_folder (r _r : Ref) :
  rets (TaskFolderWorker.count_folder X r _r) Nothing.
Proof.
  unfold TaskFolderWorker.count_folder.
  pose proof (rets_return_unless_both r _r Nothing Nothing_None) as Hboth.
  pose proof (rets_count_entries r _r) as Hcount.
  rets_go.
Qed.

Lemma rets_folder_for_each (r : Ref) (refs : list Ref) :
  rets (TaskFolderWorker.for_each X r refs) Nothing.
Proof.
  pose proof (rets_count_folder r) as Hfolder.
  induction refs as [|x refs IH]; cbn [TaskFolderWorker.for_each]; rets_go.
Qed.

Lemma rets_weakrefs (vals : list Value) (P : option Ref -> State -> Prop) :
  rets (TaskFolderWorker.weakrefs vals) P.
Proof.
  induction vals as [|v vals IH]; cbn [TaskFolderWorker.weakrefs]; rets_go.
Qed.

Lemma rets_values (r : Ref) (P : option Ref -> State -> Prop) :
  rets (TaskFolderWorker.values r) P.
Proof. unfold TaskFolderWorker.values. rets_go. Qed.

Lemma rets_folder_step (r : Ref) :
  rets (TaskFolderWorker.process_data X r) Nothing.
Proof.
  unfold TaskFolderWorker.process_data.
  pose proof rets_values as Hvals. pose proof rets_weakrefs as Hrefs.
  pose proof (rets_folder_for_each r) as Heach.
  rets_go.
Qed.

Lemma rets_item_getitem (item : Value) (k : Key) (P : option Ref -> State -> Prop) :
  rets (BackgroundInfoWorker.item_getitem item k) P.
Proof. unfold BackgroundInfoWorker.item_getitem. rets_go. Qed.

Lemma rets_weakref_ref (item : Value) (P : option Ref -> State -> Prop) :
  rets (BackgroundInfoWorker.weakref_ref item) P.
Proof. unfold BackgroundInfoWorker.weakref_ref. rets_go. Qed.

Lemma rets_background_for_each (r : Ref) (items : list Value) :
  forall changed, rets (BackgroundInfoWorker.for_each X r items changed) Nothing.
Proof.
  pose proof rets_item_getitem as Hget. pose proof rets_weakref_ref as Href.
  induction items as [|item items IH]; intros changed;
    cbn [BackgroundInfoWorker.for_each]; rets_go.
Qed.

Lemma rets_background_step (r : Ref) :
  rets (BackgroundInfoWorker.process_data X r) Nothing.
Proof.
  unfold BackgroundInfoWorker.process_data.
  apply rets_bind; [apply (rets_lift _ (fun v => v = None)); rets_go|intros _].
  apply rets_bind; [apply (rets_lift _ (fun v => v = None)), rets_values|intros items].
  apply rets_bind;
    [apply (rets_lift _ (fun v => v = None)), rets_background_for_each|intros changed].
  apply rets_bind; [apply (rets_lift _ (fun v => v = None)); rets_go|intros _].
  apply rets_bind; [|intros _; rets_go].
  destruct changed; [apply rets_modify|apply rets_ret].
Qed.
End Returns.

Lemma call_option {Σ} (body : Py Σ (option Ref) unit) (s : Σ) (P : option Ref -> Σ -> Prop) :
  rets body P -> (forall s', P None s') ->
  forall v s', call (R':=unit) None body s = (Val v, s') -> P v s'.
Proof.
  intros Hb HP v s' H. unfold call in H.
  destruct (body s) as [[?|v1|?] s1] eqn:E.
  - injection H as <- <-. apply HP.
  - injection H as <- <-. by eapply Hb.
  - discriminate.
Qed.

(** X22: whatever the state of the worker and whatever the other threads
    do while the step runs, a reference the step of the metadata worker or
    of the thumbnail worker hands back to be reported is the one it was
    given; and the thumbnail step hands it back only right after marking
    the record: the last thing the worker has written or emitted is then
    [FileThumbnailLoaded = True] on that record. *)
Theorem X22_reported_reference
    (X : Extern) (r res : Ref) (s s' : State) :
  (call (R':=unit) None (InfoWorker.process_data X r) s = (Val (Some res), s') ->
   res = r)
  /\ (call (R':=unit) None (ThumbnailWorker.process_data X r) s = (Val (Some res), s') ->
      res = r
      /\ last (trace s') = Some (SetItem r FileThumbnailLoaded (VBool true))).
Proof.
  split; intros Hcall.
  - destruct (call_option _ s _ (rets_info_step X r) (Same_None r) _ _ Hcall)
      as [?|[= ->]]; [discriminate|done].
  - destruct (call_option _ s _ (rets_thumbnail_step X r) (Marked_None r) _ _ Hcall)
      as [?|[[= ->] Hlast]]; [discriminate|done].
Qed.

Lemma X22_reported_reference_witness :
  let s := Demo.state [] {[ 1%nat := Demo.built_record "/job/a.exr" ]} in
  let s' := snd (call (R':=unit) None (ThumbnailWorker.process_data Demo.X_cached 1%nat) s) in
  1%nat = 1%nat
  /\ last (trace s') = Some (SetItem 1%nat FileThumbnailLoaded (VBool true)).
Proof.
  intros s s'.
  apply (proj2 (X22_reported_reference Demo.X_cached 1%nat 1%nat s s')).
  reflexivity.
Defined.

(** X23: whatever the state of the worker and whatever the other threads
    do, the step of the folder-count worker and the step of the bulk
    metadata worker never hand a reference back: each returns empty or
    raises, so that [process] reports nothing for the record they were
    given and does not mark its task as done. *)
Theorem X23_container_steps_return_nothing
    (X : Extern) (r : Ref) (s : State) (loaded : list Ref) :
  (fst (call (R':=unit) None (TaskFolderWorker.process_data X r) s) = Val None
   \/ exists e, fst (call (R':=unit) None (TaskFolderWorker.process_data X r) s) = Exc e)
  /\ (fst (call (R':=unit) None (BackgroundInfoWorker.process_data X r) (s, loaded))
      = Val None
      \/ exists e, fst (call (R':=unit) None (BackgroundInfoWorker.process_data X r)
                          (s, loaded)) = Exc e).
Proof.
  split.
  - destruct (call (R':=unit) None (TaskFolderWorker.process_data X r) s)
      as [[v|v|e] s'] eqn:E; cbn [fst].
    + left. f_equal.
      exact (call_option _ s Nothing (rets_folder_step X r) Nothing_None _ _ E).
    + exfalso. exact (rets_call _ _ (fun _ _ => False) _ _ _ E).
    + right. by eexists.
  - destruct (call (R':=unit) None (BackgroundInfoWorker.process_data X r) (s, loaded))
      as [[v|v|e] s'] eqn:E; cbn [fst].
    + left. f_equal.
      exact (call_option _ (s, loaded) Nothing (rets_background_step X r)
               Nothing_None _ _ E).
    + exfalso. exact (rets_call _ _ (fun _ _ => False) _ _ _ E).
    + right. by eexists.
Qed.
